(** * Column reader of the segment_v2 storage format

    A shallow embedding of [be/src/olap/rowset/segment_v2/column_reader.cpp]:
    [ColumnReader] (index metadata, zone-map and bloom-filter pushdown),
    [FileColumnIterator] (ordinal seek and null-aware batched decoding),
    [ArrayFileColumnIterator] and [DefaultValueColumnIterator].

    Conventions.
    - [ordinal_t], [size_t] and [uint64_t] values are [Z]; unsigned 64-bit
      arithmetic is written with [u64_add] and [u64_sub], which wrap.
    - Page indexes ([uint32_t]) index the page lists and are [nat].
    - The bounds of a row range are [int64_t] in the code; ordinals are below
      2^63, where [int64_t] and [uint64_t] agree, and the bounds are [Z].
      Where the code of this file holds an ordinal in an [int64_t] or a
      length in an [int32_t], the conversion is written out with [to_int64]
      and [to_int32].
    - A [Status]-returning function returns a [Result]; [RETURN_IF_ERROR] is
      the bind of that monad, written [x ← r; k].  [Fault] stands for the ways the process
      leaves the [Status] discipline: a null pointer dereference, a write past
      a buffer and a failed [DCHECK] of a debug build.  Apart from
      [DefaultValueColumnIterator.init] and [ColumnTree.create], which take
      the build mode, the embedding is the release build, where [DCHECK]
      expands to nothing.
    - [ColumnTree] has the readers and iterators of nested columns
      ([ColumnReader::create] and [new_iterator]); [VectorizedBatch] the
      [next_batch] that fills a vectorized column. *)

From stdpp Require Import base list numbers strings sorting.

Local Open Scope Z_scope.

(** ** Status and the error monad *)

Inductive ErrorCode : Type :=
  | NotSupported
  | Corruption
  | NotFound
  | InternalError
  | IOError.

Inductive FaultKind : Type :=
  | NullDereference
  | CheckFailed
  | BufferOverflow.

Inductive Result (A : Type) : Type :=
  | Ok (a : A)
  | Error (c : ErrorCode)
  | Fault (f : FaultKind).

Arguments Ok {A} a.
Arguments Error {A} c.
Arguments Fault {A} f.

Global Instance Result_ret : MRet Result := fun A a => Ok a.
Global Instance Result_bind : MBind Result := fun A B k r =>
  match r with
  | Ok a => k a
  | Error c => Error c
  | Fault f => Fault f
  end.
Global Instance Result_fmap : FMap Result := fun A B f r =>
  match r with
  | Ok a => Ok (f a)
  | Error c => Error c
  | Fault f => Fault f
  end.

(** [Status]: the value of a [Result unit]. *)
Definition Status : Type := Result unit.
Definition Status_OK : Status := Ok tt.

Definition is_ok {A : Type} (r : Result A) : bool :=
  match r with Ok _ => true | _ => false end.

(** A [Status] that is a non-OK status (a fault returns no status). *)
Definition is_error {A : Type} (r : Result A) : bool :=
  match r with Error _ => true | _ => false end.

(** ** Unsigned 64-bit arithmetic *)

Definition two64 : Z := 18446744073709551616.
Definition wrap64 (z : Z) : Z := z mod two64.
Definition u64_add (a b : Z) : Z := wrap64 (a + b).
Definition u64_sub (a b : Z) : Z := wrap64 (a - b).

(** ** Signed integers *)

(** What an assignment to an [int64_t] or to an [int32_t] keeps of a value:
    the number of the signed range that is equal to it modulo 2^64 (2^32).
    An [int64_t] passed for an [ordinal_t] is converted back with
    [wrap64]. *)
Definition two63 : Z := 9223372036854775808.
Definition to_int64 (z : Z) : Z := (z + two63) mod two64 - two63.
Definition two31 : Z := 2147483648.
Definition to_int32 (z : Z) : Z := (z + two31) mod (2 * two31) - two31.

Arguments to_int64 : simpl never.
Arguments to_int32 : simpl never.

(** ** Field types *)

Inductive FieldType : Type :=
  | OLAP_FIELD_TYPE_INT
  | OLAP_FIELD_TYPE_UNSIGNED_INT
  | OLAP_FIELD_TYPE_BIGINT
  | OLAP_FIELD_TYPE_DATE
  | OLAP_FIELD_TYPE_DATETIME
  | OLAP_FIELD_TYPE_DECIMAL
  | OLAP_FIELD_TYPE_CHAR
  | OLAP_FIELD_TYPE_VARCHAR
  | OLAP_FIELD_TYPE_STRING
  | OLAP_FIELD_TYPE_HLL
  | OLAP_FIELD_TYPE_OBJECT
  | OLAP_FIELD_TYPE_ARRAY
  | OLAP_FIELD_TYPE_STRUCT
  | OLAP_FIELD_TYPE_MAP.

Global Instance FieldType_eq_dec : EqDecision FieldType.
Proof. solve_decision. Defined.

(** Modelled from the spec: [is_scalar_type] is declared outside this file;
    array, struct and map are the composite types. *)
Definition is_scalar_type (t : FieldType) : bool :=
  match t with
  | OLAP_FIELD_TYPE_ARRAY | OLAP_FIELD_TYPE_STRUCT | OLAP_FIELD_TYPE_MAP => false
  | _ => true
  end.

(** ** RowRanges *)

Module RowRanges.

(** Modelled from the spec: [RowRanges] is declared in [row_ranges.h], which
    is not part of this file.  It is an ordered set of half-open intervals
    [[from, to)] of ordinals with [add], [range_size], [get_range_from],
    [get_range_to], closed under [ranges_union] and [ranges_intersection]. *)
Definition RowRange : Type := (Z * Z)%type.

(** Modelled from the spec: the intervals of a [RowRanges], in order. *)
Definition t : Type := list RowRange.

(** Modelled from the spec: a half-open interval without ordinals. *)
Definition range_is_empty (r : RowRange) : bool := r.2 <=? r.1.

(** Modelled from the spec: [x] is in the half-open interval [r]. *)
Definition range_contains (r : RowRange) (x : Z) : bool :=
  (r.1 <=? x) && (x <? r.2).

(** Modelled from the spec: [x] is a row of the [RowRanges]. *)
Definition contains (rs : t) (x : Z) : bool :=
  existsb (fun r => range_contains r x) rs.

(** [x] is a row of [rs], as a proposition. *)
Definition rows (rs : t) (x : Z) : Prop :=
  exists r, r ∈ rs /\ r.1 <= x < r.2.

(** No interval of [rs] is empty. *)
Definition nonempty (rs : t) : Prop := Forall (fun r => r.1 < r.2) rs.

(** Modelled from the spec: the [RowRanges] a default constructor makes. *)
Definition empty : t := [].

(** Modelled from the spec: [RowRanges::clear]. *)
Definition clear (rs : t) : t := [].

(** Modelled from the spec: insertion of a non-empty interval in the ordered
    set.  Intervals that overlap or touch the new one are merged with it,
    the others keep their place. *)
Fixpoint insert_range (f e : Z) (rs : t) : t :=
  match rs with
  | [] => [(f, e)]
  | (f', e') :: rest =>
      if e <? f' then (f, e) :: rs
      else if e' <? f then (f', e') :: insert_range f e rest
      else insert_range (Z.min f f') (Z.max e e') rest
  end.

(** Modelled from the spec: [RowRanges::add]; an empty interval adds
    nothing. *)
Definition add (r : RowRange) (rs : t) : t :=
  if range_is_empty r then rs else insert_range r.1 r.2 rs.

(** Modelled from the spec: [RowRanges::create_single(from, to)]. *)
Definition create_single (f e : Z) : t := add (f, e) empty.

(** Modelled from the spec: [RowRanges::ranges_union], the intervals of [b]
    added to [a]. *)
Definition ranges_union (a b : t) : t :=
  foldl (fun acc r => add r acc) a b.

(** Modelled from the spec: what two intervals share, if anything. *)
Definition range_intersection (a b : RowRange) : list RowRange :=
  let r := (Z.max a.1 b.1, Z.min a.2 b.2) in
  if range_is_empty r then [] else [r].

(** Modelled from the spec: [RowRanges::ranges_intersection], what each
    interval of [a] shares with each interval of [b]. *)
Definition ranges_intersection (a b : t) : t :=
  flat_map (fun ra => flat_map (fun rb => range_intersection ra rb) b) a.

(** Modelled from the spec: [range_size], [get_range_from] and
    [get_range_to]; outside the ranges the bounds read as 0. *)
Definition range_size (rs : t) : nat := length rs.

(** Modelled from the spec: [RowRanges::get_range_from]. *)
Definition get_range_from (rs : t) (i : nat) : Z := (nth i rs (0, 0)).1.

(** Modelled from the spec: [RowRanges::get_range_to]. *)
Definition get_range_to (rs : t) (i : nat) : Z := (nth i rs (0, 0)).2.

End RowRanges.

(** ** Ordinal index *)

Module OrdinalIndex.

(** Modelled from the spec: [OrdinalIndexReader] and
    [OrdinalPageIndexIterator] are declared in [ordinal_page_index.h], which
    is not part of this file.  The index maps a page index to the first and
    last ordinal of the page; an iterator is a page position, valid while it
    is below the number of pages. [get_first_ordinal] and
    [get_last_ordinal] are only defined by the code for a page index of the
    index; here they answer 0 elsewhere. *)
Record PageOrdinals : Type := {
  first_ordinal : Z;
  last_ordinal : Z
}.

(** Modelled from the spec: the [OrdinalIndexReader], one entry per page. *)
Definition t : Type := list PageOrdinals.

(** Modelled from the spec: the number of pages of the index. *)
Definition num_pages (idx : t) : nat := length idx.

(** Modelled from the spec: [OrdinalIndexReader::get_first_ordinal]. *)
Definition get_first_ordinal (idx : t) (i : nat) : Z :=
  from_option first_ordinal 0 (idx !! i).

(** Modelled from the spec: [OrdinalIndexReader::get_last_ordinal]. *)
Definition get_last_ordinal (idx : t) (i : nat) : Z :=
  from_option last_ordinal 0 (idx !! i).

(** The last ordinals of the index are ordinals: adding one to them does
    not wrap. *)
Definition bounded (idx : t) : Prop :=
  Forall (fun p => 0 <= last_ordinal p < two64 - 1) idx.

(** The last ordinals of the index are below 2^63 - 1: the ordinal after a
    page is the same number as an [int64_t] and as an [ordinal_t]. *)
Definition bounded_int64 (idx : t) : Prop :=
  Forall (fun p => 0 <= last_ordinal p < two63 - 1) idx.

(** The pages of the index follow one another from ordinal [start], and none
    is empty. *)
Fixpoint contiguous (start : Z) (idx : t) : Prop :=
  match idx with
  | [] => True
  | e :: rest =>
      first_ordinal e = start /\ start <= last_ordinal e /\
      contiguous (last_ordinal e + 1) rest
  end.

(** Page [i] of the index holds ordinal [x]. *)
Definition page_holds (idx : t) (i : nat) (x : Z) : Prop :=
  exists e, idx !! i = Some e /\ first_ordinal e <= x <= last_ordinal e.

(** Modelled from the spec: an [OrdinalPageIndexIterator] over [idx], the
    position [_cur_idx]. *)
Definition iterator : Type := nat.

(** Modelled from the spec: [OrdinalIndexReader::begin]. *)
Definition begin (idx : t) : iterator := 0%nat.

(** Modelled from the spec: [OrdinalPageIndexIterator::valid]. *)
Definition valid (idx : t) (it : iterator) : bool :=
  bool_decide (it < num_pages idx)%nat.

(** Modelled from the spec: [OrdinalPageIndexIterator::next]. *)
Definition next (it : iterator) : iterator := S it.

(** Modelled from the spec: [OrdinalPageIndexIterator::page_index]; the page
    pointer [page()] of the iterator is the same number here. *)
Definition page_index (it : iterator) : nat := it.

(** Modelled from the spec: the position, counted from [i], of the last page
    of [l] whose first ordinal is at most [ord]. *)
Fixpoint last_at_or_before (ord : Z) (i : nat) (l : t) : option nat :=
  match l with
  | [] => None
  | p :: rest =>
      match last_at_or_before ord (S i) rest with
      | Some j => Some j
      | None => if first_ordinal p <=? ord then Some i else None
      end
  end.

(** Modelled from the spec: [OrdinalIndexReader::seek_at_or_before], the last
    page that starts at or before [ord]; the end iterator (not valid) when
    there is none. *)
Definition seek_at_or_before (idx : t) (ord : Z) : iterator :=
  default (num_pages idx) (last_at_or_before ord 0 idx).

End OrdinalIndex.

(** ** Cells and decoders *)

(** A decoded value: a number, or the bytes of a string type. *)
Inductive Value : Type :=
  | IntValue (z : Z)
  | SliceValue (s : string).

Global Instance Value_eq_dec : EqDecision Value.
Proof. solve_decision. Defined.

(** A row of a destination block: the null bit, when one was stamped, and the
    data slot, when one was written. *)
Record Cell : Type := {
  null_bit : option bool;
  data : option Value
}.

Global Instance Cell_eq_dec : EqDecision Cell.
Proof. solve_decision. Defined.

(** The row a cell stands for: [None] is NULL. *)
Definition cell_value (c : Cell) : option Value :=
  if bool_decide (null_bit c = Some true) then None else data c.

(** The cells of [run] rows whose data slots take [vals] in order. *)
Definition run_cells (bit : option bool) (run : Z) (vals : list Value) : list Cell :=
  map (fun j => {| null_bit := bit; data := vals !! j |}) (seq 0 (Z.to_nat run)).

Module RleDecoder.

(** Modelled from the spec: [RleDecoder<bool>] is declared in
    [rle_encoding.h], which is not part of this file.  The decoder is a
    cursor in the decoded bits.  [Skip] passes over bits and returns how many
    of them were set; [GetNextRun] returns the maximal run of equal bits at
    the cursor, cut at [max_run], and passes over it. *)
Record t : Type := {
  bits : list bool;
  pos : nat
}.

(** Modelled from the spec: the constructor [RleDecoder<bool>(data, size, 1)],
    a decoder at the start of the bitmap. *)
Definition create (bitmap : list bool) : t := {| bits := bitmap; pos := 0 |}.

(** The number of set bits of [l]. *)
Definition count_set (l : list bool) : nat := length (filter (fun b => b = true) l).

(** Modelled from the spec: [RleDecoder::Skip(n)]; the number of set bits among
    the bits passed, and the decoder after them.  The spec has no skip of
    more bits than the bitmap has left; here such a skip stops at the
    end. *)
Definition Skip (d : t) (n : Z) : Z * t :=
  let skipped := take (Z.to_nat n) (drop (pos d) (bits d)) in
  (Z.of_nat (count_set skipped),
   {| bits := bits d; pos := (pos d + length skipped)%nat |}).

(** The length of the run of [b] that [l] starts with. *)
Fixpoint run_length (b : bool) (l : list bool) : nat :=
  match l with
  | b' :: rest => if bool_decide (b' = b) then S (run_length b rest) else 0%nat
  | [] => 0%nat
  end.

(** Modelled from the spec: [RleDecoder::GetNextRun(&val, max_run)]; the
    length of the run, its bit, and the decoder after it.  At the end of the
    bits the run is of length 0. *)
Definition GetNextRun (d : t) (max_run : Z) : Z * bool * t :=
  match drop (pos d) (bits d) with
  | [] => (0, false, d)
  | b :: rest =>
      let run := run_length b (take (Z.to_nat max_run) (b :: rest)) in
      (Z.of_nat run, b, {| bits := bits d; pos := (pos d + run)%nat |})
  end.

End RleDecoder.

Module PageDecoder.

(** Modelled from the spec: the value decoder of a page ([PageDecoder], whose
    implementations are not part of this file), behind the capability set
    [next_batch], [seek_to_position_in_page], [current_index]; it is a cursor
    in the values of the page.  A decoder of a parsed page does not fail. *)
Record t : Type := {
  values : list Value;
  cur : nat
}.

(** Modelled from the spec: a decoder at the first value of its page. *)
Definition create (vals : list Value) : t := {| values := vals; cur := 0 |}.

(** Modelled from the spec: [PageDecoder::current_index]. *)
Definition current_index (d : t) : Z := Z.of_nat (cur d).

(** Modelled from the spec: [PageDecoder::seek_to_position_in_page]. *)
Definition seek_to_position_in_page (d : t) (pos : Z) : t :=
  {| values := values d; cur := Z.to_nat pos |}.

(** Modelled from the spec: [PageDecoder::next_batch(&n, dst)]; the values
    read, at most [n], whose number is what [n] is on return. *)
Definition next_batch (d : t) (n : Z) : list Value * t :=
  let vals := take (Z.to_nat n) (drop (cur d) (values d)) in
  (vals, {| values := values d; cur := (cur d + length vals)%nat |}).

End PageDecoder.

(** ** ColumnReader *)

Definition deref {A : Type} (p : option A) : Result A :=
  match p with
  | Some a => Ok a
  | None => Fault NullDereference
  end.

(** Modelled from the spec: [WrapperField] is declared in [wrapper_field.h],
    which is not part of this file; the zone-map code creates one per bound and
    then only calls [from_string] and [set_null] on it. *)
Class WrapperFieldOps (W : Type) : Type := {
  create_by_type : FieldType -> Z -> W;
  from_string : W -> string -> W;
  set_null : W -> W
}.

(** Modelled from the spec: the result of [CondColumn::del_eval]. *)
Inductive DelCondSatisfied : Type :=
  | DEL_SATISFIED
  | DEL_NOT_SATISFIED
  | DEL_PARTIAL_SATISFIED.

Global Instance DelCondSatisfied_eq_dec : EqDecision DelCondSatisfied.
Proof. solve_decision. Defined.

(** Modelled from the spec: a bloom filter is only handed to the condition. *)
Definition BloomFilter : Type := list bool.

(** Modelled from the spec: the condition evaluator ([CondColumn], declared in
    [olap_cond.h]) as the core uses it. *)
Record CondColumn (W : Type) : Type := {
  eval : W * W -> bool;
  del_eval : W * W -> DelCondSatisfied;
  eval_bf : BloomFilter -> bool;
  can_do_bloom_filter : bool
}.

Arguments eval {W} _ _.
Arguments del_eval {W} _ _.
Arguments eval_bf {W} _ _.
Arguments can_do_bloom_filter {W} _.

Module ColumnReader.


(** Modelled from the spec: the index kinds of [ColumnIndexMetaPB]; a
    descriptor whose kind is none of the four known ones is
    [UNKNOWN_INDEX_TYPE]. *)
Inductive ColumnIndexTypePB : Type :=
  | UNKNOWN_INDEX_TYPE
  | ORDINAL_INDEX
  | ZONE_MAP_INDEX
  | BITMAP_INDEX
  | BLOOM_FILTER_INDEX.

Global Instance ColumnIndexTypePB_eq_dec : EqDecision ColumnIndexTypePB.
Proof. solve_decision. Defined.

(** What [init] reads of [ColumnMetaPB] and of the registries it consults.
    [get_type_info], [EncodingInfo::get] and [get_block_compression_codec]
    live outside this file: their answers for this column are fields. *)
Record ColumnMetaPB : Type := {
  type : FieldType;
  column_id : Z;
  indexes : list ColumnIndexTypePB;
  type_info_found : bool;          (* get_type_info(&_meta) != nullptr *)
  encoding_info : Status;          (* EncodingInfo::get(...) *)
  compression_codec : Status       (* get_block_compression_codec(...) *)
}.

(** The four metadata pointers.  [_ordinal_index_meta = &index_meta.ordinal_index()]
    points into the [i]-th descriptor of the list: the pointer is the
    position [i], [nullptr] is [None]. *)
Record IndexMetas : Type := {
  _ordinal_index_meta : option nat;
  _zone_map_index_meta : option nat;
  _bitmap_index_meta : option nat;
  _bf_index_meta : option nat
}.

Definition no_index_meta : IndexMetas :=
  {| _ordinal_index_meta := None; _zone_map_index_meta := None;
     _bitmap_index_meta := None; _bf_index_meta := None |}.

(** One iteration of [for (int i = 0; i < _meta.indexes_size(); i++)]. *)
Definition record_index (i : nat) (t : ColumnIndexTypePB) (m : IndexMetas)
  : Result IndexMetas :=
  match t with
  | ORDINAL_INDEX =>
      Ok {| _ordinal_index_meta := Some i;
            _zone_map_index_meta := _zone_map_index_meta m;
            _bitmap_index_meta := _bitmap_index_meta m;
            _bf_index_meta := _bf_index_meta m |}
  | ZONE_MAP_INDEX =>
      Ok {| _ordinal_index_meta := _ordinal_index_meta m;
            _zone_map_index_meta := Some i;
            _bitmap_index_meta := _bitmap_index_meta m;
            _bf_index_meta := _bf_index_meta m |}
  | BITMAP_INDEX =>
      Ok {| _ordinal_index_meta := _ordinal_index_meta m;
            _zone_map_index_meta := _zone_map_index_meta m;
            _bitmap_index_meta := Some i;
            _bf_index_meta := _bf_index_meta m |}
  | BLOOM_FILTER_INDEX =>
      Ok {| _ordinal_index_meta := _ordinal_index_meta m;
            _zone_map_index_meta := _zone_map_index_meta m;
            _bitmap_index_meta := _bitmap_index_meta m;
            _bf_index_meta := Some i |}
  | UNKNOWN_INDEX_TYPE => Error Corruption
  end.

Fixpoint scan_indexes (i : nat) (l : list ColumnIndexTypePB) (m : IndexMetas)
  : Result IndexMetas :=
  match l with
  | [] => Ok m
  | t :: rest => m' ← record_index i t m; scan_indexes (S i) rest m'
  end.

(** Modelled from the spec: [ColumnReader::is_empty], declared in the header;
    a column is empty when it has zero rows. *)
Definition is_empty (num_rows : Z) : bool := num_rows =? 0.

Definition init (meta : ColumnMetaPB) (num_rows : Z) : Result IndexMetas :=
  if negb (type_info_found meta) then Error NotSupported
  else
    _ ← encoding_info meta;
    _ ← compression_codec meta;
    m ← scan_indexes 0 (indexes meta) no_index_meta;
    if bool_decide (_ordinal_index_meta m = None) && negb (is_empty num_rows)
    then Error Corruption
    else Ok m.

(** The pointer [init] keeps for a kind. *)
Definition meta_of (t : ColumnIndexTypePB) (m : IndexMetas) : option nat :=
  match t with
  | ORDINAL_INDEX => _ordinal_index_meta m
  | ZONE_MAP_INDEX => _zone_map_index_meta m
  | BITMAP_INDEX => _bitmap_index_meta m
  | BLOOM_FILTER_INDEX => _bf_index_meta m
  | UNKNOWN_INDEX_TYPE => None
  end.

(** Position of the last descriptor of kind [t] in the list, counted from
    [i]. *)
Fixpoint last_of_kind (t : ColumnIndexTypePB) (i : nat)
    (l : list ColumnIndexTypePB) : option nat :=
  match l with
  | [] => None
  | t' :: rest =>
      match last_of_kind t (S i) rest with
      | Some j => Some j
      | None => if bool_decide (t' = t) then Some i else None
      end
  end.


(** *** Zone maps *)

(** The fields of the [ZoneMapPB] message that the reader looks at. *)
Record ZoneMapPB : Type := {
  min : string;
  max : string;
  has_null : bool;
  has_not_null : bool;
  pass_all : bool
}.

(** Modelled from the spec: [BloomFilterIndexReader] with the status of
    [new_iterator] and what [read_bloom_filter] answers per page; a page the
    index does not have is not found. *)
Record BloomFilterIndexReader : Type := {
  new_iterator_status : Status;
  bloom_filters : list (Result BloomFilter)
}.

(** Modelled from the spec: [BloomFilterIndexIterator::read_bloom_filter]. *)
Definition read_bloom_filter (bf : BloomFilterIndexReader) (pid : nat)
  : Result BloomFilter :=
  default (Error NotFound) (bloom_filters bf !! pid).

(** *** Pages *)

Inductive EncodingTypePB : Type :=
  | PLAIN_ENCODING
  | RLE
  | BIT_SHUFFLE
  | DICT_ENCODING.

Global Instance EncodingTypePB_eq_dec : EqDecision EncodingTypePB.
Proof. solve_decision. Defined.

(** Modelled from the spec: what [PageIO::read_and_decompress_page] and
    [ParsedPage::create] find in a data page: the ordinal range of the
    footer, the null bitmap (one bit per row, set for a null row; the file
    holds it run-length encoded) and the encoded values, which are those of
    the rows that are not null. *)
Record DataPage : Type := {
  dp_first_ordinal : Z;
  dp_num_values : Z;
  dp_has_null : bool;              (* footer.nullmap_size() > 0 *)
  dp_null_bitmap : list bool;
  dp_values : list Value;
  dp_is_dict_encoding : bool       (* BinaryDictPageDecoder::is_dict_encoding() *)
}.

(** The reader once [_ensure_index_loaded] has run.  Modelled from the spec,
    that function is declared in the header and is idempotent: its status is
    a field, and the index readers are the pointers it leaves ([None] is
    [nullptr]). *)
Record t : Type := {
  _num_rows : Z;
  _type : FieldType;
  _length : Z;
  index_metas : IndexMetas;
  _ensure_index_loaded : Status;
  _ordinal_index : option OrdinalIndex.t;
  _zone_map_index : option (list ZoneMapPB);
  segment_zone_map : ZoneMapPB;
  _bloom_filter_index : option BloomFilterIndexReader;
  _encoding : EncodingTypePB;
  data_pages : list (Result DataPage);
  dict_page : Status
}.

(** Modelled from the spec: [ColumnReader::has_zone_map], declared in the
    header; the reader has a zone map when it has the metadata of one. *)
Definition has_zone_map (r : t) : bool :=
  bool_decide (_zone_map_index_meta (index_metas r) <> None).

(** Modelled from the spec: [ColumnReader::has_bloom_filter_index], declared
    in the header. *)
Definition has_bloom_filter_index (r : t) : bool :=
  bool_decide (_bf_index_meta (index_metas r) <> None).

(** A call of the condition evaluator, for the log of calls. *)
Inductive EvalCall : Type :=
  | CondEval
  | DelEval.

Section ZoneMap.
Context {W : Type} `{WrapperFieldOps W}.

Definition _parse_zone_map (zone_map : ZoneMapPB)
    (min_value_container max_value_container : W) : W * W :=
  let '(mn, mx) :=
    if has_not_null zone_map
    then (from_string min_value_container (min zone_map),
          from_string max_value_container (max zone_map))
    else (min_value_container, max_value_container) in
  if has_null zone_map
  then (set_null mn, if negb (has_not_null zone_map) then set_null mx else mx)
  else (mn, mx).

(** The answer and the calls of [cond->eval] made for it. *)
Definition _zone_map_match_condition (zone_map : ZoneMapPB)
    (min_value_container max_value_container : W)
    (cond : option (CondColumn W)) : bool * list EvalCall :=
  if negb (has_not_null zone_map) && negb (has_null zone_map)
  then (false, [])
  else
    match cond with
    | None => (true, [])
    | Some c =>
        if pass_all zone_map then (true, [])
        else (eval c (min_value_container, max_value_container), [CondEval])
    end.

Definition match_condition (r : t) (cond : option (CondColumn W)) : bool :=
  if bool_decide (_zone_map_index_meta (index_metas r) = None)
     || bool_decide (cond = None)
  then true
  else
    let min_value := create_by_type (_type r) (_length r) in
    let max_value := create_by_type (_type r) (_length r) in
    let '(mn, mx) := _parse_zone_map (segment_zone_map r) min_value max_value in
    (_zone_map_match_condition (segment_zone_map r) mn mx cond).1.

(** The state of the loop of [_get_filtered_pages]: the vector being
    filled, the two containers, which every iteration parses into, and
    the log of the calls of the evaluator, each with its page. *)
Record FilterState : Type := {
  page_indexes : list nat;
  min_value : W;
  max_value : W;
  eval_log : list (nat * EvalCall)
}.

Definition filter_page (cond_column delete_condition : option (CondColumn W))
    (i : nat) (zm : ZoneMapPB) (st : FilterState) : FilterState :=
  if pass_all zm then
    {| page_indexes := page_indexes st ++ [i];
       min_value := min_value st; max_value := max_value st;
       eval_log := eval_log st |}
  else
    let '(mn, mx) := _parse_zone_map zm (min_value st) (max_value st) in
    let '(matched, calls) := _zone_map_match_condition zm mn mx cond_column in
    let log1 := eval_log st ++ map (pair i) calls in
    if matched then
      let '(should_read, log2) :=
        match delete_condition with
        | Some d =>
            (negb (bool_decide (del_eval d (mn, mx) = DEL_SATISFIED)),
             log1 ++ [(i, DelEval)])
        | None => (true, log1)
        end in
      {| page_indexes :=
           if should_read then page_indexes st ++ [i] else page_indexes st;
         min_value := mn; max_value := mx; eval_log := log2 |}
    else
      {| page_indexes := page_indexes st;
         min_value := mn; max_value := mx; eval_log := log1 |}.

(** [for (int32_t i = 0; i < page_size; ++i)] over [zone_maps], from
    page [i]. *)
Fixpoint filter_pages_from (cond_column delete_condition : option (CondColumn W))
    (i : nat) (zone_maps : list ZoneMapPB) (st : FilterState) : FilterState :=
  match zone_maps with
  | [] => st
  | zm :: rest =>
      filter_pages_from cond_column delete_condition (S i) rest
        (filter_page cond_column delete_condition i zm st)
  end.

Definition _get_filtered_pages (r : t)
    (cond_column delete_condition : option (CondColumn W))
    (page_indexes0 : list nat) : Result FilterState :=
  zone_maps ← deref (_zone_map_index r);
  Ok (filter_pages_from cond_column delete_condition 0 zone_maps
        {| page_indexes := page_indexes0;
           min_value := create_by_type (_type r) (_length r);
           max_value := create_by_type (_type r) (_length r);
           eval_log := [] |}).

(** The acceptance of a page in the words of the specification: the page
    passes all, or its zone is not empty, the condition (when there is
    one) matches the two bounds and the delete condition (when there is
    one) is not satisfied by all of them. *)
Definition page_accepted (cond_column delete_condition : option (CondColumn W))
    (zm : ZoneMapPB) (bounds : W * W) : bool :=
  pass_all zm ||
  ((has_not_null zm || has_null zm)
   && match cond_column with
      | None => true
      | Some c => eval c bounds
      end
   && match delete_condition with
      | None => true
      | Some d => negb (bool_decide (del_eval d bounds = DEL_SATISFIED))
      end).

(** The two containers as a page finds them: each earlier page that does
    not pass all was parsed into them. *)
Definition parse_step (bounds : W * W) (zm : ZoneMapPB) : W * W :=
  if pass_all zm then bounds else _parse_zone_map zm bounds.1 bounds.2.

Definition bounds_before (zone_maps : list ZoneMapPB) (i : nat) (bounds0 : W * W)
  : W * W :=
  foldl parse_step bounds0 (take i zone_maps).

(** The bounds [{min, max}] of page [i]: its zone map parsed into the
    containers. *)
Definition page_bounds (zone_maps : list ZoneMapPB) (i : nat) (bounds0 : W * W)
    (zm : ZoneMapPB) : W * W :=
  _parse_zone_map zm (bounds_before zone_maps i bounds0).1
                     (bounds_before zone_maps i bounds0).2.

(** [for (auto i : page_indexes)] of [_calculate_row_ranges]. *)
Fixpoint calculate_loop (r : t) (page_indexes : list nat)
    (row_ranges : RowRanges.t) : Result RowRanges.t :=
  match page_indexes with
  | [] => Ok row_ranges
  | i :: rest =>
      idx ← deref (_ordinal_index r);
      let page_first_id := OrdinalIndex.get_first_ordinal idx i in
      let page_last_id := OrdinalIndex.get_last_ordinal idx i in
      let page_row_ranges :=
        RowRanges.create_single page_first_id (u64_add page_last_id 1) in
      calculate_loop r rest (RowRanges.ranges_union row_ranges page_row_ranges)
  end.

Definition _calculate_row_ranges (r : t) (page_indexes : list nat)
    (row_ranges : RowRanges.t) : Result RowRanges.t :=
  calculate_loop r page_indexes (RowRanges.clear row_ranges).

Definition get_row_ranges_by_zone_map (r : t)
    (cond_column delete_condition : option (CondColumn W))
    (row_ranges : RowRanges.t) : Result RowRanges.t :=
  _ ← _ensure_index_loaded r;
  st ← _get_filtered_pages r cond_column delete_condition [];
  _calculate_row_ranges r (page_indexes st) row_ranges.

(** *** Bloom filters *)

(** [std::set<uint32_t>::insert]: the set is the strictly ascending list
    of its elements, the order in which it is iterated. *)
Fixpoint set_insert (x : nat) (s : list nat) : list nat :=
  match s with
  | [] => [x]
  | y :: rest =>
      if bool_decide (x < y)%nat then x :: s
      else if bool_decide (x = y) then s
      else y :: set_insert x rest
  end.

(** [while (idx < to && iter.valid())]: [pages] is what the iterator,
    at position [cur], still has before it; it is valid while that is
    not empty.  [idx] and [to] are [int64_t]:
    [idx = iter.last_ordinal() + 1] adds in [ordinal_t] and converts. *)
Fixpoint cover_loop (to idx : Z) (cur : nat) (pages : OrdinalIndex.t)
    (page_ids : list nat) : list nat :=
  match pages with
  | [] => page_ids
  | p :: rest =>
      if idx <? to
      then cover_loop to (to_int64 (u64_add (OrdinalIndex.last_ordinal p) 1))
             (OrdinalIndex.next cur) rest
             (set_insert (OrdinalIndex.page_index cur) page_ids)
      else page_ids
  end.

(** [for (int i = 0; i < range_size; ++i)]: the ranges from the [i]-th
    on.  [from] is an [int64_t]; [seek_at_or_before(from)] takes it as an
    [ordinal_t]. *)
Fixpoint cover_ranges (r : t) (row_ranges : RowRanges.t) (i : nat) (n : nat)
    (page_ids : list nat) : Result (list nat) :=
  match n with
  | O => Ok page_ids
  | S n' =>
      let from := RowRanges.get_range_from row_ranges i in
      let to := RowRanges.get_range_to row_ranges i in
      idx ← deref (_ordinal_index r);
      let iter := OrdinalIndex.seek_at_or_before idx (wrap64 from) in
      cover_ranges r row_ranges (S i) n'
        (cover_loop to from iter (drop iter idx) page_ids)
  end.

(** [for (auto& pid : page_ids)]. *)
Fixpoint bloom_loop (r : t) (bf_index : BloomFilterIndexReader)
    (cond_column : option (CondColumn W)) (page_ids : list nat)
    (bf_row_ranges : RowRanges.t) : Result RowRanges.t :=
  match page_ids with
  | [] => Ok bf_row_ranges
  | pid :: rest =>
      bf ← read_bloom_filter bf_index pid;
      c ← deref cond_column;
      bf_row_ranges' ←
        (if eval_bf c bf
         then idx ← deref (_ordinal_index r);
              Ok (RowRanges.add
                    (OrdinalIndex.get_first_ordinal idx pid,
                     u64_add (OrdinalIndex.get_last_ordinal idx pid) 1)
                    bf_row_ranges)
         else Ok bf_row_ranges);
      bloom_loop r bf_index cond_column rest bf_row_ranges'
  end.

Definition get_row_ranges_by_bloom_filter (r : t)
    (cond_column : option (CondColumn W)) (row_ranges : RowRanges.t)
  : Result RowRanges.t :=
  _ ← _ensure_index_loaded r;
  bf_index ← deref (_bloom_filter_index r);
  _ ← new_iterator_status bf_index;
  let range_size := RowRanges.range_size row_ranges in
  page_ids ← cover_ranges r row_ranges 0 range_size [];
  bf_row_ranges ← bloom_loop r bf_index cond_column page_ids RowRanges.empty;
  Ok (RowRanges.ranges_intersection row_ranges bf_row_ranges).

End ZoneMap.

(** *** Pages and seeks *)

(** [read_page] hands the request to the page I/O layer; what that layer
    answers for each page pointer is [data_pages] (a pointer is the page
    index here).  A pointer outside the file is a corrupt read. *)
Definition read_page (r : t) (pp : nat) : Result DataPage :=
  default (Error Corruption) (data_pages r !! pp).

Definition seek_to_first (r : t) : Result OrdinalIndex.iterator :=
  _ ← _ensure_index_loaded r;
  idx ← deref (_ordinal_index r);
  let iter := OrdinalIndex.begin idx in
  if negb (OrdinalIndex.valid idx iter) then Error NotFound else Ok iter.

Definition seek_at_or_before (r : t) (ordinal : Z) : Result OrdinalIndex.iterator :=
  _ ← _ensure_index_loaded r;
  idx ← deref (_ordinal_index r);
  let iter := OrdinalIndex.seek_at_or_before idx ordinal in
  if negb (OrdinalIndex.valid idx iter) then Error NotFound else Ok iter.

End ColumnReader.

(** ** ParsedPage *)

Module ParsedPage.

(** Modelled from the spec: [ParsedPage] is declared in [parsed_page.h],
    which is not part of this file.  [create] leaves both decoders at the
    start of the page, [offset_in_page] at 0. *)
Record t : Type := {
  first_ordinal : Z;
  num_rows : Z;
  offset_in_page : Z;
  data_decoder : PageDecoder.t;
  has_null : bool;
  null_bitmap : list bool;
  null_decoder : RleDecoder.t;
  page_index : nat
}.

(** Modelled from the spec: [ParsedPage::create], the parsed view of a page
    that was read. *)
Definition create (dp : ColumnReader.DataPage) (page_index : nat) : t :=
  {| first_ordinal := ColumnReader.dp_first_ordinal dp;
     num_rows := ColumnReader.dp_num_values dp;
     offset_in_page := 0;
     data_decoder := PageDecoder.create (ColumnReader.dp_values dp);
     has_null := ColumnReader.dp_has_null dp;
     null_bitmap := ColumnReader.dp_null_bitmap dp;
     null_decoder := RleDecoder.create (ColumnReader.dp_null_bitmap dp);
     page_index := page_index |}.

(** Modelled from the spec: [ParsedPage::contains], [ord] is an ordinal of
    the page. *)
Definition contains (p : t) (ord : Z) : bool :=
  (first_ordinal p <=? ord) && (ord <? u64_add (first_ordinal p) (num_rows p)).

(** Modelled from the spec: [ParsedPage::has_remaining]; the page is
    exhausted when [offset_in_page] is [num_rows]. *)
Definition has_remaining (p : t) : bool := offset_in_page p <? num_rows p.

(** Modelled from the spec: [ParsedPage::remaining], the rows left. *)
Definition remaining (p : t) : Z := u64_sub (num_rows p) (offset_in_page p).

End ParsedPage.

(** ** Destination blocks *)

(** Modelled from the spec: a [ColumnBlockView], declared in [column_block.h].
    The rows written so far are before the cursor; [type_size] is the size of
    a value of its type. *)
Record ColumnBlockView : Type := {
  is_nullable : bool;
  type_size : Z;
  cells : list Cell
}.

(** Modelled from the spec: rows written at the cursor of the view, which
    [advance] then passes. *)
Definition block_write (dst : ColumnBlockView) (new_cells : list Cell) : ColumnBlockView :=
  {| is_nullable := is_nullable dst; type_size := type_size dst;
     cells := cells dst ++ new_cells |}.

(** Modelled from the spec: [BitmapSize], the bytes of a bitmap of [n] bits. *)
Definition BitmapSize (n : Z) : Z := (n + 7) / 8.

(** ** FileColumnIterator *)

Module FileColumnIterator.

(** A page read issued to the reader, for the log of reads. *)
Inductive PageRead : Type :=
  | DataPageRead (page_index : nat)
  | DictPageRead.

Global Instance PageRead_eq_dec : EqDecision PageRead.
Proof. solve_decision. Defined.

(** [_page] is [None] until a page was parsed into it; [_page_iter] is
    [None] while it is the default-constructed iterator, which has no index.
    [bytes_read] is the counter of [_opts.stats]; [page_reads] logs the calls
    of [read_page]. *)
Record t : Type := {
  _reader : ColumnReader.t;
  _page : option ParsedPage.t;
  _page_iter : option OrdinalIndex.iterator;
  _current_ordinal : Z;
  _dict_decoder : bool;
  bytes_read : Z;
  page_reads : list PageRead
}.

Definition new_iterator (reader : ColumnReader.t) : t :=
  {| _reader := reader; _page := None; _page_iter := None;
     _current_ordinal := 0; _dict_decoder := false;
     bytes_read := 0; page_reads := [] |}.

Definition set_page (it : t) (p : ParsedPage.t) : t :=
  {| _reader := _reader it; _page := Some p; _page_iter := _page_iter it;
     _current_ordinal := _current_ordinal it; _dict_decoder := _dict_decoder it;
     bytes_read := bytes_read it; page_reads := page_reads it |}.

Definition set_page_iter (it : t) (iter : OrdinalIndex.iterator) : t :=
  {| _reader := _reader it; _page := _page it; _page_iter := Some iter;
     _current_ordinal := _current_ordinal it; _dict_decoder := _dict_decoder it;
     bytes_read := bytes_read it; page_reads := page_reads it |}.

Definition set_current_ordinal (it : t) (ord : Z) : t :=
  {| _reader := _reader it; _page := _page it; _page_iter := _page_iter it;
     _current_ordinal := ord; _dict_decoder := _dict_decoder it;
     bytes_read := bytes_read it; page_reads := page_reads it |}.

Definition _read_data_page (it : t) (iter : OrdinalIndex.iterator) : Result t :=
  dp ← ColumnReader.read_page (_reader it) (OrdinalIndex.page_index iter);
  let page := ParsedPage.create dp (OrdinalIndex.page_index iter) in
  let reads := page_reads it ++ [DataPageRead (OrdinalIndex.page_index iter)] in
  if bool_decide (ColumnReader._encoding (_reader it) = ColumnReader.DICT_ENCODING)
     && ColumnReader.dp_is_dict_encoding dp
     && negb (_dict_decoder it)
  then
    _ ← ColumnReader.dict_page (_reader it);
    Ok {| _reader := _reader it; _page := Some page; _page_iter := _page_iter it;
          _current_ordinal := _current_ordinal it; _dict_decoder := true;
          bytes_read := bytes_read it; page_reads := reads ++ [DictPageRead] |}
  else
    Ok {| _reader := _reader it; _page := Some page; _page_iter := _page_iter it;
          _current_ordinal := _current_ordinal it; _dict_decoder := _dict_decoder it;
          bytes_read := bytes_read it; page_reads := reads |}.

Definition _seek_to_pos_in_page (page : ParsedPage.t) (offset_in_page : Z)
  : ParsedPage.t :=
  if ParsedPage.offset_in_page page =? offset_in_page then page
  else
    let '(pos_in_data, null_decoder) :=
      if ParsedPage.has_null page then
        let '(skips, offset_in_data, decoder) :=
          if offset_in_page >? ParsedPage.offset_in_page page
          then (u64_sub offset_in_page (ParsedPage.offset_in_page page),
                PageDecoder.current_index (ParsedPage.data_decoder page),
                ParsedPage.null_decoder page)
          else (offset_in_page, 0, RleDecoder.create (ParsedPage.null_bitmap page)) in
        let '(skip_nulls, decoder') := RleDecoder.Skip decoder skips in
        (u64_sub (u64_add offset_in_data skips) skip_nulls, decoder')
      else (offset_in_page, ParsedPage.null_decoder page) in
    {| ParsedPage.first_ordinal := ParsedPage.first_ordinal page;
       ParsedPage.num_rows := ParsedPage.num_rows page;
       ParsedPage.offset_in_page := offset_in_page;
       ParsedPage.data_decoder :=
         PageDecoder.seek_to_position_in_page (ParsedPage.data_decoder page) pos_in_data;
       ParsedPage.has_null := ParsedPage.has_null page;
       ParsedPage.null_bitmap := ParsedPage.null_bitmap page;
       ParsedPage.null_decoder := null_decoder;
       ParsedPage.page_index := ParsedPage.page_index page |}.

(** [_page_iter.valid()]. *)
Definition page_iter_valid (it : t) : Result bool :=
  iter ← deref (_page_iter it);
  idx ← deref (ColumnReader._ordinal_index (_reader it));
  Ok (OrdinalIndex.valid idx iter).

Definition seek_to_first (it : t) : Result t :=
  iter ← ColumnReader.seek_to_first (_reader it);
  it1 ← _read_data_page (set_page_iter it iter) iter;
  page ← deref (_page it1);
  Ok (set_current_ordinal (set_page it1 (_seek_to_pos_in_page page 0)) 0).

(** [!_page || !_page.contains(ord) || !_page_iter.valid()]. *)
Definition must_seek (it : t) (ord : Z) : Result bool :=
  match _page it with
  | None => Ok true
  | Some page =>
      if negb (ParsedPage.contains page ord) then Ok true
      else v ← page_iter_valid it; Ok (negb v)
  end.

Definition seek_to_ordinal (it : t) (ord : Z) : Result t :=
  seek ← must_seek it ord;
  it1 ← (if seek : bool
         then iter ← ColumnReader.seek_at_or_before (_reader it) ord;
              _read_data_page (set_page_iter it iter) iter
         else Ok it);
  page ← deref (_page it1);
  Ok (set_current_ordinal
        (set_page it1
           (_seek_to_pos_in_page page (u64_sub ord (ParsedPage.first_ordinal page))))
        ord).

(** [seek_to_ordinal(_page.first_ordinal)]; [_page] is a member, read also
    when it holds no page.  Modelled from the spec: the [first_ordinal] of a
    [ParsedPage] that holds no page is declared in [parsed_page.h], and is
    0. *)
Definition seek_to_page_start (it : t) : Result t :=
  seek_to_ordinal it (from_option ParsedPage.first_ordinal 0 (_page it)).

(** [_load_next_page(&eos)]: the iterator and [eos]. *)
Definition _load_next_page (it : t) : Result (t * bool) :=
  iter ← deref (_page_iter it);
  let it1 := set_page_iter it (OrdinalIndex.next iter) in
  v ← page_iter_valid it1;
  if negb v then Ok (it1, true)
  else
    it2 ← _read_data_page it1 (OrdinalIndex.next iter);
    page ← deref (_page it2);
    Ok (set_page it2 (_seek_to_pos_in_page page 0), false).

(** The state of the loops of [next_batch]. *)
Record BatchState : Type := {
  page : ParsedPage.t;
  dst : ColumnBlockView;
  current_ordinal : Z;
  has_null : bool
}.

(** [while (nrows_to_read > 0)], the loop over the runs of the null bitmap.
    A loop is run for at most [fuel] iterations; [None] is a loop that
    needs more. *)
Fixpoint read_runs (fuel : nat) (nrows_to_read : Z) (st : BatchState)
  : option BatchState :=
  if nrows_to_read >? 0 then
    match fuel with
    | O => None
    | S fuel' =>
        let '(this_run, is_null, null_decoder) :=
          RleDecoder.GetNextRun (ParsedPage.null_decoder (page st)) nrows_to_read in
        let '(vals, data_decoder) :=
          if negb is_null
          then PageDecoder.next_batch (ParsedPage.data_decoder (page st)) this_run
          else ([], ParsedPage.data_decoder (page st)) in
        read_runs fuel' (u64_sub nrows_to_read this_run)
          {| page :=
               {| ParsedPage.first_ordinal := ParsedPage.first_ordinal (page st);
                  ParsedPage.num_rows := ParsedPage.num_rows (page st);
                  ParsedPage.offset_in_page :=
                    u64_add (ParsedPage.offset_in_page (page st)) this_run;
                  ParsedPage.data_decoder := data_decoder;
                  ParsedPage.has_null := ParsedPage.has_null (page st);
                  ParsedPage.null_bitmap := ParsedPage.null_bitmap (page st);
                  ParsedPage.null_decoder := null_decoder;
                  ParsedPage.page_index := ParsedPage.page_index (page st) |};
             dst := block_write (dst st) (run_cells (Some is_null) this_run vals);
             current_ordinal := u64_add (current_ordinal st) this_run;
             has_null := has_null st || is_null |}
    end
  else Some st.

(** The branch of a page without nulls. *)
Definition read_plain (nrows_to_read : Z) (st : BatchState) : BatchState :=
  let '(vals, data_decoder) :=
    PageDecoder.next_batch (ParsedPage.data_decoder (page st)) nrows_to_read in
  let nrows_to_read := Z.of_nat (length vals) in
  {| page :=
       {| ParsedPage.first_ordinal := ParsedPage.first_ordinal (page st);
          ParsedPage.num_rows := ParsedPage.num_rows (page st);
          ParsedPage.offset_in_page :=
            u64_add (ParsedPage.offset_in_page (page st)) nrows_to_read;
          ParsedPage.data_decoder := data_decoder;
          ParsedPage.has_null := ParsedPage.has_null (page st);
          ParsedPage.null_bitmap := ParsedPage.null_bitmap (page st);
          ParsedPage.null_decoder := ParsedPage.null_decoder (page st);
          ParsedPage.page_index := ParsedPage.page_index (page st) |};
     dst := block_write (dst st)
              (run_cells (if is_nullable (dst st) then Some false else None)
                 nrows_to_read vals);
     current_ordinal := u64_add (current_ordinal st) nrows_to_read;
     has_null := has_null st |}.

(** What a call of [next_batch] returns: the iterator, [*n], the block and
    [*has_null]. *)
Record Batch : Type := {
  iter : t;
  n : Z;
  block : ColumnBlockView;
  batch_has_null : bool
}.

(** [while (remaining > 0)]; the result is the iterator, what is left of
    [remaining], the block and [*has_null]. *)
Fixpoint batch_loop (fuel : nat) (it : t) (remaining : Z) (dst : ColumnBlockView)
    (has_null : bool) : option (Result Batch) :=
  if remaining >? 0 then
    match fuel with
    | O => None
    | S fuel' =>
        let loaded :=
          if from_option ParsedPage.has_remaining false (_page it)
          then Ok (it, false)
          else _load_next_page it in
        match loaded with
        | Error c => Some (Error c)
        | Fault f => Some (Fault f)
        | Ok (it1, true) =>
            Some (Ok {| iter := it1; n := remaining; block := dst;
                        batch_has_null := has_null |})
        | Ok (it1, false) =>
            match _page it1 with
            | None => Some (Fault NullDereference)
            | Some page =>
                let nrows_in_page := Z.min remaining (ParsedPage.remaining page) in
                let st := {| page := page; dst := dst;
                             current_ordinal := _current_ordinal it1;
                             has_null := has_null |} in
                match (if ParsedPage.has_null page
                       then read_runs fuel nrows_in_page st
                       else Some (read_plain nrows_in_page st)) with
                | None => None
                | Some st' =>
                    batch_loop fuel'
                      (set_current_ordinal (set_page it1 (FileColumnIterator.page st'))
                         (current_ordinal st'))
                      (u64_sub remaining nrows_in_page)
                      (FileColumnIterator.dst st') (FileColumnIterator.has_null st')
                end
            end
        end
    end
  else Some (Ok {| iter := it; n := remaining; block := dst;
                   batch_has_null := has_null |}).

Definition next_batch (fuel : nat) (it : t) (n : Z) (dst : ColumnBlockView)
  : option (Result Batch) :=
  match batch_loop fuel it n dst false with
  | Some (Ok b) =>
      let remaining := FileColumnIterator.n b in
      let n' := u64_sub n remaining in
      let it' := iter b in
      Some (Ok {| iter :=
                    {| _reader := _reader it'; _page := _page it';
                       _page_iter := _page_iter it';
                       _current_ordinal := _current_ordinal it';
                       _dict_decoder := _dict_decoder it';
                       bytes_read :=
                         bytes_read it' + (n' * type_size dst + BitmapSize n');
                       page_reads := page_reads it' |};
                  n := n'; block := block b; batch_has_null := batch_has_null b |})
  | other => other
  end.

Section Pushdown.
Context {W : Type} `{WrapperFieldOps W}.

Definition get_row_ranges_by_zone_map (it : t)
    (cond_column delete_condition : option (CondColumn W))
    (row_ranges : RowRanges.t) : Result RowRanges.t :=
  if ColumnReader.has_zone_map (_reader it)
  then ColumnReader.get_row_ranges_by_zone_map (_reader it) cond_column
         delete_condition row_ranges
  else Ok row_ranges.

Definition get_row_ranges_by_bloom_filter (it : t)
    (cond_column : option (CondColumn W)) (row_ranges : RowRanges.t)
  : Result RowRanges.t :=
  match cond_column with
  | Some c =>
      if can_do_bloom_filter c && ColumnReader.has_bloom_filter_index (_reader it)
      then ColumnReader.get_row_ranges_by_bloom_filter (_reader it) cond_column
             row_ranges
      else Ok row_ranges
  | None => Ok row_ranges
  end.

End Pushdown.

End FileColumnIterator.

(** ** ArrayFileColumnIterator *)

Module ArrayFileColumnIterator.

(** What a call of [next_batch] on a child iterator leaves: the status, the
    child, the rows it wrote at the cursor of its view (their number is [*n]
    on return) and [*has_null]. *)
Record ChildBatch (I : Type) : Type := {
  child_status : Status;
  child_iter : I;
  child_cells : list Cell;
  child_has_null : bool
}.

Arguments child_status {I} _.
Arguments child_iter {I} _.
Arguments child_cells {I} _.
Arguments child_has_null {I} _.

(** The [ColumnIterator] interface, as the array iterator uses it. *)
Class ColumnIterator (I : Type) : Type := {
  child_next_batch : I -> Z -> ChildBatch I
}.

(** Modelled from the spec: [ArrayColumnVectorBatch] is declared in
    [column_vector.h], which is not part of this file.  Entry [i] of
    [offsets] is where the items of array [i] start; lengths read into the
    entries after a base are turned into offsets by [get_offset_by_length].
    [prepared] logs the calls of [prepare_for_read]. *)
Record ArrayColumnVectorBatch : Type := {
  offsets : list Z;
  null_signs : list Z;
  elements : list Cell;
  elements_capacity : Z;
  prepared : list (Z * Z * bool)
}.

Record ArrayBlockView : Type := {
  array_batch : ArrayColumnVectorBatch;
  current_offset : Z;
  view_is_nullable : bool
}.

(** A write of [new] at position [pos] of a vector. *)
Definition write_at {A : Type} (pos : Z) (new : list A) (l : list A) : list A :=
  take (Z.to_nat pos) l ++ new ++ drop (Z.to_nat pos + length new) l.

Definition cell_number (c : Cell) : Z :=
  match data c with
  | Some (IntValue z) => z
  | _ => 0
  end.

(** Modelled from the spec: [ArrayColumnVectorBatch::item_offset]. *)
Definition item_offset (offsets : list Z) (i : Z) : Z :=
  default 0 (offsets !! Z.to_nat i).

(** Modelled from the spec: [ArrayColumnVectorBatch::get_offset_by_length];
    each of the [size] entries after [start_idx] holds a length and becomes
    the entry before it plus that length. *)
Fixpoint get_offset_by_length (offsets : list Z) (start_idx : nat) (size : nat)
  : list Z :=
  match size with
  | O => offsets
  | S size' =>
      let o := u64_add (default 0 (offsets !! start_idx))
                       (default 0 (offsets !! S start_idx)) in
      get_offset_by_length (<[S start_idx := o]> offsets) (S start_idx) size'
  end.

(** Modelled from the spec: [ArrayColumnVectorBatch::get_item_size], the
    number of items of [size] arrays from [start_idx]. *)
Definition get_item_size (offsets : list Z) (start_idx size : Z) : Z :=
  u64_sub (item_offset offsets (start_idx + size)) (item_offset offsets start_idx).

Record t (L I N : Type) : Type := {
  is_nullable_array : bool;          (* _array_reader->is_nullable() *)
  _length_iterator : L;
  _item_iterator : I;
  _null_iterator : option N
}.

Arguments is_nullable_array {L I N} _.
Arguments _length_iterator {L I N} _.
Arguments _item_iterator {L I N} _.
Arguments _null_iterator {L I N} _.

(** What [next_batch] returns with an OK status. *)
Record ArrayBatch (L I N : Type) : Type := {
  array_iter : t L I N;
  array_n : Z;
  array_dst : ArrayBlockView;
  array_has_null : bool
}.

Arguments array_iter {L I N} _.
Arguments array_n {L I N} _.
Arguments array_dst {L I N} _.
Arguments array_has_null {L I N} _.

Section NextBatch.
Context {L I N : Type} `{ColumnIterator L} `{ColumnIterator I} `{ColumnIterator N}.

Definition next_batch (it : t L I N) (n : Z) (dst : ArrayBlockView)
    (has_null : bool) : Result (ArrayBatch L I N) :=
  let array_batch := array_batch dst in
  (* 1. read n offsets *)
  let lengths := child_next_batch (_length_iterator it) n in
  _ ← child_status lengths;
  let n := Z.of_nat (length (child_cells lengths)) in
  let offsets1 :=
    write_at (current_offset dst + 1) (map cell_number (child_cells lengths))
      (offsets array_batch) in
  if n =? 0 then
    Ok {| array_iter :=
            {| is_nullable_array := is_nullable_array it;
               _length_iterator := child_iter lengths;
               _item_iterator := _item_iterator it;
               _null_iterator := _null_iterator it |};
          array_n := n;
          array_dst :=
            {| array_batch :=
                 {| offsets := offsets1; null_signs := null_signs array_batch;
                    elements := elements array_batch;
                    elements_capacity := elements_capacity array_batch;
                    prepared := prepared array_batch |};
               current_offset := current_offset dst;
               view_is_nullable := view_is_nullable dst |};
          array_has_null := has_null |}
  else
    let offsets2 :=
      get_offset_by_length offsets1 (Z.to_nat (current_offset dst)) (Z.to_nat n) in
    (* 2. read null: the status of the call is not looked at *)
    '(null_iterator, null_signs1, has_null) ←
      (if is_nullable_array it then
         null_iter ← deref (_null_iterator it);
         let nulls := child_next_batch null_iter n in
         Ok (Some (child_iter nulls),
             write_at (current_offset dst) (map cell_number (child_cells nulls))
               (null_signs array_batch),
             true)
       else Ok (_null_iterator it, null_signs array_batch, false));
    (* read item *)
    let item_size := get_item_size offsets2 (current_offset dst) n in
    let needed := item_offset offsets2 (current_offset dst + n) in
    let rebuild_array_from0 := elements_capacity array_batch <? needed in
    let capacity :=
      if rebuild_array_from0 then needed else elements_capacity array_batch in
    let items := child_next_batch (_item_iterator it) item_size in
    _ ← child_status items;
    let rebuild_start_offset := if rebuild_array_from0 then 0 else current_offset dst in
    let rebuild_size :=
      if rebuild_array_from0 then u64_add (current_offset dst) n else n in
    Ok {| array_iter :=
            {| is_nullable_array := is_nullable_array it;
               _length_iterator := child_iter lengths;
               _item_iterator := child_iter items;
               _null_iterator := null_iterator |};
          array_n := n;
          array_dst :=
            {| array_batch :=
                 {| offsets := offsets2; null_signs := null_signs1;
                    elements :=
                      write_at (item_offset offsets2 (current_offset dst))
                        (child_cells items) (elements array_batch);
                    elements_capacity := capacity;
                    prepared :=
                      prepared array_batch ++
                      [(rebuild_start_offset, rebuild_size, child_has_null items)] |};
               current_offset := u64_add (current_offset dst) n;
               view_is_nullable := view_is_nullable dst |};
          array_has_null := has_null |}.

End NextBatch.

(** A child iterator that answers from a script: each call takes the next
    answer, a status and the rows it wrote; with no answer left it is at
    the end of its column. *)
Definition Scripted : Type := list (Status * list Cell).

Global Instance Scripted_iterator : ColumnIterator Scripted := {
  child_next_batch it n :=
    match it with
    | [] => {| child_status := Status_OK; child_iter := [];
               child_cells := []; child_has_null := false |}
    | (status, cells) :: rest =>
        {| child_status := status; child_iter := rest;
           child_cells := take (Z.to_nat n) cells; child_has_null := false |}
    end
}.

End ArrayFileColumnIterator.

(** ** DefaultValueColumnIterator *)

Module DefaultValueColumnIterator.

(** [TypeInfo], as [init] uses it: the type, the size of a value and the
    parser of [from_string], which lives in [types.h]. *)
Record TypeInfo : Type := {
  type : FieldType;
  size : Z;
  type_from_string : string -> Result Value
}.

Record t : Type := {
  _has_default_value : bool;
  _default_value : string;
  _is_nullable : bool;
  _type_info : TypeInfo;
  _schema_length : Z;
  _is_default_value_null : bool;
  _type_size : Z;
  _mem_value : option Value
}.

Definition create (has_default_value : bool) (default_value : string)
    (is_nullable : bool) (type_info : TypeInfo) (schema_length : Z) : t :=
  {| _has_default_value := has_default_value; _default_value := default_value;
     _is_nullable := is_nullable; _type_info := type_info;
     _schema_length := schema_length; _is_default_value_null := false;
     _type_size := 0; _mem_value := None |}.

Definition set_null_default (it : t) : t :=
  {| _has_default_value := _has_default_value it;
     _default_value := _default_value it; _is_nullable := _is_nullable it;
     _type_info := _type_info it; _schema_length := _schema_length it;
     _is_default_value_null := true;
     _type_size := _type_size it; _mem_value := _mem_value it |}.

Definition set_mem_value (it : t) (v : Value) : t :=
  {| _has_default_value := _has_default_value it;
     _default_value := _default_value it; _is_nullable := _is_nullable it;
     _type_info := _type_info it; _schema_length := _schema_length it;
     _is_default_value_null := _is_default_value_null it;
     _type_size := size (_type_info it); _mem_value := Some v |}.

(** [memset(string_buffer, 0, length)] then the copy of the default. *)
Fixpoint zero_padding (k : nat) : string :=
  match k with
  | O => EmptyString
  | S k' => String Ascii.zero (zero_padding k')
  end.

(** [debug_build] says whether [DCHECK] is compiled in.  The [length] of
    the two string branches is an [int32_t].  A negative one is passed as a
    [size_t] of at least 2^64 - 2^31 bytes to [memset] or [memory_copy], a
    write past the buffer; so is the copy of a default that is longer than
    the [length] of a [CHAR].  Otherwise the slice has [length] bytes: in
    the second branch the first [length] bytes of the default, which are the
    whole default when it is shorter than 2^31 bytes. *)
Definition init (debug_build : bool) (it : t) : Result t :=
  if _has_default_value it then
    if String.eqb (_default_value it) "NULL" then
      if debug_build && negb (_is_nullable it) then Fault CheckFailed
      else Ok (set_null_default it)
    else
      match type (_type_info it) with
      | OLAP_FIELD_TYPE_CHAR =>
          let length := to_int32 (_schema_length it) in
          let len := Z.of_nat (String.length (_default_value it)) in
          if length <? 0 then Fault BufferOverflow
          else if length <? len then Fault BufferOverflow
          else Ok (set_mem_value it
                     (SliceValue (_default_value it +:+
                                  zero_padding (Z.to_nat (length - len)))))
      | OLAP_FIELD_TYPE_VARCHAR | OLAP_FIELD_TYPE_HLL
      | OLAP_FIELD_TYPE_OBJECT | OLAP_FIELD_TYPE_STRING =>
          let length :=
            to_int32 (Z.of_nat (String.length (_default_value it))) in
          if length <? 0 then Fault BufferOverflow
          else Ok (set_mem_value it
                     (SliceValue (String.substring 0 (Z.to_nat length)
                                    (_default_value it))))
      | OLAP_FIELD_TYPE_ARRAY => Error NotSupported
      | _ =>
          v ← type_from_string (_type_info it) (_default_value it);
          Ok (set_mem_value it v)
      end
  else if _is_nullable it then Ok (set_null_default it)
  else Error InternalError.

(** [next_batch] on a block: the block and [*has_null].  A null default
    advances the block by [*n] at once.  The copies of another default are
    counted by an [int i] compared with [*n]: the body is that loop for the
    [*n] below 2^31, which the counter reaches. *)
Definition next_batch (it : t) (n : Z) (dst : ColumnBlockView)
  : ColumnBlockView * bool :=
  let bit := if is_nullable dst then Some (_is_default_value_null it) else None in
  if _is_default_value_null it
  then (block_write dst (replicate (Z.to_nat n) {| null_bit := bit; data := None |}),
        true)
  else (block_write dst
          (replicate (Z.to_nat n) {| null_bit := bit; data := _mem_value it |}),
        false).

End DefaultValueColumnIterator.

(** ** The rows of a column *)

Module Column.

Import ColumnReader.

(** The rows of a page with a null bitmap: a set bit is a null row, an unset
    bit takes the next value. *)
Fixpoint interleave (bits : list bool) (vals : list Value) : list (option Value) :=
  match bits with
  | [] => []
  | true :: bits' => None :: interleave bits' vals
  | false :: bits' =>
      match vals with
      | v :: vals' => Some v :: interleave bits' vals'
      | [] => []
      end
  end.

Definition count_unset (bits : list bool) : nat :=
  length (filter (fun b => b = false) bits).

(** The rows of a page, [None] for NULL. *)
Definition page_rows (dp : DataPage) : list (option Value) :=
  if dp_has_null dp
  then interleave (dp_null_bitmap dp) (dp_values dp)
  else map Some (dp_values dp).

(** The rows of the column, in the order of the ordinals. *)
Definition all_rows (pages : list DataPage) : list (option Value) :=
  concat (map page_rows pages).

Definition total_rows (pages : list DataPage) : Z :=
  foldr (fun dp acc => dp_num_values dp + acc) 0 pages.

(** A page holds at least one row, one bit per row when it has a bitmap,
    and one value per row that is not null. *)
Definition wf_page (dp : DataPage) : Prop :=
  0 < dp_num_values dp /\
  if dp_has_null dp
  then Z.of_nat (length (dp_null_bitmap dp)) = dp_num_values dp /\
       length (dp_values dp) = count_unset (dp_null_bitmap dp)
  else Z.of_nat (length (dp_values dp)) = dp_num_values dp.

(** The pages follow one another from ordinal [start], and the ordinal index
    says of each page what its footer says. *)
Fixpoint wf_pages (start : Z) (idx : OrdinalIndex.t) (pages : list DataPage) : Prop :=
  match idx, pages with
  | [], [] => True
  | e :: idx', dp :: pages' =>
      OrdinalIndex.first_ordinal e = start /\
      OrdinalIndex.last_ordinal e = start + dp_num_values dp - 1 /\
      dp_first_ordinal dp = start /\
      wf_page dp /\
      wf_pages (start + dp_num_values dp) idx' pages'
  | _, _ => False
  end.

(** A reader of a well-formed column: the indexes load, every page reads as
    what [pages] says, and the ordinals fit in 64 bits. *)
Definition wf_column (r : ColumnReader.t) (idx : OrdinalIndex.t)
    (pages : list DataPage) : Prop :=
  _ensure_index_loaded r = Status_OK /\
  _ordinal_index r = Some idx /\
  data_pages r = map Ok pages /\
  dict_page r = Status_OK /\
  wf_pages 0 idx pages /\
  total_rows pages < two64.

End Column.

(** ** The states of a scalar iterator *)

Module IteratorState.

Import ColumnReader.

(** The parsed page [p] is page [dp] of the file, with its decoders where
    [offset_in_page] says: the null decoder has passed [offset_in_page] bits,
    the value decoder as many values as there are unset bits among them. *)
Definition page_inv (dp : DataPage) (p : ParsedPage.t) : Prop :=
  ParsedPage.first_ordinal p = dp_first_ordinal dp /\
  ParsedPage.num_rows p = dp_num_values dp /\
  ParsedPage.has_null p = dp_has_null dp /\
  ParsedPage.null_bitmap p = dp_null_bitmap dp /\
  PageDecoder.values (ParsedPage.data_decoder p) = dp_values dp /\
  RleDecoder.bits (ParsedPage.null_decoder p) = dp_null_bitmap dp /\
  0 <= ParsedPage.offset_in_page p <= ParsedPage.num_rows p /\
  if ParsedPage.has_null p
  then RleDecoder.pos (ParsedPage.null_decoder p) =
         Z.to_nat (ParsedPage.offset_in_page p) /\
       PageDecoder.cur (ParsedPage.data_decoder p) =
         Column.count_unset
           (take (Z.to_nat (ParsedPage.offset_in_page p)) (dp_null_bitmap dp))
  else PageDecoder.cur (ParsedPage.data_decoder p) =
         Z.to_nat (ParsedPage.offset_in_page p).

(** The number of values the data decoder has passed plus the number of set
    bits the null decoder has passed. *)
Definition consumed (p : ParsedPage.t) : Z :=
  Z.of_nat (PageDecoder.cur (ParsedPage.data_decoder p)) +
  Z.of_nat (RleDecoder.count_set
              (take (RleDecoder.pos (ParsedPage.null_decoder p))
                    (RleDecoder.bits (ParsedPage.null_decoder p)))).

(** The iterator is positioned in a page of the column: its page is a page
    of the file, [_current_ordinal] is the ordinal of the next row, and the
    page iterator is at that page, or past the end with the last page
    loaded. *)
Definition positioned (r : ColumnReader.t) (pages : list DataPage)
    (it : FileColumnIterator.t) : Prop :=
  FileColumnIterator._reader it = r /\
  exists p dp j,
    FileColumnIterator._page it = Some p /\
    pages !! ParsedPage.page_index p = Some dp /\
    page_inv dp p /\
    FileColumnIterator._current_ordinal it =
      ParsedPage.first_ordinal p + ParsedPage.offset_in_page p /\
    FileColumnIterator._page_iter it = Some j /\
    (j = ParsedPage.page_index p \/
     ((length pages <= j)%nat /\ S (ParsedPage.page_index p) = length pages)).

(** The ordinal of the next row of a positioned iterator. *)
Definition position (it : FileColumnIterator.t) : Z :=
  match FileColumnIterator._page it with
  | Some p => ParsedPage.first_ordinal p + ParsedPage.offset_in_page p
  | None => 0
  end.

(** [seek_to_ordinal] has no page to read: the iterator holds a page that
    contains [k], and its page iterator is valid. *)
Definition reuses (idx : OrdinalIndex.t) (it : FileColumnIterator.t) (k : Z) : Prop :=
  exists p j,
    FileColumnIterator._page it = Some p /\ ParsedPage.contains p k = true /\
    FileColumnIterator._page_iter it = Some j /\ (j < length idx)%nat.

(** An iterator of the reader that was never positioned, or is positioned
    in a page. *)
Definition consistent (r : ColumnReader.t) (pages : list DataPage)
    (it : FileColumnIterator.t) : Prop :=
  FileColumnIterator._reader it = r /\
  (FileColumnIterator._page it = None \/ positioned r pages it).

(** The rows from the next row of the iterator to the end of the column:
    what is left of its page, then the pages after it. *)
Definition rest_rows (pages : list DataPage) (it : FileColumnIterator.t)
  : list (option Value) :=
  match FileColumnIterator._page it with
  | Some p =>
      match pages !! ParsedPage.page_index p with
      | Some dp =>
          drop (Z.to_nat (ParsedPage.offset_in_page p)) (Column.page_rows dp) ++
          Column.all_rows (drop (S (ParsedPage.page_index p)) pages)
      | None => []
      end
  | None => []
  end.

(** The operations of a scan. *)
Inductive Op : Type :=
  | SeekToFirst
  | SeekToOrdinal (ord : Z)
  | NextBatch (n : Z).

(** A run of operations; the rows of the batches are dropped. *)
Fixpoint run (fuel : nat) (ops : list Op) (it : FileColumnIterator.t)
    (dst : ColumnBlockView) : option (Result FileColumnIterator.t) :=
  match ops with
  | [] => Some (Ok it)
  | SeekToFirst :: ops' =>
      match FileColumnIterator.seek_to_first it with
      | Ok it' => run fuel ops' it' dst
      | Error c => Some (Error c)
      | Fault f => Some (Fault f)
      end
  | SeekToOrdinal ord :: ops' =>
      match FileColumnIterator.seek_to_ordinal it ord with
      | Ok it' => run fuel ops' it' dst
      | Error c => Some (Error c)
      | Fault f => Some (Fault f)
      end
  | NextBatch n :: ops' =>
      match FileColumnIterator.next_batch fuel it n dst with
      | Some (Ok b) => run fuel ops' (FileColumnIterator.iter b) dst
      | Some (Error c) => Some (Error c)
      | Some (Fault f) => Some (Fault f)
      | None => None
      end
  end.

(** The seeks of a run are to ordinals of the column; its batches are of a
    size that fits in 64 bits and that the loops, run for [fuel] iterations,
    can complete. *)
Definition valid_op (total : Z) (fuel : nat) (op : Op) : Prop :=
  match op with
  | SeekToFirst => True
  | SeekToOrdinal ord => 0 <= ord < total
  | NextBatch n => 0 <= n < two64 /\ (Z.to_nat n < fuel)%nat
  end.

End IteratorState.

(** ** Readers and iterators of nested columns *)

Module ColumnTree.

(** A [ColumnMetaPB] with the fields [create] and [new_iterator] read
    besides those of [init]: [is_nullable], [num_rows] and the metadata of
    the child columns, each a [ColumnMetaPB] of its own. *)
#[warnings="-register-all"]
Inductive ColumnMeta : Type :=
  | MetaNode (meta : ColumnReader.ColumnMetaPB) (is_nullable : bool) (num_rows : Z)
             (children_columns : list ColumnMeta).

Definition meta_pb (m : ColumnMeta) : ColumnReader.ColumnMetaPB :=
  match m with MetaNode meta _ _ _ => meta end.

Definition meta_is_nullable (m : ColumnMeta) : bool :=
  match m with MetaNode _ nullable _ _ => nullable end.

Definition meta_num_rows (m : ColumnMeta) : Z :=
  match m with MetaNode _ _ num_rows _ => num_rows end.

Definition children_columns (m : ColumnMeta) : list ColumnMeta :=
  match m with MetaNode _ _ _ children => children end.

(** A [ColumnReader] as [create] leaves it: [_meta], [_num_rows], the index
    metadata [init] has kept (an array reader is not initialised and keeps
    none) and [_sub_readers], where [None] is a null pointer. *)
#[warnings="-register-all"]
Inductive Reader : Type :=
  | ReaderNode (_meta : ColumnMeta) (_num_rows : Z)
               (index_metas : ColumnReader.IndexMetas)
               (_sub_readers : list (option Reader)).

Definition reader_meta (r : Reader) : ColumnMeta :=
  match r with ReaderNode m _ _ _ => m end.

Definition reader_num_rows (r : Reader) : Z :=
  match r with ReaderNode _ n _ _ => n end.

Definition sub_readers (r : Reader) : list (option Reader) :=
  match r with ReaderNode _ _ _ subs => subs end.

(** [ColumnReader::create].  [children_columns(i)] past the children and
    [_sub_readers[i]] past the vector are reads past a buffer; the [DCHECK]
    on the number of children is compiled in a debug build only. *)
Fixpoint create (debug_build : bool) (m : ColumnMeta) (num_rows : Z) : Result Reader :=
  match m with
  | MetaNode meta nullable _ children =>
      if is_scalar_type (ColumnReader.type meta) then
        index_metas ← ColumnReader.init meta num_rows;
        Ok (ReaderNode m num_rows index_metas [])
      else
        match ColumnReader.type meta with
        | OLAP_FIELD_TYPE_ARRAY =>
            if debug_build &&
               negb ((length children =? 2)%nat || (length children =? 3)%nat)
            then Fault CheckFailed
            else
              match children with
              | [] => Fault BufferOverflow
              | c0 :: rest0 =>
                  item_reader ← create debug_build c0 (meta_num_rows c0);
                  match rest0 with
                  | [] => Fault BufferOverflow
                  | c1 :: rest1 =>
                      offset_reader ← create debug_build c1 (meta_num_rows c1);
                      null_reader ←
                        (if nullable then
                           match rest1 with
                           | [] => Fault BufferOverflow
                           | c2 :: _ =>
                               Some <$> create debug_build c2 (meta_num_rows c2)
                           end
                         else Ok None);
                      (* The num rows of the array reader equals to the num
                         rows of the length reader. *)
                      let num_rows := meta_num_rows c1 in
                      Ok (ReaderNode m num_rows ColumnReader.no_index_meta
                            (Some item_reader :: Some offset_reader ::
                             match rest1 with
                             | [] => []
                             | _ :: rest2 => null_reader :: replicate (length rest2) None
                             end))
                  end
              end
        | _ => Error NotSupported
        end
  end.

(** The iterators [new_iterator] makes. *)
#[warnings="-register-all"]
Inductive Iterator : Type :=
  | EmptyFileColumnIterator
  | FileColumnIterator (reader : Reader)
  | ArrayFileColumnIterator (reader : Reader) (offset_reader : Iterator)
      (item_iterator : Iterator) (null_iterator : option Iterator).

(** [ColumnReader::new_iterator].  [is_nullable()], declared in the header,
    is the flag of [_meta]; [_sub_readers[i]] past the vector is a read past
    a buffer and a call through a null sub-reader a null dereference. *)
Fixpoint new_iterator (r : Reader) : Result Iterator :=
  match r with
  | ReaderNode m num_rows _ subs =>
      if ColumnReader.is_empty num_rows then Ok EmptyFileColumnIterator
      else if is_scalar_type (ColumnReader.type (meta_pb m)) then Ok (FileColumnIterator r)
      else
        match ColumnReader.type (meta_pb m) with
        | OLAP_FIELD_TYPE_ARRAY =>
            match subs with
            | [] => Fault BufferOverflow
            | None :: _ => Fault NullDereference
            | Some item_reader :: subs1 =>
                item_iterator ← new_iterator item_reader;
                match subs1 with
                | [] => Fault BufferOverflow
                | None :: _ => Fault NullDereference
                | Some offset_reader :: subs2 =>
                    offset_iterator ← new_iterator offset_reader;
                    null_iterator ←
                      (if meta_is_nullable m then
                         match subs2 with
                         | [] => Fault BufferOverflow
                         | None :: _ => Fault NullDereference
                         | Some null_reader :: _ => Some <$> new_iterator null_reader
                         end
                       else Ok None);
                    Ok (ArrayFileColumnIterator r offset_iterator item_iterator
                          null_iterator)
                end
            end
        | _ => Error NotSupported
        end
  end.

End ColumnTree.

(** ** Pages accepted by the zone maps *)

Module Pushdown.
Import ColumnReader.
Section Accepted.
Context {W : Type} `{WrapperFieldOps W}.

(** Page [i] of the zone maps is accepted: [page_accepted] of its zone map
    at the bounds the loop has parsed into the containers. *)
Definition page_accepted_at (cond_column delete_condition : option (CondColumn W))
    (zone_maps : list ZoneMapPB) (bounds0 : W * W) (i : nat) : bool :=
  match zone_maps !! i with
  | Some zm =>
      page_accepted cond_column delete_condition zm
        (page_bounds zone_maps i bounds0 zm)
  | None => false
  end.

(** The bounds [{min, max}] of a zone map by itself: the zone map parsed
    into two containers as [create_by_type] makes them ([bounds0]). *)
Definition zone_bounds (bounds0 : W * W) (zm : ZoneMapPB) : W * W :=
  _parse_zone_map zm bounds0.1 bounds0.2.

(** The two containers are made once, before the loop over the pages, and
    every page that does not pass all is parsed into them.  Page [i] is
    parsed afresh when that leaves its bounds what they are by themselves:
    nothing that an earlier page has put in the containers, a value or a
    null marker, stands after the parse of the page. *)
Definition parsed_afresh (zone_maps : list ZoneMapPB) (bounds0 : W * W) (i : nat)
    (zm : ZoneMapPB) : Prop :=
  page_bounds zone_maps i bounds0 zm = zone_bounds bounds0 zm.

(** A page with rows, when there is no condition at all: it passes all or
    its zone is not empty. *)
Definition page_has_rows (zone_maps : list ZoneMapPB) (i : nat) : bool :=
  match zone_maps !! i with
  | Some zm => pass_all zm || has_not_null zm || has_null zm
  | None => false
  end.

End Accepted.
End Pushdown.

(** ** The log of page reads *)

Module PageReads.

(** The data pages read, in the order of the reads. *)
Definition data_page_reads (reads : list FileColumnIterator.PageRead) : list nat :=
  omap (fun rd => match rd with
                  | FileColumnIterator.DataPageRead j => Some j
                  | FileColumnIterator.DictPageRead => None
                  end) reads.

(** The number of reads of the dictionary page. *)
Definition dict_page_reads (reads : list FileColumnIterator.PageRead) : nat :=
  length (filter (fun rd => rd = FileColumnIterator.DictPageRead) reads).

(** The dictionary page was read once if the iterator has a dictionary
    decoder, and never if it has none; and only for a dictionary-encoded
    column. *)
Definition dict_read_once (r : ColumnReader.t) (it : FileColumnIterator.t) : Prop :=
  FileColumnIterator._reader it = r /\
  dict_page_reads (FileColumnIterator.page_reads it) =
    (if FileColumnIterator._dict_decoder it then 1 else 0)%nat /\
  (FileColumnIterator._dict_decoder it = true ->
   ColumnReader._encoding r = ColumnReader.DICT_ENCODING).

End PageReads.

(** ** Batches into a vectorized column *)

Module VectorizedBatch.

(** Modelled from the spec: the destination of the vectorized [next_batch],
    a [vectorized::MutableColumnPtr], is declared outside this file.  The
    iterator and the page decoders insert rows at its end, a decoded value or
    [insert_data(nullptr, 0)] (here [None]), and read [byte_size]; a column
    is any type with these two operations. *)
Class MutableColumn (C : Type) : Type := {
  insert_data : option Value -> C -> C;
  byte_size : C -> Z
}.

(** Modelled from the spec: [PageDecoder::next_batch(&n, dst)] on a column,
    declared outside this file; the values the decoder yields are inserted
    in order. *)
Definition insert_values {C : Type} `{MutableColumn C} (vals : list Value) (dst : C)
  : C :=
  foldl (fun c v => insert_data (Some v) c) dst vals.

(** Rows inserted in a column, in order; [None] is a null row. *)
Definition insert_rows {C : Type} `{MutableColumn C} (rows : list (option Value))
    (dst : C) : C :=
  foldl (fun c row => insert_data row c) dst rows.

(** [for (size_t x = 0; x < this_run; x++) dst->insert_data(nullptr, 0)]. *)
Definition insert_nulls {C : Type} `{MutableColumn C} (this_run : Z) (dst : C) : C :=
  Nat.iter (Z.to_nat this_run) (insert_data None) dst.

(** The state of the loops of the vectorized [next_batch]. *)
Record BatchState (C : Type) : Type := {
  page : ParsedPage.t;
  dst : C;
  current_ordinal : Z;
  has_null : bool
}.

Arguments page {C} _.
Arguments dst {C} _.
Arguments current_ordinal {C} _.
Arguments has_null {C} _.

(** [while (nrows_to_read > 0)], the loop over the runs of the null
    bitmap. *)
Fixpoint read_runs {C : Type} `{MutableColumn C} (fuel : nat) (nrows_to_read : Z)
    (st : BatchState C) : option (BatchState C) :=
  if nrows_to_read >? 0 then
    match fuel with
    | O => None
    | S fuel' =>
        let '(this_run, is_null, null_decoder) :=
          RleDecoder.GetNextRun (ParsedPage.null_decoder (page st)) nrows_to_read in
        let '(dst', data_decoder) :=
          if negb is_null
          then
            let '(vals, data_decoder) :=
              PageDecoder.next_batch (ParsedPage.data_decoder (page st)) this_run in
            (insert_values vals (dst st), data_decoder)
          else (insert_nulls this_run (dst st), ParsedPage.data_decoder (page st)) in
        read_runs fuel' (u64_sub nrows_to_read this_run)
          {| page :=
               {| ParsedPage.first_ordinal := ParsedPage.first_ordinal (page st);
                  ParsedPage.num_rows := ParsedPage.num_rows (page st);
                  ParsedPage.offset_in_page :=
                    u64_add (ParsedPage.offset_in_page (page st)) this_run;
                  ParsedPage.data_decoder := data_decoder;
                  ParsedPage.has_null := ParsedPage.has_null (page st);
                  ParsedPage.null_bitmap := ParsedPage.null_bitmap (page st);
                  ParsedPage.null_decoder := null_decoder;
                  ParsedPage.page_index := ParsedPage.page_index (page st) |};
             dst := dst';
             current_ordinal := u64_add (current_ordinal st) this_run;
             has_null := has_null st || is_null |}
    end
  else Some st.

(** The branch of a page without nulls. *)
Definition read_plain {C : Type} `{MutableColumn C} (nrows_to_read : Z)
    (st : BatchState C) : BatchState C :=
  let '(vals, data_decoder) :=
    PageDecoder.next_batch (ParsedPage.data_decoder (page st)) nrows_to_read in
  let nrows_to_read := Z.of_nat (length vals) in
  {| page :=
       {| ParsedPage.first_ordinal := ParsedPage.first_ordinal (page st);
          ParsedPage.num_rows := ParsedPage.num_rows (page st);
          ParsedPage.offset_in_page :=
            u64_add (ParsedPage.offset_in_page (page st)) nrows_to_read;
          ParsedPage.data_decoder := data_decoder;
          ParsedPage.has_null := ParsedPage.has_null (page st);
          ParsedPage.null_bitmap := ParsedPage.null_bitmap (page st);
          ParsedPage.null_decoder := ParsedPage.null_decoder (page st);
          ParsedPage.page_index := ParsedPage.page_index (page st) |};
     dst := insert_values vals (dst st);
     current_ordinal := u64_add (current_ordinal st) nrows_to_read;
     has_null := has_null st |}.

(** What a call of the vectorized [next_batch] returns: the iterator, [*n],
    the column and [*has_null]. *)
Record Batch (C : Type) : Type := {
  iter : FileColumnIterator.t;
  n : Z;
  column : C;
  batch_has_null : bool
}.

Arguments iter {C} _.
Arguments n {C} _.
Arguments column {C} _.
Arguments batch_has_null {C} _.

(** [while (remaining > 0)]. *)
Fixpoint batch_loop {C : Type} `{MutableColumn C} (fuel : nat)
    (it : FileColumnIterator.t) (remaining : Z) (dst : C) (has_null : bool)
  : option (Result (Batch C)) :=
  if remaining >? 0 then
    match fuel with
    | O => None
    | S fuel' =>
        let loaded :=
          if from_option ParsedPage.has_remaining false (FileColumnIterator._page it)
          then Ok (it, false)
          else FileColumnIterator._load_next_page it in
        match loaded with
        | Error c => Some (Error c)
        | Fault f => Some (Fault f)
        | Ok (it1, true) =>
            Some (Ok {| iter := it1; n := remaining; column := dst;
                        batch_has_null := has_null |})
        | Ok (it1, false) =>
            match FileColumnIterator._page it1 with
            | None => Some (Fault NullDereference)
            | Some page =>
                let nrows_in_page := Z.min remaining (ParsedPage.remaining page) in
                let st := {| page := page; dst := dst;
                             current_ordinal := FileColumnIterator._current_ordinal it1;
                             has_null := has_null |} in
                match (if ParsedPage.has_null page
                       then read_runs fuel nrows_in_page st
                       else Some (read_plain nrows_in_page st)) with
                | None => None
                | Some st' =>
                    batch_loop fuel'
                      (FileColumnIterator.set_current_ordinal
                         (FileColumnIterator.set_page it1 (VectorizedBatch.page st'))
                         (current_ordinal st'))
                      (u64_sub remaining nrows_in_page)
                      (VectorizedBatch.dst st') (VectorizedBatch.has_null st')
                end
            end
        end
    end
  else Some (Ok {| iter := it; n := remaining; column := dst;
                   batch_has_null := has_null |}).

(** [FileColumnIterator::next_batch] on a [vectorized::MutableColumnPtr]. *)
Definition next_batch {C : Type} `{MutableColumn C} (fuel : nat)
    (it : FileColumnIterator.t) (n : Z) (dst : C) : option (Result (Batch C)) :=
  let curr_size := byte_size dst in
  match batch_loop fuel it n dst false with
  | Some (Ok b) =>
      let remaining := VectorizedBatch.n b in
      let n' := u64_sub n remaining in
      let it' := iter b in
      Some (Ok {| iter :=
                    {| FileColumnIterator._reader := FileColumnIterator._reader it';
                       FileColumnIterator._page := FileColumnIterator._page it';
                       FileColumnIterator._page_iter := FileColumnIterator._page_iter it';
                       FileColumnIterator._current_ordinal :=
                         FileColumnIterator._current_ordinal it';
                       FileColumnIterator._dict_decoder :=
                         FileColumnIterator._dict_decoder it';
                       FileColumnIterator.bytes_read :=
                         FileColumnIterator.bytes_read it' +
                         (u64_sub (byte_size (column b)) curr_size + BitmapSize n');
                       FileColumnIterator.page_reads := FileColumnIterator.page_reads it' |};
                  n := n'; column := column b; batch_has_null := batch_has_null b |})
  | other => other
  end.

(** The rows a cell of a block stands for in a column: a null row, the value
    of its data slot, or no row when the decoder had no value for it. *)
Definition column_rows (c : Cell) : list (option Value) :=
  if bool_decide (null_bit c = Some true) then [None]
  else match data c with
       | Some v => [Some v]
       | None => []
       end.

End VectorizedBatch.

(** ** Offsets of arrays *)

Module ArrayOffsets.



End ArrayOffsets.

(** ** Sample inputs *)

Module Samples.

Import ColumnReader.

(** A column whose metadata lists the ordinal index twice. *)
Definition duplicate_ordinal_meta : ColumnMetaPB :=
  {| type := OLAP_FIELD_TYPE_INT; column_id := 0;
     indexes := [ORDINAL_INDEX; ZONE_MAP_INDEX; ORDINAL_INDEX];
     type_info_found := true; encoding_info := Status_OK;
     compression_codec := Status_OK |}.

Definition unknown_index_meta : ColumnMetaPB :=
  {| type := OLAP_FIELD_TYPE_INT; column_id := 0;
     indexes := [ORDINAL_INDEX; UNKNOWN_INDEX_TYPE];
     type_info_found := true; encoding_info := Status_OK;
     compression_codec := Status_OK |}.

(** An [INT] type whose parser accepts nothing: no sample parses a number. *)
Definition int_type_info : DefaultValueColumnIterator.TypeInfo :=
  {| DefaultValueColumnIterator.type := OLAP_FIELD_TYPE_INT;
     DefaultValueColumnIterator.size := 4;
     DefaultValueColumnIterator.type_from_string := fun _ => Error InternalError |}.

(** A default-value iterator with default "NULL" for a column that is not
    nullable, and one for a nullable column. *)
Definition null_default_not_nullable : DefaultValueColumnIterator.t :=
  DefaultValueColumnIterator.create true "NULL" false int_type_info 0.

Definition null_default_nullable : DefaultValueColumnIterator.t :=
  DefaultValueColumnIterator.create true "NULL" true int_type_info 0.

Definition nullable_block : ColumnBlockView :=
  {| is_nullable := true; type_size := 4; cells := [] |}.

Definition int_cell (z : Z) : Cell :=
  {| null_bit := None; data := Some (IntValue z) |}.

(** A nullable array column: the length child answers one array of two
    items, the item child its two items, and the read of the null child
    fails. *)
Definition array_with_failing_null_child
  : ArrayFileColumnIterator.t ArrayFileColumnIterator.Scripted
      ArrayFileColumnIterator.Scripted ArrayFileColumnIterator.Scripted :=
  {| ArrayFileColumnIterator.is_nullable_array := true;
     ArrayFileColumnIterator._length_iterator := [(Status_OK, [int_cell 2])];
     ArrayFileColumnIterator._item_iterator := [(Status_OK, [int_cell 7; int_cell 8])];
     ArrayFileColumnIterator._null_iterator := Some [(Error IOError, [])] |}.

(** The status of the read of one row from that null child. *)
Definition child_status_of_null_read : Status :=
  ArrayFileColumnIterator.child_status
    (ArrayFileColumnIterator.child_next_batch
       (I := ArrayFileColumnIterator.Scripted) [(Error IOError, [])] 1).

Definition empty_array_block : ArrayFileColumnIterator.ArrayBlockView :=
  {| ArrayFileColumnIterator.array_batch :=
       {| ArrayFileColumnIterator.offsets := [0; 0; 0; 0];
          ArrayFileColumnIterator.null_signs := [0; 0; 0];
          ArrayFileColumnIterator.elements := [];
          ArrayFileColumnIterator.elements_capacity := 16;
          ArrayFileColumnIterator.prepared := [] |};
     ArrayFileColumnIterator.current_offset := 0;
     ArrayFileColumnIterator.view_is_nullable := true |}.

(** A [WrapperField] for the samples: the string it was given and its
    null flag. *)
Record SampleField : Type := {
  field_value : string;
  field_is_null : bool
}.

Global Instance SampleField_ops : WrapperFieldOps SampleField := {
  create_by_type _ _ := {| field_value := ""; field_is_null := false |};
  from_string w s := {| field_value := s; field_is_null := field_is_null w |};
  set_null w := {| field_value := field_value w; field_is_null := true |}
}.

Definition zone (lo hi : string) (nulls not_nulls all : bool) : ZoneMapPB :=
  {| min := lo; max := hi; has_null := nulls; has_not_null := not_nulls;
     pass_all := all |}.

Definition pages_of (firsts : list (Z * Z)) : OrdinalIndex.t :=
  map (fun p => {| OrdinalIndex.first_ordinal := p.1;
                   OrdinalIndex.last_ordinal := p.2 |}) firsts.

(** A reader with the given zone maps, ordinal index and bloom filters, all
    of them loaded. *)
Definition reader_with (zone_maps : list ZoneMapPB) (ordinals : OrdinalIndex.t)
    (filters : list (Result BloomFilter)) (rows : Z)
    (pages : list (Result DataPage)) : ColumnReader.t :=
  {| _num_rows := rows; _type := OLAP_FIELD_TYPE_INT; _length := 4;
     index_metas :=
       {| _ordinal_index_meta := Some 0%nat; _zone_map_index_meta := Some 1%nat;
          _bitmap_index_meta := None; _bf_index_meta := Some 2%nat |};
     _ensure_index_loaded := Status_OK;
     _ordinal_index := Some ordinals;
     _zone_map_index := Some zone_maps;
     segment_zone_map := zone "" "" false true true;
     _bloom_filter_index :=
       Some {| new_iterator_status := Status_OK; bloom_filters := filters |};
     _encoding := PLAIN_ENCODING;
     data_pages := pages;
     dict_page := Status_OK |}.

(** Four pages of a hundred rows: the second passes all, the fourth has an
    empty zone.  The condition is refuted by an upper bound of "10" only;
    the bloom filter of the first page does not match it. *)
Definition pushdown_reader : ColumnReader.t :=
  reader_with
    [zone "1" "10" false true false; zone "11" "20" false true true;
     zone "21" "30" false true false; zone "" "" false false false]
    (pages_of [(0, 99); (100, 199); (200, 299); (300, 399)])
    [Ok [false]; Ok [true]; Ok [true]; Ok [true]]
    400 [].

Definition above_ten : CondColumn SampleField :=
  {| eval := fun b => negb (String.eqb (field_value b.2) "10");
     del_eval := fun _ => DEL_NOT_SATISFIED;
     eval_bf := fun bf => bool_decide (bf = [true]);
     can_do_bloom_filter := true |}.

(** A condition that a null lower bound refutes. *)
Definition min_not_null : CondColumn SampleField :=
  {| eval := fun b => negb (field_is_null b.1);
     del_eval := fun _ => DEL_NOT_SATISFIED;
     eval_bf := fun _ => true;
     can_do_bloom_filter := false |}.

(** A page of values only, alone and after a page of nulls only. *)
Definition values_page_reader : ColumnReader.t :=
  reader_with [zone "6" "9" false true false] (pages_of [(0, 99)]) [] 100 [].

Definition values_after_nulls_reader : ColumnReader.t :=
  reader_with [zone "" "" true false false; zone "6" "9" false true false]
    (pages_of [(0, 99); (100, 199)]) [] 200 [].

(** A column of ten rows in three pages; rows 2, 7 and 8 are null. *)
Definition scan_pages : list DataPage :=
  [ {| dp_first_ordinal := 0; dp_num_values := 4; dp_has_null := true;
       dp_null_bitmap := [false; false; true; false];
       dp_values := [IntValue 10; IntValue 11; IntValue 13];
       dp_is_dict_encoding := false |};
    {| dp_first_ordinal := 4; dp_num_values := 3; dp_has_null := false;
       dp_null_bitmap := [];
       dp_values := [IntValue 14; IntValue 15; IntValue 16];
       dp_is_dict_encoding := false |};
    {| dp_first_ordinal := 7; dp_num_values := 3; dp_has_null := true;
       dp_null_bitmap := [true; true; false];
       dp_values := [IntValue 19];
       dp_is_dict_encoding := false |} ].

Definition scan_empty_page : DataPage :=
  {| dp_first_ordinal := 0; dp_num_values := 0; dp_has_null := false;
     dp_null_bitmap := []; dp_values := []; dp_is_dict_encoding := false |}.

Definition scan_index : OrdinalIndex.t := pages_of [(0, 3); (4, 6); (7, 9)].

Definition scan_reader : ColumnReader.t :=
  reader_with [] scan_index [] 10 (map Ok scan_pages).

(** The iterator after a scan that ran past the end of the column: after
    [seek_to_first] and a batch of twenty rows. *)
Definition scanned_to_end : option (Result FileColumnIterator.t) :=
  IteratorState.run 32 [IteratorState.SeekToFirst; IteratorState.NextBatch 20]
    (FileColumnIterator.new_iterator scan_reader) nullable_block.

(** The iterator [seek_to_first] leaves on that column, and the one
    [seek_to_ordinal(5)] leaves. *)
Definition iterator_at_first : FileColumnIterator.t :=
  {| FileColumnIterator._reader := scan_reader;
     FileColumnIterator._page :=
       Some (ParsedPage.create (default scan_empty_page (scan_pages !! 0%nat)) 0);
     FileColumnIterator._page_iter := Some 0%nat;
     FileColumnIterator._current_ordinal := 0;
     FileColumnIterator._dict_decoder := false;
     FileColumnIterator.bytes_read := 0;
     FileColumnIterator.page_reads := [FileColumnIterator.DataPageRead 0] |}.

Definition iterator_at_5 : FileColumnIterator.t :=
  match FileColumnIterator.seek_to_ordinal
          (FileColumnIterator.new_iterator scan_reader) 5 with
  | Ok it => it
  | _ => FileColumnIterator.new_iterator scan_reader
  end.

Definition iterator_at_end : FileColumnIterator.t :=
  match scanned_to_end with
  | Some (Ok it) => it
  | _ => FileColumnIterator.new_iterator scan_reader
  end.

(** One page whose zone map passes all and records neither nulls nor
    values. *)
Definition pass_all_empty_zone_reader : ColumnReader.t :=
  reader_with [zone "" "" false false true] (pages_of [(0, 99)]) [] 100 [].

(** The column of [scan_pages] stored with dictionary encoding: every data
    page is dictionary-encoded. *)
Definition dict_pages : list DataPage :=
  map (fun dp => {| dp_first_ordinal := dp_first_ordinal dp;
                    dp_num_values := dp_num_values dp;
                    dp_has_null := dp_has_null dp;
                    dp_null_bitmap := dp_null_bitmap dp;
                    dp_values := dp_values dp;
                    dp_is_dict_encoding := true |}) scan_pages.

Definition dict_reader : ColumnReader.t :=
  {| _num_rows := 10; _type := OLAP_FIELD_TYPE_INT; _length := 4;
     index_metas :=
       {| _ordinal_index_meta := Some 0%nat; _zone_map_index_meta := None;
          _bitmap_index_meta := None; _bf_index_meta := None |};
     _ensure_index_loaded := Status_OK;
     _ordinal_index := Some scan_index;
     _zone_map_index := None;
     segment_zone_map := zone "" "" false true true;
     _bloom_filter_index := None;
     _encoding := DICT_ENCODING;
     data_pages := map Ok dict_pages;
     dict_page := Status_OK |}.

(** A scan of the dictionary-encoded column that comes back to its start. *)
Definition dict_scan : list IteratorState.Op :=
  [IteratorState.SeekToFirst; IteratorState.NextBatch 6;
   IteratorState.SeekToOrdinal 1; IteratorState.NextBatch 9].

Definition dict_iterator : FileColumnIterator.t :=
  match IteratorState.run 16 dict_scan (FileColumnIterator.new_iterator dict_reader)
          nullable_block with
  | Some (Ok it) => it
  | _ => FileColumnIterator.new_iterator dict_reader
  end.

(** The batch that runs from the first row past the end of the column. *)
Definition batch_to_end : FileColumnIterator.Batch :=
  match FileColumnIterator.next_batch 32 iterator_at_first 20
          nullable_block with
  | Some (Ok b) => b
  | _ => {| FileColumnIterator.iter := iterator_at_first;
            FileColumnIterator.n := 0;
            FileColumnIterator.block := nullable_block;
            FileColumnIterator.batch_has_null := false |}
  end.

(** Three pages; the bloom filters of the second and of the third cannot be
    read. *)
Definition unreadable_bloom_reader : ColumnReader.t :=
  reader_with []
    (pages_of [(0, 99); (100, 199); (200, 299)])
    [Ok [true]; Error IOError; Error NotFound] 300 [].

(** A segment of one page: the zone map of the page is that of the
    segment. *)
Definition one_page_reader : ColumnReader.t :=
  reader_with [zone "" "" false true true]
    (pages_of [(0, 99)]) [] 100 [].

Definition varchar_type_info : DefaultValueColumnIterator.TypeInfo :=
  {| DefaultValueColumnIterator.type := OLAP_FIELD_TYPE_VARCHAR;
     DefaultValueColumnIterator.size := 16;
     DefaultValueColumnIterator.type_from_string := fun _ => Error InternalError |}.

Definition char_type_info : DefaultValueColumnIterator.TypeInfo :=
  {| DefaultValueColumnIterator.type := OLAP_FIELD_TYPE_CHAR;
     DefaultValueColumnIterator.size := 16;
     DefaultValueColumnIterator.type_from_string := fun _ => Error InternalError |}.

(** A column with the default "abc", and a [CHAR(4)] column with the
    default "ab". *)
Definition varchar_default : DefaultValueColumnIterator.t :=
  DefaultValueColumnIterator.create true "abc" false varchar_type_info 0.

Definition char_default : DefaultValueColumnIterator.t :=
  DefaultValueColumnIterator.create true "ab" false char_type_info 4.

(** The metadata of an array column of five items in two arrays. *)
Definition scalar_meta (t : FieldType) (rows : Z) : ColumnTree.ColumnMeta :=
  ColumnTree.MetaNode
    {| type := t; column_id := 0; indexes := [ORDINAL_INDEX];
       type_info_found := true; encoding_info := Status_OK;
       compression_codec := Status_OK |} false rows [].

Definition array_meta_pb : ColumnMetaPB :=
  {| type := OLAP_FIELD_TYPE_ARRAY; column_id := 0; indexes := [];
     type_info_found := true; encoding_info := Status_OK;
     compression_codec := Status_OK |}.

Definition array_children : list ColumnTree.ColumnMeta :=
  [scalar_meta OLAP_FIELD_TYPE_INT 5; scalar_meta OLAP_FIELD_TYPE_UNSIGNED_INT 2].

Definition array_meta : ColumnTree.ColumnMeta :=
  ColumnTree.MetaNode array_meta_pb false 0 array_children.

Definition array_reader : ColumnTree.Reader :=
  match ColumnTree.create false array_meta 7 with
  | Ok rd => rd
  | _ => ColumnTree.ReaderNode array_meta 0 no_index_meta []
  end.

(** A column that is the list of its rows; a row takes four bytes. *)
Definition RowColumn : Type := list (option Value).

Global Instance RowColumn_column : VectorizedBatch.MutableColumn RowColumn := {
  VectorizedBatch.insert_data row c := c ++ [row];
  VectorizedBatch.byte_size c := 4 * Z.of_nat (length c)
}.

(** The metadata of an [INT] column of five rows without an ordinal
    index. *)
Definition unindexed_meta : ColumnMetaPB :=
  {| type := OLAP_FIELD_TYPE_INT; column_id := 0; indexes := [ZONE_MAP_INDEX];
     type_info_found := true; encoding_info := Status_OK;
     compression_codec := Status_OK |}.

End Samples.

(* ================================================================== *)
(** * Properties *)

Section RowRangesProperties.
Import RowRanges.

Lemma rows_nil x : rows [] x <-> False.
Proof. split; [|done]. intros (r & Hin & _). by apply elem_of_nil in Hin. Qed.

Lemma rows_cons r rs x : rows (r :: rs) x <-> r.1 <= x < r.2 \/ rows rs x.
Proof.
  unfold rows. split.
  - intros (r' & Hin & Hx). apply elem_of_cons in Hin as [->|Hin]; eauto.
  - intros [Hx|(r' & Hin & Hx)].
    + exists r. split; [apply elem_of_cons; by left | done].
    + exists r'. split; [apply elem_of_cons; by right | done].
Qed.

Lemma rows_app rs1 rs2 x : rows (rs1 ++ rs2) x <-> rows rs1 x \/ rows rs2 x.
Proof.
  induction rs1 as [|r rs1 IH]; simpl.
  - rewrite rows_nil. tauto.
  - rewrite !rows_cons, IH. tauto.
Qed.

Lemma contains_rows rs x : contains rs x = true <-> rows rs x.
Proof.
  induction rs as [|r rs IH]; simpl.
  - rewrite rows_nil. split; [discriminate | tauto].
  - rewrite rows_cons, <- IH, orb_true_iff. unfold range_contains.
    rewrite andb_true_iff, Z.leb_le, Z.ltb_lt. tauto.
Qed.

Lemma insert_range_rows rs : forall f e x,
  f < e -> nonempty rs ->
  rows (insert_range f e rs) x <-> f <= x < e \/ rows rs x.
Proof.
  induction rs as [|[f' e'] rest IH]; intros f e x Hfe Hne; simpl.
  - by rewrite rows_cons.
  - apply Forall_cons in Hne as [Hr Hrest]. simpl in Hr.
    destruct (Z.ltb_spec e f').
    + by rewrite !rows_cons.
    + destruct (Z.ltb_spec e' f).
      * rewrite !rows_cons, IH by done. simpl. tauto.
      * rewrite IH, rows_cons by (done || lia). simpl. intuition lia.
Qed.

Lemma insert_range_nonempty rs : forall f e,
  f < e -> nonempty rs -> nonempty (insert_range f e rs).
Proof.
  induction rs as [|[f' e'] rest IH]; intros f e Hfe Hne; simpl.
  - by apply Forall_cons.
  - apply Forall_cons in Hne as [Hr Hrest]. simpl in Hr.
    destruct (Z.ltb_spec e f').
    + apply Forall_cons; split; [done|]. by apply Forall_cons.
    + destruct (Z.ltb_spec e' f).
      * apply Forall_cons; split; [done|]. by apply IH.
      * apply IH; [lia | done].
Qed.

Lemma add_rows r rs x :
  nonempty rs -> rows (add r rs) x <-> r.1 <= x < r.2 \/ rows rs x.
Proof.
  intros Hne. unfold add, range_is_empty.
  destruct (Z.leb_spec r.2 r.1).
  - intuition lia.
  - by apply insert_range_rows.
Qed.

Lemma add_nonempty r rs : nonempty rs -> nonempty (add r rs).
Proof.
  intros Hne. unfold add, range_is_empty.
  destruct (Z.leb_spec r.2 r.1); [done|]. by apply insert_range_nonempty.
Qed.

Lemma create_single_rows f e x : rows (create_single f e) x <-> f <= x < e.
Proof.
  unfold create_single. rewrite add_rows by apply Forall_nil_2.
  rewrite rows_nil. simpl. tauto.
Qed.

Lemma ranges_union_spec b : forall a,
  nonempty a ->
  nonempty (ranges_union a b) /\
  forall x, rows (ranges_union a b) x <-> rows a x \/ rows b x.
Proof.
  unfold ranges_union.
  induction b as [|r b IH]; intros a Hne; simpl.
  - split; [done|]. intros x. rewrite rows_nil. tauto.
  - destruct (IH (add r a) (add_nonempty r a Hne)) as [Hne' Hrows].
    split; [done|]. intros x.
    rewrite Hrows, add_rows, rows_cons by done. tauto.
Qed.

Lemma range_intersection_rows a b x :
  rows (range_intersection a b) x <-> (a.1 <= x < a.2) /\ (b.1 <= x < b.2).
Proof.
  unfold range_intersection, range_is_empty. simpl.
  destruct (Z.leb_spec (Z.min a.2 b.2) (Z.max a.1 b.1)).
  - rewrite rows_nil. lia.
  - rewrite rows_cons, rows_nil. simpl. lia.
Qed.

Lemma ranges_intersection_rows a b x :
  rows (ranges_intersection a b) x <-> rows a x /\ rows b x.
Proof.
  unfold ranges_intersection.
  induction a as [|ra a IH]; simpl.
  - rewrite !rows_nil. tauto.
  - rewrite rows_app, IH, rows_cons.
    assert (rows (flat_map (fun rb => range_intersection ra rb) b) x <->
            ra.1 <= x < ra.2 /\ rows b x) as ->; [|tauto].
    clear IH. induction b as [|rb b IHb]; simpl.
    + rewrite !rows_nil. tauto.
    + rewrite rows_app, IHb, range_intersection_rows, rows_cons. tauto.
Qed.

End RowRangesProperties.

Section ZoneMapProperties.
Import ColumnReader.
Context {W : Type} `{WrapperFieldOps W}.
Implicit Types (cond del : option (CondColumn W)) (st : @FilterState W).

Lemma filter_page_indexes cond del i zm st :
  page_indexes (filter_page cond del i zm st) =
  page_indexes st ++
    (if page_accepted cond del zm
          (_parse_zone_map zm (min_value st) (max_value st))
     then [i] else []).
Proof.
  unfold filter_page, page_accepted, _zone_map_match_condition.
  destruct (pass_all zm); [done|].
  destruct (_parse_zone_map zm (min_value st) (max_value st)) as [mn mx].
  destruct (has_not_null zm), (has_null zm), cond as [c|], del as [d|]; simpl;
    try destruct (eval c (mn, mx)); simpl;
    try destruct (bool_decide (del_eval d (mn, mx) = DEL_SATISFIED)); simpl;
    by rewrite ?app_nil_r.
Qed.

Lemma filter_page_bounds cond del i zm st :
  let st' := filter_page cond del i zm st in
  (min_value st', max_value st') = parse_step (min_value st, max_value st) zm.
Proof.
  unfold filter_page, parse_step. simpl.
  destruct (pass_all zm); [done|].
  destruct (_parse_zone_map zm (min_value st) (max_value st)) as [mn mx].
  destruct (_zone_map_match_condition zm mn mx cond) as [[] calls];
    [destruct del|]; done.
Qed.

Lemma filter_page_log cond del i zm st j call :
  (j, call) ∈ eval_log (filter_page cond del i zm st) ->
  (j, call) ∈ eval_log st \/ (j = i /\ pass_all zm = false).
Proof.
  unfold filter_page.
  destruct (pass_all zm); [by left|].
  destruct (_parse_zone_map zm (min_value st) (max_value st)) as [mn mx].
  destruct (_zone_map_match_condition zm mn mx cond) as [matched calls].
  assert (forall l, (j, call) ∈ eval_log st ++ map (pair i) calls ++ map (pair i) l ->
                    (j, call) ∈ eval_log st \/ j = i /\ false = false) as Hlog.
  { intros l Hin. rewrite <- map_app in Hin.
    apply elem_of_app in Hin as [Hin|Hin]; [by left|right].
    apply list_elem_of_In, in_map_iff in Hin as (c & Heq & _).
    by inversion Heq. }
  destruct matched; [destruct del|]; simpl; intros Hin.
  - apply (Hlog [DelEval]). by rewrite app_assoc.
  - apply (Hlog []). by rewrite app_nil_r.
  - apply (Hlog []). by rewrite app_nil_r.
Qed.

Lemma page_bounds_head zm rest (b0 : W * W) :
  page_bounds (zm :: rest) 0 b0 zm = _parse_zone_map zm b0.1 b0.2.
Proof. done. Qed.

Lemma page_bounds_tail zm rest j (b0 : W * W) zm' :
  page_bounds (zm :: rest) (S j) b0 zm' = page_bounds rest j (parse_step b0 zm) zm'.
Proof. done. Qed.

Lemma filter_pages_from_indexes cond del zms : forall k st i,
  i ∈ page_indexes (filter_pages_from cond del k zms st) <->
  i ∈ page_indexes st \/
  exists j zm, i = (k + j)%nat /\ zms !! j = Some zm /\
    page_accepted cond del zm
      (page_bounds zms j (min_value st, max_value st) zm) = true.
Proof.
  induction zms as [|zm rest IH]; intros k st i; simpl.
  - split; [by left|]. intros [Hin|(j & zm & _ & Hl & _)]; [done|].
    by rewrite lookup_nil in Hl.
  - rewrite IH, filter_page_indexes, elem_of_app.
    pose proof (filter_page_bounds cond del k zm st) as Hb. simpl in Hb.
    rewrite Hb. split.
    + intros [[Hin|Hin]|(j & zm' & -> & Hl & Hacc)].
      * by left.
      * right. exists 0%nat, zm.
        destruct (page_accepted _ _ _ _) eqn:Hacc.
        -- apply list_elem_of_singleton in Hin as ->.
           split; [lia|]. by split.
        -- by apply elem_of_nil in Hin.
      * right. exists (S j), zm'. split; [lia|]. split; [done|].
        by rewrite page_bounds_tail.
    + intros [Hin|(j & zm' & -> & Hl & Hacc)]; [by left; left|].
      destruct j as [|j]; simpl in Hl.
      * inversion Hl; subst zm'. left; right.
        rewrite page_bounds_head in Hacc. simpl in Hacc.
        rewrite Hacc. apply list_elem_of_singleton. lia.
      * right. exists j, zm'. split; [lia|]. split; [done|].
        by rewrite page_bounds_tail in Hacc.
Qed.

Lemma filter_pages_from_log cond del zms : forall k st i call,
  (i, call) ∈ eval_log (filter_pages_from cond del k zms st) ->
  (i, call) ∈ eval_log st \/
  exists j zm, i = (k + j)%nat /\ zms !! j = Some zm /\ pass_all zm = false.
Proof.
  induction zms as [|zm rest IH]; intros k st i call Hin; simpl in Hin.
  - by left.
  - apply IH in Hin as [Hin|(j & zm' & -> & Hl & Hp)].
    + apply filter_page_log in Hin as [Hin|[-> Hp]]; [by left|].
      right. exists 0%nat, zm. split; [lia|]. by split.
    + right. exists (S j), zm'. split; [lia|]. by split.
Qed.

End ZoneMapProperties.

Section InitProperties.
Import ColumnReader.

Lemma scan_indexes_unknown l : forall i m,
  UNKNOWN_INDEX_TYPE ∈ l -> scan_indexes i l m = Error Corruption.
Proof.
  induction l as [|t rest IH]; intros i m Hin.
  - by apply elem_of_nil in Hin.
  - apply elem_of_cons in Hin as [<-|Hin]; [done|].
    destruct t; simpl; auto.
Qed.

Lemma scan_indexes_meta l : forall i m m' t,
  scan_indexes i l m = Ok m' ->
  t <> UNKNOWN_INDEX_TYPE ->
  meta_of t m' =
    match last_of_kind t i l with Some j => Some j | None => meta_of t m end.
Proof.
  induction l as [|t' rest IH]; intros i m m' t Hscan Ht.
  - simpl in *. by inversion Hscan.
  - simpl in Hscan. destruct (record_index i t' m) as [m1| |] eqn:Hrec; try done.
    simpl in Hscan. rewrite (IH _ _ _ _ Hscan Ht). simpl.
    destruct (last_of_kind t (S i) rest); [done|].
    destruct t', t; simpl in *; inversion Hrec; subst; simpl; try done.
Qed.

End InitProperties.

(** C7, as stated: [init] would answer [Corruption] for every index list
    with two descriptors of one kind.  The list of
    [Samples.duplicate_ordinal_meta] has the ordinal index twice and [init]
    succeeds, keeping the second. *)
Lemma init_accepts_duplicate_index :
  ~ NoDup (ColumnReader.indexes Samples.duplicate_ordinal_meta) /\
  ColumnReader.init Samples.duplicate_ordinal_meta 10 =
    Ok {| ColumnReader._ordinal_index_meta := Some 2%nat;
          ColumnReader._zone_map_index_meta := Some 1%nat;
          ColumnReader._bitmap_index_meta := None;
          ColumnReader._bf_index_meta := None |}.
Proof.
  split; [|reflexivity].
  intros Hnd. apply NoDup_cons in Hnd as [Hnotin _].
  apply Hnotin. repeat constructor.
Qed.

(** C7, amended: once type info, encoding and codec are resolved, [init]
    answers [Corruption] whenever the index list has a descriptor of unknown
    kind; and whenever [init] succeeds, no descriptor is of unknown kind and
    the pointer kept for each known kind is the last descriptor of that kind
    in the list, null when there is none (a duplicate is not an error: the
    later descriptor replaces the earlier). *)
Theorem init_index_scan (meta : ColumnReader.ColumnMetaPB) (num_rows : Z) :
  ColumnReader.type_info_found meta = true ->
  ColumnReader.encoding_info meta = Status_OK ->
  ColumnReader.compression_codec meta = Status_OK ->
  (ColumnReader.UNKNOWN_INDEX_TYPE ∈ ColumnReader.indexes meta ->
     ColumnReader.init meta num_rows = Error Corruption) /\
  (forall m, ColumnReader.init meta num_rows = Ok m ->
     (ColumnReader.UNKNOWN_INDEX_TYPE ∉ ColumnReader.indexes meta) /\
     (forall t, t <> ColumnReader.UNKNOWN_INDEX_TYPE ->
        ColumnReader.meta_of t m =
          ColumnReader.last_of_kind t 0 (ColumnReader.indexes meta))).
Proof.
  intros Hti Henc Hcodec. unfold ColumnReader.init.
  rewrite Hti, Henc, Hcodec. simpl. split.
  - intros Hin. by rewrite (scan_indexes_unknown _ _ _ Hin).
  - intros m Hinit.
    destruct (ColumnReader.scan_indexes 0 (ColumnReader.indexes meta)
                ColumnReader.no_index_meta) as [m'| |] eqn:Hscan; try done.
    simpl in Hinit.
    destruct (bool_decide _ && _); [done|]. inversion Hinit; subst m'. split.
    + intros Hin. by rewrite (scan_indexes_unknown _ _ _ Hin) in Hscan.
    + intros t Ht. rewrite (scan_indexes_meta _ _ _ _ _ Hscan Ht).
      destruct (ColumnReader.last_of_kind t 0 (ColumnReader.indexes meta)); [done|].
      by destruct t.
Qed.

Lemma init_index_scan_witness :
  ColumnReader.init Samples.unknown_index_meta 10 = Error Corruption.
Proof.
  apply (init_index_scan Samples.unknown_index_meta 10);
    [reflexivity | reflexivity | reflexivity |].
  simpl. repeat constructor.
Defined.

(** C9, as stated: [init] with the default "NULL" on a column that is not
    nullable would return a non-OK status.  It returns OK in a release build
    and stops at the [DCHECK] in a debug build; neither is a non-OK status. *)
Lemma default_null_not_nullable_is_not_an_error :
  DefaultValueColumnIterator.init false Samples.null_default_not_nullable =
    Ok (DefaultValueColumnIterator.set_null_default Samples.null_default_not_nullable) /\
  DefaultValueColumnIterator.init true Samples.null_default_not_nullable =
    Fault CheckFailed /\
  (forall debug_build,
     is_error (DefaultValueColumnIterator.init debug_build
                 Samples.null_default_not_nullable) = false).
Proof. split; [reflexivity|]. split; [reflexivity|]. by intros []. Qed.

(** C9, amended: [init] with [has_default] and the default "NULL" never
    returns a non-OK status.  That the column is nullable is a [DCHECK]: on a
    column that is not nullable a debug build stops there, and in every other
    case [init] returns OK with the iterator set to the null default, after
    which [next_batch] produces a null for each of the [n] rows. *)
Theorem default_null_init (debug_build : bool) (it : DefaultValueColumnIterator.t) :
  DefaultValueColumnIterator._has_default_value it = true ->
  DefaultValueColumnIterator._default_value it = "NULL"%string ->
  let it' := DefaultValueColumnIterator.set_null_default it in
  DefaultValueColumnIterator.init debug_build it =
    (if debug_build && negb (DefaultValueColumnIterator._is_nullable it)
     then Fault CheckFailed else Ok it') /\
  DefaultValueColumnIterator._is_default_value_null it' = true /\
  (forall n dst,
     DefaultValueColumnIterator.next_batch it' n dst =
       (block_write dst
          (replicate (Z.to_nat n)
             {| null_bit := if is_nullable dst then Some true else None;
                data := None |}),
        true)).
Proof.
  intros Hdef Hnull it'. unfold DefaultValueColumnIterator.init.
  rewrite Hdef, Hnull. simpl. repeat split; done.
Qed.

Lemma default_null_init_witness :
  DefaultValueColumnIterator.init false Samples.null_default_nullable =
    Ok (DefaultValueColumnIterator.set_null_default Samples.null_default_nullable) /\
  (DefaultValueColumnIterator.next_batch
     (DefaultValueColumnIterator.set_null_default Samples.null_default_nullable)
     2 Samples.nullable_block).2 = true.
Proof.
  pose proof (default_null_init false Samples.null_default_nullable
                eq_refl eq_refl) as (Hinit & _ & Hbatch).
  split; [exact Hinit|]. by rewrite Hbatch.
Defined.

Section ArrayProperties.
Import ArrayFileColumnIterator.
Context {L I N : Type} `{ColumnIterator L} `{ColumnIterator I} `{ColumnIterator N}.

(** The statuses of the length child and of the item child are returned. *)
Lemma array_next_batch_length_error (it : t L I N) n dst has_null c :
  child_status (child_next_batch (_length_iterator it) n) = Error c ->
  next_batch it n dst has_null = Error c.
Proof. intros Hst. unfold next_batch. by rewrite Hst. Qed.

(** The status of the null child has no part in the result: when the length
    child and the item child succeed, so does [next_batch], whatever the
    null child answered. *)
Lemma array_next_batch_null_status_unused (it : t L I N) n dst has_null
    (null_iter : N) :
  child_status (child_next_batch (_length_iterator it) n) = Status_OK ->
  (forall k, child_status (child_next_batch (_item_iterator it) k) = Status_OK) ->
  is_nullable_array it = true ->
  _null_iterator it = Some null_iter ->
  is_ok (next_batch it n dst has_null) = true.
Proof.
  intros Hlen Hitem Hnullable Hnull. unfold next_batch.
  rewrite Hlen, Hnullable, Hnull.
  cbn [deref mbind Result_bind Status_OK].
  destruct (_ =? 0); [done|]. by rewrite Hitem.
Qed.

End ArrayProperties.

(** C8, at the failing input: the array column of
    [Samples.array_with_failing_null_child] is nullable and the read of its
    null child fails with [IOError]; [next_batch] returns OK with one row. *)
Theorem array_next_batch_discards_null_child_status :
  Samples.child_status_of_null_read = Error IOError /\
  exists b,
    ArrayFileColumnIterator.next_batch Samples.array_with_failing_null_child 1
      Samples.empty_array_block false = Ok b /\
    ArrayFileColumnIterator.array_n b = 1 /\
    ArrayFileColumnIterator.array_has_null b = true.
Proof. split; [reflexivity|]. eexists. split; [reflexivity|]. by split. Qed.

Lemma wrap64_small z : 0 <= z < two64 -> wrap64 z = z.
Proof. intros Hz. unfold wrap64. by apply Z.mod_small. Qed.

Lemma get_last_ordinal_bounded idx i :
  OrdinalIndex.bounded idx -> 0 <= OrdinalIndex.get_last_ordinal idx i < two64 - 1.
Proof.
  intros Hb. unfold OrdinalIndex.get_last_ordinal.
  destruct (idx !! i) as [p|] eqn:Hl; simpl.
  - exact (proj1 (Forall_lookup _ _) Hb i p Hl).
  - unfold two64. lia.
Qed.

Lemma last_ordinal_succ idx i :
  OrdinalIndex.bounded idx ->
  u64_add (OrdinalIndex.get_last_ordinal idx i) 1 =
    OrdinalIndex.get_last_ordinal idx i + 1.
Proof.
  intros Hb. apply wrap64_small.
  pose proof (get_last_ordinal_bounded idx i Hb). lia.
Qed.

Section PushdownProperties.
Import ColumnReader.
Context {W : Type} `{WrapperFieldOps W}.

Lemma calculate_loop_spec r idx page_indexes :
  _ordinal_index r = Some idx -> OrdinalIndex.bounded idx ->
  forall acc, RowRanges.nonempty acc ->
  exists out, calculate_loop r page_indexes acc = Ok out /\
    RowRanges.nonempty out /\
    forall x, RowRanges.rows out x <->
      RowRanges.rows acc x \/
      exists i, i ∈ page_indexes /\
        OrdinalIndex.get_first_ordinal idx i <= x
          < OrdinalIndex.get_last_ordinal idx i + 1.
Proof.
  intros Hidx Hb. induction page_indexes as [|i rest IH]; intros acc Hne; simpl.
  - exists acc. split; [done|]. split; [done|]. intros x. split; [by left|].
    intros [Hx|(i & Hin & _)]; [done|]. by apply elem_of_nil in Hin.
  - rewrite Hidx. simpl. rewrite (last_ordinal_succ _ _ Hb).
    destruct (ranges_union_spec
                (RowRanges.create_single (OrdinalIndex.get_first_ordinal idx i)
                   (OrdinalIndex.get_last_ordinal idx i + 1)) acc Hne)
      as [Hne' Hrows].
    destruct (IH _ Hne') as (out & Hout & Hneo & Hx).
    exists out. split; [done|]. split; [done|]. intros x.
    rewrite Hx, Hrows, create_single_rows. split.
    + intros [[Hacc|Hi]|(j & Hin & Hj)]; [by left| |].
      * right. exists i. split; [apply elem_of_cons; by left | done].
      * right. exists j. split; [apply elem_of_cons; by right | done].
    + intros [Hacc|(j & Hin & Hj)]; [by left; left|].
      apply elem_of_cons in Hin as [->|Hin]; [by left; right|].
      right. by exists j.
Qed.

Lemma bloom_loop_spec r idx bf_index (c : CondColumn W) page_ids :
  _ordinal_index r = Some idx -> OrdinalIndex.bounded idx ->
  (forall p, p ∈ page_ids -> is_ok (read_bloom_filter bf_index p) = true) ->
  forall acc, RowRanges.nonempty acc ->
  exists out, bloom_loop r bf_index (Some c) page_ids acc = Ok out /\
    RowRanges.nonempty out /\
    forall x, RowRanges.rows out x <->
      RowRanges.rows acc x \/
      exists p bf, p ∈ page_ids /\ read_bloom_filter bf_index p = Ok bf /\
        eval_bf c bf = true /\
        OrdinalIndex.get_first_ordinal idx p <= x
          < OrdinalIndex.get_last_ordinal idx p + 1.
Proof.
  intros Hidx Hb. induction page_ids as [|p rest IH]; intros Hread acc Hne; simpl.
  - exists acc. split; [done|]. split; [done|]. intros x. split; [by left|].
    intros [Hx|(p & bf & Hin & _)]; [done|]. by apply elem_of_nil in Hin.
  - assert (is_ok (read_bloom_filter bf_index p) = true) as Hp
      by (apply Hread, elem_of_cons; by left).
    destruct (read_bloom_filter bf_index p) as [bf| |] eqn:Hbf; try done.
    simpl. rewrite Hidx. simpl. rewrite (last_ordinal_succ _ _ Hb).
    assert (forall q, q ∈ rest -> is_ok (read_bloom_filter bf_index q) = true)
      as Hrest by (intros q Hq; apply Hread, elem_of_cons; by right).
    destruct (eval_bf c bf) eqn:Hev; simpl.
    + destruct (IH Hrest _ (add_nonempty
                  (OrdinalIndex.get_first_ordinal idx p,
                   OrdinalIndex.get_last_ordinal idx p + 1) acc Hne))
        as (out & Hout & Hneo & Hx).
      exists out. split; [done|]. split; [done|]. intros x.
      rewrite Hx, add_rows by done. simpl. split.
      * intros [[Hp'|Hacc]|(q & bf' & Hin & Hq)]; [|by left|].
        -- right. exists p, bf. split; [apply elem_of_cons; by left | done].
        -- right. exists q, bf'. split; [apply elem_of_cons; by right | done].
      * intros [Hacc|(q & bf' & Hin & Hq & Hev' & Hrange)]; [by left; right|].
        apply elem_of_cons in Hin as [->|Hin]; [by left; left|].
        right. by exists q, bf'.
    + destruct (IH Hrest _ Hne) as (out & Hout & Hneo & Hx).
      exists out. split; [done|]. split; [done|]. intros x.
      rewrite Hx. split.
      * intros [Hacc|(q & bf' & Hin & Hq)]; [by left|].
        right. exists q, bf'. split; [apply elem_of_cons; by right | done].
      * intros [Hacc|(q & bf' & Hin & Hq & Hev' & Hrange)]; [by left|].
        apply elem_of_cons in Hin as [->|Hin]; [congruence|].
        right. by exists q, bf'.
Qed.

(** C2: once the indexes are loaded, [get_row_ranges_by_zone_map] answers
    the same ranges whatever [row_ranges] held before the call, and a row
    is in them exactly when it is in [[first_ordinal(i), last_ordinal(i)+1)]
    for a page [i] that [_get_filtered_pages] accepted. *)
Theorem zone_map_row_ranges_replaced (r : ColumnReader.t)
    (cond del : option (CondColumn W)) zms idx :
  _ensure_index_loaded r = Status_OK ->
  _zone_map_index r = Some zms ->
  _ordinal_index r = Some idx ->
  OrdinalIndex.bounded idx ->
  exists st out,
    _get_filtered_pages r cond del [] = Ok st /\
    (forall row_ranges, get_row_ranges_by_zone_map r cond del row_ranges = Ok out) /\
    (forall x, RowRanges.rows out x <->
       exists i, i ∈ page_indexes st /\
         OrdinalIndex.get_first_ordinal idx i <= x
           < OrdinalIndex.get_last_ordinal idx i + 1).
Proof.
  intros Hload Hzm Hidx Hb.
  unfold get_row_ranges_by_zone_map, _get_filtered_pages, _calculate_row_ranges.
  rewrite Hload, Hzm. simpl.
  set (st := filter_pages_from cond del 0 zms _).
  destruct (calculate_loop_spec r idx (page_indexes st) Hidx Hb [] (Forall_nil_2 _))
    as (out & Hout & _ & Hrows).
  exists st, out. split; [done|]. split; [done|].
  intros x. rewrite Hrows, rows_nil. tauto.
Qed.

Lemma bounds_before_pass_all zms (b0 : W * W) :
  Forall (fun zm => pass_all zm = true) zms -> foldl parse_step b0 zms = b0.
Proof.
  induction 1 as [|zm rest Hp _ IH]; [done|].
  simpl. unfold parse_step at 2. by rewrite Hp.
Qed.

(** C3, amended: page [i] is accepted exactly when it is a page of the zone
    map index and it passes all, or else its zone is not empty, the
    condition (a null one counts as a match) matches its bounds and the
    delete condition, when present, does not answer [DEL_SATISFIED] on them.
    The bounds are those of the zone map of the page for every page that is
    parsed afresh: the loop makes the two containers once and parses every
    page that does not pass all into them, and nothing that an earlier page
    has left there stands after the parse of the page; the first page that
    does not pass all is parsed afresh.  For a page that passes all neither
    condition is evaluated; and a page with neither nulls nor values that
    does not pass all is never accepted. *)
Theorem filtered_pages_accepted (r : ColumnReader.t)
    (cond del : option (CondColumn W)) zms :
  _zone_map_index r = Some zms ->
  let bounds0 := (create_by_type (_type r) (_length r),
                  create_by_type (_type r) (_length r)) in
  exists st, _get_filtered_pages r cond del [] = Ok st /\
    (forall i, i ∈ page_indexes st -> (i < length zms)%nat) /\
    (forall i zm, zms !! i = Some zm ->
       pass_all zm = true \/ Pushdown.parsed_afresh zms bounds0 i zm ->
       (i ∈ page_indexes st <->
        page_accepted cond del zm (Pushdown.zone_bounds bounds0 zm) = true)) /\
    (forall i zm, zms !! i = Some zm ->
       Forall (fun zm' => pass_all zm' = true) (take i zms) ->
       Pushdown.parsed_afresh zms bounds0 i zm) /\
    (forall i zm call, zms !! i = Some zm -> pass_all zm = true ->
       (i, call) ∉ eval_log st) /\
    (forall i zm, zms !! i = Some zm -> pass_all zm = false ->
       has_not_null zm = false -> has_null zm = false ->
       i ∉ page_indexes st).
Proof.
  intros Hzm bounds0. unfold _get_filtered_pages. rewrite Hzm. simpl.
  set (st0 := {| page_indexes := []; min_value := _; max_value := _;
                 eval_log := [] |}).
  exists (filter_pages_from cond del 0 zms st0). split; [done|].
  assert (forall i, i ∈ page_indexes (filter_pages_from cond del 0 zms st0) <->
            exists zm, zms !! i = Some zm /\
              page_accepted cond del zm (page_bounds zms i bounds0 zm) = true)
    as Hiff.
  { intros i. rewrite filter_pages_from_indexes. simpl. split.
    - intros [Hin|(j & zm & -> & Hl & Hacc)]; [by apply elem_of_nil in Hin|].
      by exists zm.
    - intros (zm & Hl & Hacc). right. by exists i, zm. }
  split; [|split; [|split; [|split]]].
  - intros i Hin. apply Hiff in Hin as (zm & Hl & _). by eapply lookup_lt_Some.
  - intros i zm Hl Hfresh. rewrite Hiff. split.
    + intros (zm' & Hl' & Hacc). assert (zm' = zm) as -> by congruence.
      destruct Hfresh as [Hp|Hfresh].
      * unfold page_accepted. by rewrite Hp.
      * by rewrite <- Hfresh.
    + intros Hacc. exists zm. split; [done|].
      destruct Hfresh as [Hp|Hfresh].
      * unfold page_accepted. by rewrite Hp.
      * unfold Pushdown.parsed_afresh in Hfresh. by rewrite Hfresh.
  - intros i zm Hl Hall. unfold Pushdown.parsed_afresh, Pushdown.zone_bounds,
      page_bounds, bounds_before.
    by rewrite (bounds_before_pass_all _ bounds0 Hall).
  - intros i zm call Hl Hp Hin.
    apply filter_pages_from_log in Hin as [Hin|(j & zm' & -> & Hl' & Hp')].
    + by apply elem_of_nil in Hin.
    + simpl in Hl. congruence.
  - intros i zm Hl Hp Hnn Hn Hin. apply Hiff in Hin as (zm' & Hl' & Hacc).
    assert (zm' = zm) as -> by congruence.
    unfold page_accepted in Hacc. by rewrite Hp, Hnn, Hn in Hacc.
Qed.

(** C10: [ColumnReader::get_row_ranges_by_bloom_filter] called with a null
    condition dereferences it as soon as a covered page has a readable bloom
    filter; the wrapper of the iterator does not call it, and leaves
    [row_ranges] as it is, when the condition is null, when it cannot do
    bloom filtering and when the reader has no bloom filter index. *)
Theorem bloom_filter_null_condition (r : ColumnReader.t) bf_index row_ranges
    pid page_ids bf :
  _ensure_index_loaded r = Status_OK ->
  _bloom_filter_index r = Some bf_index ->
  new_iterator_status bf_index = Status_OK ->
  cover_ranges r row_ranges 0 (RowRanges.range_size row_ranges) [] =
    Ok (pid :: page_ids) ->
  read_bloom_filter bf_index pid = Ok bf ->
  get_row_ranges_by_bloom_filter (W := W) r None row_ranges = Fault NullDereference /\
  (forall it ranges,
     FileColumnIterator.get_row_ranges_by_bloom_filter (W := W) it None ranges
       = Ok ranges) /\
  (forall it (c : CondColumn W) ranges,
     can_do_bloom_filter c = false \/
     has_bloom_filter_index (FileColumnIterator._reader it) = false ->
     FileColumnIterator.get_row_ranges_by_bloom_filter it (Some c) ranges
       = Ok ranges).
Proof.
  intros Hload Hbf Hnew Hcover Hread. split; [|split].
  - unfold get_row_ranges_by_bloom_filter.
    rewrite Hload, Hbf. simpl. rewrite Hnew. simpl. rewrite Hcover. simpl.
    by rewrite Hread.
  - done.
  - intros it c ranges [Hc|Hr]; unfold FileColumnIterator.get_row_ranges_by_bloom_filter.
    + by rewrite Hc.
    + rewrite Hr. by rewrite andb_false_r.
Qed.

End PushdownProperties.

(** C3, as stated: a page whose zone map has neither nulls nor values would
    never be accepted.  The only page of
    [Samples.pass_all_empty_zone_reader] has such a zone map, with [pass_all]
    set, and it is accepted. *)
Lemma empty_zone_with_pass_all_is_accepted :
  ColumnReader._zone_map_index Samples.pass_all_empty_zone_reader =
    Some [Samples.zone "" "" false false true] /\
  ColumnReader.page_indexes <$>
    ColumnReader._get_filtered_pages (W := Samples.SampleField)
      Samples.pass_all_empty_zone_reader None None [] = Ok [0%nat].
Proof. split; reflexivity. Qed.

(** The two containers are not reset between pages.  With a [WrapperField]
    whose [from_string] leaves the null marker as it is, a page of values
    only is kept when it comes first and dropped when it follows a page of
    nulls only: it is not parsed afresh, its lower bound is still null. *)
Lemma page_after_null_page_keeps_null_marker :
  ColumnReader.page_indexes <$>
    ColumnReader._get_filtered_pages Samples.values_page_reader
      (Some Samples.min_not_null) None [] = Ok [0%nat] /\
  ColumnReader.page_indexes <$>
    ColumnReader._get_filtered_pages Samples.values_after_nulls_reader
      (Some Samples.min_not_null) None [] = Ok [] /\
  ~ Pushdown.parsed_afresh
      [Samples.zone "" "" true false false; Samples.zone "6" "9" false true false]
      (create_by_type OLAP_FIELD_TYPE_INT 4, create_by_type OLAP_FIELD_TYPE_INT 4)
      1 (Samples.zone "6" "9" false true false).
Proof.
  split; [reflexivity|]. split; [reflexivity|].
  intros Heq. discriminate Heq.
Qed.

Lemma pushdown_reader_bounded :
  OrdinalIndex.bounded
    (Samples.pages_of [(0, 99); (100, 199); (200, 299); (300, 399)]).
Proof.
  unfold OrdinalIndex.bounded, two64.
  repeat (apply Forall_cons; split; [simpl; lia|]). apply Forall_nil_2.
Defined.

Lemma zone_map_row_ranges_replaced_witness :
  exists st out,
    ColumnReader._get_filtered_pages Samples.pushdown_reader
      (Some Samples.above_ten) None [] = Ok st /\
    (forall row_ranges,
       ColumnReader.get_row_ranges_by_zone_map Samples.pushdown_reader
         (Some Samples.above_ten) None row_ranges = Ok out) /\
    (forall x, RowRanges.rows out x <->
       exists i, i ∈ ColumnReader.page_indexes st /\
         OrdinalIndex.get_first_ordinal
           (Samples.pages_of [(0, 99); (100, 199); (200, 299); (300, 399)]) i <= x
           < OrdinalIndex.get_last_ordinal
               (Samples.pages_of [(0, 99); (100, 199); (200, 299); (300, 399)]) i + 1).
Proof.
  apply (zone_map_row_ranges_replaced Samples.pushdown_reader
           (Some Samples.above_ten) None _ _ eq_refl eq_refl eq_refl
           pushdown_reader_bounded).
Defined.

Lemma filtered_pages_accepted_witness :
  exists st,
    ColumnReader._get_filtered_pages Samples.pushdown_reader
      (Some Samples.above_ten) None [] = Ok st /\
    (0%nat ∉ ColumnReader.page_indexes st) /\
    (1%nat ∈ ColumnReader.page_indexes st) /\
    (2%nat ∈ ColumnReader.page_indexes st) /\
    (3%nat ∉ ColumnReader.page_indexes st).
Proof.
  destruct (filtered_pages_accepted Samples.pushdown_reader
              (Some Samples.above_ten) None _ eq_refl)
    as (st & Hst & _ & Hiff & Hfirst & _ & Hempty).
  exists st. split; [exact Hst|]. split; [|split; [|split]].
  - intros Hin.
    apply (Hiff 0%nat (Samples.zone "1" "10" false true false) eq_refl) in Hin.
    + discriminate Hin.
    + right. apply Hfirst; [reflexivity|apply Forall_nil_2].
  - apply (Hiff 1%nat (Samples.zone "11" "20" false true true) eq_refl).
    + left. reflexivity.
    + reflexivity.
  - apply (Hiff 2%nat (Samples.zone "21" "30" false true false) eq_refl).
    + right. reflexivity.
    + reflexivity.
  - by apply (Hempty 3%nat (Samples.zone "" "" false false false)).
Defined.

Lemma bloom_filter_null_condition_witness :
  ColumnReader.get_row_ranges_by_bloom_filter (W := Samples.SampleField)
    Samples.pushdown_reader None [(0, 300)] = Fault NullDereference.
Proof.
  apply (bloom_filter_null_condition (W := Samples.SampleField)
           Samples.pushdown_reader _ [(0, 300)] 0%nat [1; 2]%nat [false]
           eq_refl eq_refl eq_refl eq_refl eq_refl).
Defined.

Section RowsOfPages.
Import Column.

Lemma count_unset_app l1 l2 :
  count_unset (l1 ++ l2) = (count_unset l1 + count_unset l2)%nat.
Proof. unfold count_unset. by rewrite filter_app, length_app. Qed.

Lemma count_unset_cons b l :
  count_unset (b :: l) = ((if b then 0 else 1) + count_unset l)%nat.
Proof. by destruct b. Qed.

Lemma count_unset_replicate k b :
  count_unset (replicate k b) = (if b then 0 else k)%nat.
Proof.
  induction k as [|k IH]; [by destruct b|].
  simpl replicate. rewrite count_unset_cons, IH. by destruct b.
Qed.

Lemma count_unset_le l : (count_unset l <= length l)%nat.
Proof. unfold count_unset. apply length_filter. Qed.

Lemma count_set_unset l :
  (RleDecoder.count_set l + count_unset l = length l)%nat.
Proof.
  unfold RleDecoder.count_set, count_unset.
  induction l as [|[] l IH]; [done| |].
  - rewrite filter_cons_True, filter_cons_False by done. simpl. lia.
  - rewrite filter_cons_False, filter_cons_True by done. simpl. lia.
Qed.

Lemma interleave_nulls k bits vals :
  interleave (replicate k true ++ bits) vals =
  replicate k None ++ interleave bits vals.
Proof. induction k as [|k IH]; simpl; [done|]. by rewrite IH. Qed.

Lemma interleave_values k bits vals :
  (k <= length vals)%nat ->
  interleave (replicate k false ++ bits) vals =
  map Some (take k vals) ++ interleave bits (drop k vals).
Proof.
  revert vals. induction k as [|k IH]; intros vals Hk; simpl; [done|].
  destruct vals as [|v vals]; simpl in *; [lia|].
  rewrite IH by lia. done.
Qed.

Lemma length_interleave bits : forall vals,
  (count_unset bits <= length vals)%nat ->
  length (interleave bits vals) = length bits.
Proof.
  induction bits as [|[] bits IH]; intros vals Hv; simpl; [done| |].
  - rewrite count_unset_cons in Hv. rewrite IH; [done|lia].
  - rewrite count_unset_cons in Hv.
    destruct vals as [|v vals]; simpl in *; [lia|]. rewrite IH; [done|lia].
Qed.

Lemma drop_interleave bits : forall k vals,
  (count_unset bits <= length vals)%nat ->
  drop k (interleave bits vals) =
  interleave (drop k bits) (drop (count_unset (take k bits)) vals).
Proof.
  induction bits as [|b bits IH]; intros k vals Hv.
  - simpl. by rewrite !drop_nil.
  - destruct k as [|k]; [done|].
    rewrite count_unset_cons in Hv.
    change (take (S k) (b :: bits)) with (b :: take k bits).
    rewrite count_unset_cons. destruct b; simpl.
    + by rewrite IH by lia.
    + destruct vals as [|v vals]; simpl in *; [lia|].
      by rewrite IH by lia.
Qed.

(** The run the null decoder finds at its cursor. *)
Lemma run_length_split b bits : forall m,
  exists tail,
    bits = replicate (RleDecoder.run_length b (take m bits)) b ++ tail /\
    (RleDecoder.run_length b (take m bits) <= m)%nat.
Proof.
  induction bits as [|b' bits IH]; intros m.
  - rewrite take_nil. exists []. split; [done|simpl; lia].
  - destruct m as [|m]; [exists (b' :: bits); split; [done|simpl; lia]|].
    simpl. case_bool_decide as Hb.
    + subst b'. destruct (IH m) as (tail & Htail & Hle).
      exists tail. simpl. split; [by rewrite <- Htail | lia].
    + exists (b' :: bits). split; [done|lia].
Qed.

Lemma run_length_pos b m bits :
  (0 < m)%nat -> (0 < RleDecoder.run_length b (take m (b :: bits)))%nat.
Proof.
  intros Hm. destruct m as [|m]; [lia|]. simpl.
  rewrite bool_decide_eq_true_2 by done. lia.
Qed.

End RowsOfPages.

Section Decoders.
Import Column.

Lemma run_cells_values bit (vals : list Value) :
  bit <> Some true ->
  map cell_value (run_cells bit (Z.of_nat (length vals)) vals) = map Some vals.
Proof.
  intros Hbit. unfold run_cells. rewrite Nat2Z.id, map_map.
  assert (forall j, cell_value {| null_bit := bit; data := vals !! j |} = vals !! j)
    as Hcell.
  { intros j. unfold cell_value. simpl. by rewrite bool_decide_eq_false_2. }
  erewrite map_ext; [|intros j; apply Hcell].
  clear Hcell Hbit. induction vals as [|v vals IH]; simpl; [done|].
  f_equal. rewrite <- IH, <- fmap_S_seq.
  change (S <$> seq 0 (length vals)) with (map S (seq 0 (length vals))).
  by rewrite map_map.
Qed.

Lemma run_cells_nulls run vals :
  map cell_value (run_cells (Some true) (Z.of_nat run) vals) = replicate run None.
Proof.
  unfold run_cells. rewrite Nat2Z.id, map_map.
  generalize 0%nat. induction run as [|run IH]; intros k; simpl; [done|].
  by rewrite IH.
Qed.

Lemma length_run_cells bit run vals :
  length (run_cells bit run vals) = Z.to_nat run.
Proof. unfold run_cells. by rewrite length_map, length_seq. Qed.

(** The run the null decoder returns: what it finds at its cursor are [run]
    equal bits, at least one and at most [max_run]. *)
Lemma GetNextRun_spec (d : RleDecoder.t) (max_run : Z) :
  0 < max_run ->
  (RleDecoder.pos d < length (RleDecoder.bits d))%nat ->
  exists run b tail,
    RleDecoder.GetNextRun d max_run =
      (Z.of_nat run, b,
       {| RleDecoder.bits := RleDecoder.bits d;
          RleDecoder.pos := (RleDecoder.pos d + run)%nat |}) /\
    drop (RleDecoder.pos d) (RleDecoder.bits d) = replicate run b ++ tail /\
    (1 <= run <= Z.to_nat max_run)%nat.
Proof.
  intros Hmax Hpos. unfold RleDecoder.GetNextRun.
  destruct (drop (RleDecoder.pos d) (RleDecoder.bits d)) as [|b rest] eqn:Hdrop.
  - apply (f_equal length) in Hdrop. rewrite length_drop in Hdrop. simpl in Hdrop. lia.
  - destruct (run_length_split b (b :: rest) (Z.to_nat max_run)) as (tail & Htail & Hle).
    exists (RleDecoder.run_length b (take (Z.to_nat max_run) (b :: rest))), b, tail.
    split; [done|]. split; [done|]. split; [|done].
    apply (run_length_pos b (Z.to_nat max_run) rest). lia.
Qed.

End Decoders.

Lemma u64_add_small a b : 0 <= a + b < two64 -> u64_add a b = a + b.
Proof. apply wrap64_small. Qed.

Lemma u64_sub_small a b : 0 <= a - b < two64 -> u64_sub a b = a - b.
Proof. apply wrap64_small. Qed.

Lemma block_write_nil dst : block_write dst [] = dst.
Proof. destruct dst. unfold block_write. simpl. by rewrite app_nil_r. Qed.

Lemma block_write_app dst cs1 cs2 :
  block_write (block_write dst cs1) cs2 = block_write dst (cs1 ++ cs2).
Proof. unfold block_write. simpl. by rewrite app_assoc. Qed.

Lemma take_drop_split {A} (l : list A) k a b :
  take (a + b) (drop k l) = take a (drop k l) ++ take b (drop (k + a) l).
Proof. by rewrite <- take_take_drop, drop_drop. Qed.

Section ReadPage.
Import Column IteratorState FileColumnIterator.

Lemma read_runs_unfold fuel nrows st :
  read_runs fuel nrows st =
  if nrows >? 0 then
    match fuel with
    | O => None
    | S fuel' =>
        let '(this_run, is_null, null_decoder) :=
          RleDecoder.GetNextRun (ParsedPage.null_decoder (page st)) nrows in
        let '(vals, data_decoder) :=
          if negb is_null
          then PageDecoder.next_batch (ParsedPage.data_decoder (page st)) this_run
          else ([], ParsedPage.data_decoder (page st)) in
        read_runs fuel' (u64_sub nrows this_run)
          {| page :=
               {| ParsedPage.first_ordinal := ParsedPage.first_ordinal (page st);
                  ParsedPage.num_rows := ParsedPage.num_rows (page st);
                  ParsedPage.offset_in_page :=
                    u64_add (ParsedPage.offset_in_page (page st)) this_run;
                  ParsedPage.data_decoder := data_decoder;
                  ParsedPage.has_null := ParsedPage.has_null (page st);
                  ParsedPage.null_bitmap := ParsedPage.null_bitmap (page st);
                  ParsedPage.null_decoder := null_decoder;
                  ParsedPage.page_index := ParsedPage.page_index (page st) |};
             dst := block_write (dst st) (run_cells (Some is_null) this_run vals);
             current_ordinal := u64_add (current_ordinal st) this_run;
             has_null := has_null st || is_null |}
    end
  else Some st.
Proof. by destruct fuel. Qed.

(** The rows of a page with a bitmap, from a position on. *)
Lemma page_rows_from dp (off : nat) :
  wf_page dp -> ColumnReader.dp_has_null dp = true ->
  drop off (page_rows dp) =
  interleave (drop off (ColumnReader.dp_null_bitmap dp))
    (drop (count_unset (take off (ColumnReader.dp_null_bitmap dp)))
          (ColumnReader.dp_values dp)).
Proof.
  intros [_ Hwf] Hnull. unfold page_rows. rewrite Hnull in *.
  apply drop_interleave. lia.
Qed.

Lemma read_runs_spec dp :
  wf_page dp -> ColumnReader.dp_has_null dp = true ->
  ColumnReader.dp_num_values dp < two64 ->
  forall fuel nrows st,
  page_inv dp (page st) ->
  0 <= nrows ->
  ParsedPage.offset_in_page (page st) + nrows <= ColumnReader.dp_num_values dp ->
  (Z.to_nat nrows <= fuel)%nat ->
  0 <= current_ordinal st -> current_ordinal st + nrows < two64 ->
  exists st' cs,
    read_runs fuel nrows st = Some st' /\
    page_inv dp (page st') /\
    ParsedPage.page_index (page st') = ParsedPage.page_index (page st) /\
    ParsedPage.offset_in_page (page st') =
      ParsedPage.offset_in_page (page st) + nrows /\
    current_ordinal st' = current_ordinal st + nrows /\
    dst st' = block_write (dst st) cs /\
    map cell_value cs =
      take (Z.to_nat nrows)
        (drop (Z.to_nat (ParsedPage.offset_in_page (page st))) (page_rows dp)).
Proof.
  intros Hwf Hnull Hnum. pose proof Hwf as [Hpos Hlen]. rewrite Hnull in Hlen.
  destruct Hlen as [Hbits Hvals].
  induction fuel as [|fuel IH]; intros nrows st Hinv Hn Hoff Hfuel Hcur Hcur';
    rewrite read_runs_unfold.
  - assert (nrows = 0) as -> by lia. simpl.
    exists st, []. rewrite block_write_nil, !Z.add_0_r. by repeat (split; [done|]).
  - destruct (Z.gtb_spec nrows 0) as [Hgt|Hle].
    2:{ assert (nrows = 0) as -> by lia.
        exists st, []. rewrite block_write_nil, !Z.add_0_r. by repeat (split; [done|]). }
    destruct Hinv as (Hfirst & Hrows & Hhas & Hbitmap & Hdvals & Hdbits & Hrange & Hdec).
    rewrite Hhas, Hnull in Hdec. destruct Hdec as [Hdpos Hdcur].
    destruct (GetNextRun_spec (ParsedPage.null_decoder (page st)) nrows)
      as (run & b & tail & Hrun & Hdrop & Hrunle); [lia| |].
    { rewrite Hdbits, Hdpos. lia. }
    rewrite Hrun. rewrite Hdbits, Hdpos in Hdrop.
    set (off := Z.to_nat (ParsedPage.offset_in_page (page st))) in *.
    (* the values still before the data decoder *)
    assert (length (drop (PageDecoder.cur (ParsedPage.data_decoder (page st)))
                      (ColumnReader.dp_values dp)) =
            count_unset (drop off (ColumnReader.dp_null_bitmap dp))) as Hrest.
    { rewrite length_drop, Hdcur, Hvals.
      rewrite <- (take_drop off (ColumnReader.dp_null_bitmap dp)) at 1.
      rewrite count_unset_app. lia. }
    rewrite Hdrop, count_unset_app, count_unset_replicate in Hrest.
    (* what the decoders were given in this run *)
    set (vals := if negb b
                 then take run (drop (PageDecoder.cur (ParsedPage.data_decoder (page st)))
                                  (PageDecoder.values (ParsedPage.data_decoder (page st))))
                 else []).
    assert (map cell_value (run_cells (Some b) (Z.of_nat run) vals) =
            take run (drop off (page_rows dp)) /\
            length vals = (if b then 0 else run)%nat) as [Hcells Hlenvals].
    { rewrite (page_rows_from dp off Hwf Hnull), Hdrop, <- Hdcur. subst vals.
      destruct b; simpl negb; cbv iota.
      - rewrite interleave_nulls, run_cells_nulls.
        rewrite take_app_length'; [done | by rewrite length_replicate].
      - rewrite Hdvals.
        assert (length (take run (drop (PageDecoder.cur (ParsedPage.data_decoder (page st)))
                                    (ColumnReader.dp_values dp))) = run) as Hl.
        { rewrite length_take. lia. }
        rewrite interleave_values by lia.
        rewrite take_app_length' by (by rewrite length_map).
        rewrite <- Hl at 1. split; [|done]. by apply run_cells_values. }
    assert (u64_sub nrows (Z.of_nat run) = nrows - Z.of_nat run) as Hsub
      by (apply u64_sub_small; lia).
    assert (u64_add (ParsedPage.offset_in_page (page st)) (Z.of_nat run) =
            ParsedPage.offset_in_page (page st) + Z.of_nat run) as Hadd1
      by (apply u64_add_small; lia).
    assert (u64_add (current_ordinal st) (Z.of_nat run) =
            current_ordinal st + Z.of_nat run) as Hadd2
      by (apply u64_add_small; lia).
    assert ((if negb b
             then PageDecoder.next_batch (ParsedPage.data_decoder (page st))
                    (Z.of_nat run)
             else ([], ParsedPage.data_decoder (page st))) =
            (vals, {| PageDecoder.values := ColumnReader.dp_values dp;
                      PageDecoder.cur :=
                        (PageDecoder.cur (ParsedPage.data_decoder (page st)) +
                         length vals)%nat |})) as ->.
    { subst vals. unfold PageDecoder.next_batch. rewrite Nat2Z.id.
      destruct b; simpl negb; cbv iota.
      - destruct (ParsedPage.data_decoder (page st)) as [vs c]. simpl in *.
        by rewrite Hdvals, Nat.add_0_r.
      - by rewrite Hdvals. }
    rewrite Hsub, Hadd1, Hadd2.
    match goal with
    | |- context [read_runs fuel _ ?s] =>
        destruct (IH (nrows - Z.of_nat run) s)
          as (st' & cs & Hrd & Hinv' & Hidx' & Hoff' & Hcur'' & Hdst & Hcs)
    end; simpl; try lia.
    { (* the invariant after the run *)
      unfold page_inv. simpl. rewrite Hhas, Hnull.
      repeat (split; [done || lia|]).
      rewrite Z2Nat.inj_add, Nat2Z.id by lia. fold off.
      rewrite <- take_take_drop, count_unset_app, Hdrop.
      rewrite take_app_length' by (by rewrite length_replicate).
      rewrite count_unset_replicate, Hlenvals, Hdcur. done. }
    exists st', (run_cells (Some b) (Z.of_nat run) vals ++ cs).
    split; [exact Hrd|]. split; [exact Hinv'|].
    simpl in *. repeat (split; [done || lia|]).
    split; [by rewrite Hdst, block_write_app|].
    rewrite map_app, Hcells, Hcs.
    replace (Z.to_nat nrows) with (run + Z.to_nat (nrows - Z.of_nat run))%nat by lia.
    rewrite take_drop_split. f_equal. f_equal. f_equal. lia.
Qed.

End ReadPage.

Section SeekInPage.
Import Column IteratorState FileColumnIterator.

Lemma length_page_rows dp :
  wf_page dp -> Z.of_nat (length (page_rows dp)) = ColumnReader.dp_num_values dp.
Proof.
  intros [_ Hwf]. unfold page_rows.
  destruct (ColumnReader.dp_has_null dp).
  - destruct Hwf as [Hbits Hvals]. rewrite length_interleave; [done|lia].
  - by rewrite length_map.
Qed.

Lemma read_plain_spec dp nrows st :
  wf_page dp -> ColumnReader.dp_has_null dp = false ->
  ColumnReader.dp_num_values dp < two64 ->
  page_inv dp (page st) ->
  0 <= nrows ->
  ParsedPage.offset_in_page (page st) + nrows <= ColumnReader.dp_num_values dp ->
  0 <= current_ordinal st -> current_ordinal st + nrows < two64 ->
  exists cs,
    page_inv dp (page (read_plain nrows st)) /\
    ParsedPage.page_index (page (read_plain nrows st)) =
      ParsedPage.page_index (page st) /\
    ParsedPage.offset_in_page (page (read_plain nrows st)) =
      ParsedPage.offset_in_page (page st) + nrows /\
    current_ordinal (read_plain nrows st) = current_ordinal st + nrows /\
    dst (read_plain nrows st) = block_write (dst st) cs /\
    map cell_value cs =
      take (Z.to_nat nrows)
        (drop (Z.to_nat (ParsedPage.offset_in_page (page st))) (page_rows dp)).
Proof.
  intros [Hpos Hlen] Hnull Hnum Hinv Hn Hoff Hcur Hcur'. rewrite Hnull in Hlen.
  destruct Hinv as (Hfirst & Hrows & Hhas & Hbitmap & Hdvals & Hdbits & Hrange & Hdec).
  rewrite Hhas, Hnull in Hdec.
  unfold read_plain, PageDecoder.next_batch. rewrite Hdvals, Hdec.
  set (off := Z.to_nat (ParsedPage.offset_in_page (page st))).
  set (vals := take (Z.to_nat nrows) (drop off (ColumnReader.dp_values dp))).
  assert (length vals = Z.to_nat nrows) as Hl.
  { subst vals. rewrite length_take, length_drop. lia. }
  rewrite Hl, Z2Nat.id by lia.
  rewrite !u64_add_small by lia.
  eexists. simpl. split.
  { unfold page_inv. simpl. rewrite Hhas, Hnull.
    repeat (split; [done || lia|]). lia. }
  repeat (split; [done|]).
  unfold page_rows. rewrite Hnull.
  rewrite <- (Z2Nat.id nrows), <- Hl by lia.
  rewrite run_cells_values by (by destruct (is_nullable (dst st))).
  rewrite Nat2Z.id, Hl. subst vals. by rewrite skipn_map, firstn_map.
Qed.

Lemma count_set_unset_take k bits :
  (k <= length bits)%nat ->
  (RleDecoder.count_set (take k bits) + count_unset (take k bits) = k)%nat.
Proof. intros Hk. rewrite count_set_unset, length_take. lia. Qed.

(** [_seek_to_pos_in_page] leaves the decoders where the target says. *)
Lemma seek_to_pos_in_page_spec dp p target :
  wf_page dp -> ColumnReader.dp_num_values dp < two64 ->
  page_inv dp p ->
  0 <= target <= ColumnReader.dp_num_values dp ->
  page_inv dp (_seek_to_pos_in_page p target) /\
  ParsedPage.offset_in_page (_seek_to_pos_in_page p target) = target /\
  ParsedPage.page_index (_seek_to_pos_in_page p target) = ParsedPage.page_index p /\
  ParsedPage.first_ordinal (_seek_to_pos_in_page p target) = ParsedPage.first_ordinal p.
Proof.
  intros [Hpos Hlen] Hnum Hinv Htarget. pose proof Hinv as Hinv0.
  destruct Hinv as (Hfirst & Hrows & Hhas & Hbitmap & Hdvals & Hdbits & Hrange & Hdec).
  unfold _seek_to_pos_in_page.
  destruct (Z.eqb_spec (ParsedPage.offset_in_page p) target) as [Heq|Hne]; [done|].
  rewrite Hhas in *. destruct (ColumnReader.dp_has_null dp) eqn:Hnull.
  - destruct Hlen as [Hbits Hvals]. destruct Hdec as [Hdpos Hdcur].
    set (off := Z.to_nat (ParsedPage.offset_in_page p)) in *.
    destruct (Z.gtb_spec target (ParsedPage.offset_in_page p)) as [Hfwd|Hbwd].
    + (* forward: the null decoder skips on from where it is *)
      unfold RleDecoder.Skip, PageDecoder.current_index.
      rewrite (u64_sub_small target) by lia. rewrite Hdbits, Hdpos.
      set (skips := Z.to_nat (target - ParsedPage.offset_in_page p)).
      assert (length (take skips (drop off (ColumnReader.dp_null_bitmap dp))) = skips)
        as Hl by (rewrite length_take, length_drop; lia).
      pose proof (count_set_unset (take skips (drop off (ColumnReader.dp_null_bitmap dp))))
        as Hcount. rewrite Hl in Hcount.
      assert (PageDecoder.cur (ParsedPage.data_decoder p) <= off)%nat as Hcur.
      { rewrite Hdcur.
        pose proof (count_unset_le (take off (ColumnReader.dp_null_bitmap dp))) as Hle.
        rewrite length_take in Hle. lia. }
      rewrite u64_add_small by lia. rewrite u64_sub_small by lia.
      simpl. split; [|done].
      unfold page_inv. simpl. rewrite ?Hhas, ?Hnull.
      repeat (split; [done || lia|]).
      replace (Z.to_nat target) with (off + skips)%nat by lia.
      rewrite <- take_take_drop, count_unset_app. lia.
    + (* backward: the null decoder starts again from the bitmap *)
      unfold RleDecoder.Skip, RleDecoder.create. simpl.
      rewrite Hbitmap, drop_0.
      assert (length (take (Z.to_nat target) (ColumnReader.dp_null_bitmap dp)) =
              Z.to_nat target) as Hl by (rewrite length_take; lia).
      pose proof (count_set_unset (take (Z.to_nat target) (ColumnReader.dp_null_bitmap dp)))
        as Hcount. rewrite Hl in Hcount.
      rewrite u64_add_small by lia. rewrite u64_sub_small by lia.
      split; [|done].
      unfold page_inv. simpl. rewrite ?Hhas, ?Hnull.
      repeat (split; [done || lia|]). lia.
  - simpl. split; [|done].
    unfold page_inv. simpl. rewrite ?Hhas, ?Hnull.
    repeat (split; [done || lia|]). done.
Qed.

(** What the decoders have passed adds up to [offset_in_page]. *)
Lemma page_inv_consumed dp p :
  wf_page dp -> ColumnReader.dp_has_null dp = true ->
  page_inv dp p -> consumed p = ParsedPage.offset_in_page p.
Proof.
  intros [Hpos Hlen] Hnull Hinv.
  destruct Hinv as (Hfirst & Hrows & Hhas & Hbitmap & Hdvals & Hdbits & Hrange & Hdec).
  rewrite Hhas, Hnull in *. destruct Hlen as [Hbits Hvals]. destruct Hdec as [Hdpos Hdcur].
  unfold consumed. rewrite Hdcur, Hdpos, Hdbits.
  pose proof (count_set_unset_take (Z.to_nat (ParsedPage.offset_in_page p))
                (ColumnReader.dp_null_bitmap dp)). lia.
Qed.

End SeekInPage.

Section Columns.
Import Column.

Lemma wf_pages_length pages : forall start idx,
  wf_pages start idx pages -> length idx = length pages.
Proof.
  induction pages as [|dp pages IH]; intros start [|e idx] Hwf; simpl in *; try done.
  destruct Hwf as (_ & _ & _ & _ & Hwf). f_equal. by eapply IH.
Qed.

Lemma total_rows_nonneg pages start idx :
  wf_pages start idx pages -> 0 <= total_rows pages.
Proof.
  revert start idx.
  induction pages as [|dp pages IH]; intros start [|e idx] Hwf; simpl in *; try done.
  destruct Hwf as (_ & _ & _ & [Hpos _] & Hwf). apply IH in Hwf. lia.
Qed.

Lemma total_rows_app l1 l2 : total_rows (l1 ++ l2) = total_rows l1 + total_rows l2.
Proof. induction l1 as [|dp l1 IH]; simpl; [done|]. rewrite IH. lia. Qed.

Lemma all_rows_app l1 l2 : all_rows (l1 ++ l2) = all_rows l1 ++ all_rows l2.
Proof. unfold all_rows. by rewrite map_app, concat_app. Qed.

(** Page [j] of a well-formed column. *)
Lemma wf_pages_lookup pages : forall start idx j dp,
  wf_pages start idx pages -> pages !! j = Some dp ->
  wf_page dp /\
  ColumnReader.dp_first_ordinal dp = start + total_rows (take j pages) /\
  0 <= total_rows (take j pages) /\
  total_rows (take j pages) + ColumnReader.dp_num_values dp <= total_rows pages /\
  Z.of_nat (length (all_rows (take j pages))) = total_rows (take j pages) /\
  exists e, idx !! j = Some e /\
    OrdinalIndex.first_ordinal e = ColumnReader.dp_first_ordinal dp /\
    OrdinalIndex.last_ordinal e =
      ColumnReader.dp_first_ordinal dp + ColumnReader.dp_num_values dp - 1.
Proof.
  induction pages as [|dp0 pages IH]; intros start [|e idx] j dp Hwf Hl;
    simpl in *; try done.
  destruct Hwf as (Hf & Hlast & Hdf & Hwfp & Hwf).
  pose proof (total_rows_nonneg _ _ _ Hwf) as Hnn.
  destruct j as [|j]; simpl in *.
  - inversion Hl; subst dp0. destruct Hwfp as [Hpos ?].
    repeat (split; [done || lia|]). exists e. repeat split; congruence.
  - destruct (IH _ _ _ _ Hwf Hl) as (Hwfd & Hfirst & Hnn' & Hle & Hlen & e' & He & Hfe & Hle').
    pose proof (length_page_rows dp0 Hwfp) as Hl0.
    split; [done|]. split; [lia|]. split; [destruct Hwfp; lia|]. split; [lia|].
    split.
    + change (all_rows (dp0 :: take j pages))
        with (page_rows dp0 ++ all_rows (take j pages)).
      rewrite length_app. lia.
    + by exists e'.
Qed.

Lemma all_rows_split pages j dp :
  pages !! j = Some dp ->
  all_rows pages =
    all_rows (take j pages) ++ page_rows dp ++ all_rows (drop (S j) pages).
Proof.
  intros Hl. rewrite <- (take_drop_middle pages j dp Hl) at 1.
  rewrite all_rows_app. done.
Qed.

Lemma last_at_or_before_none ord idx : forall i,
  Forall (fun e => ord < OrdinalIndex.first_ordinal e) idx ->
  OrdinalIndex.last_at_or_before ord i idx = None.
Proof.
  induction idx as [|e idx IH]; intros i Hall; simpl; [done|].
  apply Forall_cons in Hall as [He Hall]. rewrite IH by done.
  destruct (Z.leb_spec (OrdinalIndex.first_ordinal e) ord); [lia|done].
Qed.

Lemma wf_pages_firsts pages : forall start idx,
  wf_pages start idx pages ->
  Forall (fun e => start <= OrdinalIndex.first_ordinal e) idx.
Proof.
  induction pages as [|dp pages IH]; intros start [|e idx] Hwf; simpl in *; try done.
  destruct Hwf as (Hf & _ & _ & [Hpos _] & Hwf).
  apply Forall_cons. split; [lia|].
  eapply Forall_impl; [by eapply IH|]. simpl. intros. lia.
Qed.

(** [seek_at_or_before] finds the page of an ordinal of the column. *)
Lemma last_at_or_before_spec pages : forall start idx i ord,
  wf_pages start idx pages ->
  start <= ord < start + total_rows pages ->
  exists j dp,
    OrdinalIndex.last_at_or_before ord i idx = Some (i + j)%nat /\
    pages !! j = Some dp /\
    ColumnReader.dp_first_ordinal dp <= ord
      < ColumnReader.dp_first_ordinal dp + ColumnReader.dp_num_values dp.
Proof.
  induction pages as [|dp pages IH]; intros start [|e idx] i ord Hwf Hord;
    simpl in *; try done; [lia|].
  destruct Hwf as (Hf & Hlast & Hdf & Hwfp & Hwf).
  destruct (Z.lt_ge_cases ord (start + ColumnReader.dp_num_values dp)) as [Hin|Hout].
  - rewrite last_at_or_before_none.
    + destruct (Z.leb_spec (OrdinalIndex.first_ordinal e) ord); [|lia].
      exists 0%nat, dp. rewrite Nat.add_0_r. split; [done|]. split; [done|]. lia.
    + eapply Forall_impl; [by eapply wf_pages_firsts|]. simpl. intros. lia.
  - destruct (IH _ _ (S i) ord Hwf) as (j & dp' & Hseek & Hl & Hr); [lia|].
    exists (S j), dp'. rewrite Hseek. split; [f_equal; lia|]. by split.
Qed.

End Columns.

Lemma take_app_split {A} (q r : list A) (k n : nat) :
  (k <= n)%nat -> (k <= length q)%nat ->
  take n (q ++ r) = take k q ++ take (n - k) (drop k q ++ r).
Proof.
  intros Hkn Hk. rewrite <- (take_drop k q) at 1. rewrite <- app_assoc.
  rewrite take_app_ge by (rewrite length_take; lia).
  rewrite length_take. f_equal. f_equal. lia.
Qed.

Lemma drop_app_split {A} (q r : list A) (k n : nat) :
  (k <= n)%nat -> (k <= length q)%nat ->
  drop n (q ++ r) = drop (n - k) (drop k q ++ r).
Proof.
  intros Hkn Hk. rewrite <- (drop_app_le q r k) by done.
  rewrite drop_drop. f_equal. lia.
Qed.

Section Batches.
Import Column IteratorState FileColumnIterator.
Context (r : ColumnReader.t) (idx : OrdinalIndex.t) (pages : list ColumnReader.DataPage).
Hypothesis Hwf : wf_column r idx pages.

Lemma wf_column_page j dp :
  pages !! j = Some dp ->
  wf_page dp /\
  ColumnReader.dp_first_ordinal dp = total_rows (take j pages) /\
  0 <= ColumnReader.dp_first_ordinal dp /\
  ColumnReader.dp_first_ordinal dp + ColumnReader.dp_num_values dp <= total_rows pages /\
  ColumnReader.dp_num_values dp < two64 /\
  ColumnReader.read_page r j = Ok dp.
Proof.
  intros Hl. destruct Hwf as (Hload & Hidx & Hdata & Hdict & Hpages & Htotal).
  destruct (wf_pages_lookup _ _ _ _ _ Hpages Hl)
    as (Hwfp & Hfirst & Hnn & Hle & _ & _).
  pose proof Hwfp as [Hpos _].
  repeat (split; [done || lia|]).
  unfold ColumnReader.read_page. rewrite Hdata, list_lookup_fmap, Hl. done.
Qed.

Lemma page_iter_valid_spec it j :
  _reader it = r -> _page_iter it = Some j ->
  page_iter_valid it = Ok (bool_decide (j < length pages)%nat).
Proof.
  intros Hr Hj. destruct Hwf as (Hload & Hidx & Hdata & Hdict & Hpages & Htotal).
  unfold page_iter_valid. rewrite Hj, Hr, Hidx. simpl.
  unfold OrdinalIndex.valid, OrdinalIndex.num_pages.
  by rewrite (wf_pages_length _ _ _ Hpages).
Qed.

(** A read of a data page leaves the page parsed, at its start. *)
Lemma read_data_page_spec it j dp :
  _reader it = r -> pages !! j = Some dp ->
  exists it',
    _read_data_page it j = Ok it' /\
    _reader it' = r /\
    _page it' = Some (ParsedPage.create dp j) /\
    _page_iter it' = _page_iter it /\
    _current_ordinal it' = _current_ordinal it /\
    exists tail, page_reads it' = page_reads it ++ DataPageRead j :: tail.
Proof.
  intros Hr Hl. destruct (wf_column_page j dp Hl) as (_ & _ & _ & _ & _ & Hread).
  destruct Hwf as (Hload & Hidx & Hdata & Hdict & Hpages & Htotal).
  unfold _read_data_page, OrdinalIndex.page_index. rewrite Hr, Hread. simpl.
  destruct (_ && _ && _).
  - rewrite Hdict. simpl. eexists. repeat (split; [done|]).
    exists [DictPageRead]. simpl. by rewrite <- app_assoc.
  - eexists. repeat (split; [done|]). by exists [].
Qed.

Lemma page_inv_create j dp :
  pages !! j = Some dp -> page_inv dp (ParsedPage.create dp j).
Proof.
  intros Hl. destruct (wf_column_page j dp Hl) as ([Hpos Hlen] & _).
  unfold page_inv, ParsedPage.create. simpl.
  repeat (split; [done || lia|]). by destruct (ColumnReader.dp_has_null dp).
Qed.

Lemma positioned_rest_rows it :
  positioned r pages it ->
  rest_rows pages it = drop (Z.to_nat (position it)) (all_rows pages).
Proof.
  intros (Hr & p & dp & j & Hp & Hl & Hinv & Hcur & Hj & Hiter).
  unfold rest_rows, position. rewrite Hp, Hl.
  destruct Hwf as (Hload & Hidx & Hdata & Hdict & Hpages & Htotal).
  destruct (wf_pages_lookup _ _ _ _ _ Hpages Hl)
    as (Hwfp & Hfirst & Hnn & Hle & Hlen & _).
  destruct Hinv as (Hpf & Hrows & _ & _ & _ & _ & Hrange & _).
  pose proof (length_page_rows dp Hwfp) as Hlp.
  rewrite (all_rows_split pages _ dp Hl).
  rewrite drop_app_ge by lia.
  replace (Z.to_nat (ParsedPage.first_ordinal p + ParsedPage.offset_in_page p) -
           length (all_rows (take (ParsedPage.page_index p) pages)))%nat
    with (Z.to_nat (ParsedPage.offset_in_page p)) by lia.
  by rewrite drop_app_le by lia.
Qed.

End Batches.

Section BatchLoop.
Import Column IteratorState FileColumnIterator.
Context (r : ColumnReader.t) (idx : OrdinalIndex.t) (pages : list ColumnReader.DataPage).
Hypothesis Hwf : wf_column r idx pages.

Lemma batch_loop_unfold fuel it remaining dst has_null :
  batch_loop fuel it remaining dst has_null =
  if remaining >? 0 then
    match fuel with
    | O => None
    | S fuel' =>
        let loaded :=
          if from_option ParsedPage.has_remaining false (_page it)
          then Ok (it, false)
          else _load_next_page it in
        match loaded with
        | Error c => Some (Error c)
        | Fault f => Some (Fault f)
        | Ok (it1, true) =>
            Some (Ok {| iter := it1; n := remaining; block := dst;
                        batch_has_null := has_null |})
        | Ok (it1, false) =>
            match _page it1 with
            | None => Some (Fault NullDereference)
            | Some page =>
                let nrows_in_page := Z.min remaining (ParsedPage.remaining page) in
                let st := {| page := page; dst := dst;
                             current_ordinal := _current_ordinal it1;
                             has_null := has_null |} in
                match (if ParsedPage.has_null page
                       then read_runs fuel nrows_in_page st
                       else Some (read_plain nrows_in_page st)) with
                | None => None
                | Some st' =>
                    batch_loop fuel'
                      (set_current_ordinal (set_page it1 (FileColumnIterator.page st'))
                         (current_ordinal st'))
                      (u64_sub remaining nrows_in_page)
                      (FileColumnIterator.dst st') (FileColumnIterator.has_null st')
                end
            end
        end
    end
  else Some (Ok {| iter := it; n := remaining; block := dst;
                   batch_has_null := has_null |}).
Proof. by destruct fuel. Qed.

(** The page test at the head of the loop: either the column is at its
    end, or the iterator is in a page with rows left, the rows to come
    being the same. *)
Lemma ensure_page_spec it :
  positioned r pages it ->
  let loaded :=
    if from_option ParsedPage.has_remaining false (_page it)
    then Ok (it, false)
    else _load_next_page it in
  (exists it1, loaded = Ok (it1, true) /\ positioned r pages it1 /\
     rest_rows pages it = [] /\ rest_rows pages it1 = []) \/
  (exists it1 p dp, loaded = Ok (it1, false) /\ positioned r pages it1 /\
     _page it1 = Some p /\ pages !! ParsedPage.page_index p = Some dp /\
     page_inv dp p /\
     ParsedPage.offset_in_page p < ParsedPage.num_rows p /\
     rest_rows pages it1 = rest_rows pages it).
Proof.
  intros Hpos. pose proof Hpos as (Hr & p & dp & j & Hp & Hl & Hinv & Hcur & Hj & Hiter).
  simpl. rewrite Hp. simpl. unfold ParsedPage.has_remaining.
  destruct (Z.ltb_spec (ParsedPage.offset_in_page p) (ParsedPage.num_rows p)) as [Hrem|Hend].
  { right. exists it, p, dp. by repeat (split; [done|]). }
  (* the page is exhausted: the next page is loaded *)
  destruct (wf_column_page r idx pages Hwf _ dp Hl) as (Hwfp & Hfirst & Hnn & Hle & Hnum & _).
  pose proof (length_page_rows dp Hwfp) as Hlp.
  pose proof Hinv as (Hpf & Hrows & _ & _ & _ & _ & Hrange & _).
  assert (drop (Z.to_nat (ParsedPage.offset_in_page p)) (page_rows dp) = []) as Hdrop
    by (apply drop_ge; lia).
  unfold _load_next_page. rewrite Hj. simpl.
  rewrite (page_iter_valid_spec r idx pages Hwf _ (OrdinalIndex.next j)) by done.
  simpl. unfold OrdinalIndex.next. case_bool_decide as Hvalid; simpl.
  - (* a page follows *)
    destruct Hiter as [->|[Hge _]]; [|lia].
    destruct (lookup_lt_is_Some_2 pages (S (ParsedPage.page_index p)) Hvalid)
      as [dp' Hl'].
    destruct (read_data_page_spec r idx pages Hwf
                (set_page_iter it (S (ParsedPage.page_index p))) _ dp' Hr Hl')
      as (it2 & Hread & Hr2 & Hp2 & Hj2 & Hc2 & _).
    rewrite Hread. simpl. rewrite Hp2. simpl.
    destruct (wf_column_page r idx pages Hwf _ dp' Hl')
      as (Hwfp' & Hfirst' & Hnn' & Hle' & Hnum' & _).
    pose proof Hwfp' as [Hpos' _].
    right. exists (set_page it2 (ParsedPage.create dp' (S (ParsedPage.page_index p)))),
             (ParsedPage.create dp' (S (ParsedPage.page_index p))), dp'.
    split; [done|]. split.
    { split; [done|].
      exists (ParsedPage.create dp' (S (ParsedPage.page_index p))), dp',
             (S (ParsedPage.page_index p)).
      split; [done|]. split; [done|].
      split; [by apply (page_inv_create r idx pages Hwf)|].
      simpl in Hc2, Hj2. simpl. rewrite Hc2, Hcur.
      split.
      { rewrite Hfirst', (take_S_r _ _ dp Hl), total_rows_app. simpl. lia. }
      split; [by rewrite Hj2|]. by left. }
    split; [done|]. split; [done|].
    split; [by apply (page_inv_create r idx pages Hwf)|].
    split; [simpl; lia|].
    unfold rest_rows. simpl. rewrite Hp, Hl, Hl', Hdrop. simpl.
    by rewrite (drop_S _ _ _ Hl').
  - (* the end of the column *)
    assert (S (ParsedPage.page_index p) = length pages) as Hlast.
    { destruct Hiter as [->|[_ ?]]; [|done].
      pose proof (lookup_lt_Some _ _ _ Hl). lia. }
    left. eexists. split; [done|].
    assert (rest_rows pages it = []) as Hrest.
    { unfold rest_rows. rewrite Hp, Hl, Hdrop. simpl.
      rewrite drop_ge by lia. done. }
    split; [|split; [done|]].
    + split; [done|]. exists p, dp, (S j). simpl.
      repeat (split; [done|]). right. split; [|done].
      destruct Hiter as [->|[? _]]; lia.
    + unfold rest_rows in *. simpl. by rewrite Hp, Hl in *.
Qed.

End BatchLoop.

Section BatchLoopSpec.
Import Column IteratorState FileColumnIterator.
Context (r : ColumnReader.t) (idx : OrdinalIndex.t) (pages : list ColumnReader.DataPage).
Hypothesis Hwf : wf_column r idx pages.

(** The rows read from the page the iterator is in. *)
Lemma read_page_rows_spec fuel p dp nrows dst0 cur hn :
  pages !! ParsedPage.page_index p = Some dp ->
  page_inv dp p ->
  cur = ParsedPage.first_ordinal p + ParsedPage.offset_in_page p ->
  0 <= nrows ->
  ParsedPage.offset_in_page p + nrows <= ParsedPage.num_rows p ->
  (Z.to_nat nrows <= fuel)%nat ->
  let st := {| page := p; dst := dst0; current_ordinal := cur; has_null := hn |} in
  exists st' cs,
    (if ParsedPage.has_null p
     then read_runs fuel nrows st
     else Some (read_plain nrows st)) = Some st' /\
    page_inv dp (page st') /\
    ParsedPage.page_index (page st') = ParsedPage.page_index p /\
    ParsedPage.offset_in_page (page st') = ParsedPage.offset_in_page p + nrows /\
    current_ordinal st' =
      ParsedPage.first_ordinal (page st') + ParsedPage.offset_in_page (page st') /\
    FileColumnIterator.dst st' = block_write dst0 cs /\
    map cell_value cs =
      take (Z.to_nat nrows)
        (drop (Z.to_nat (ParsedPage.offset_in_page p)) (page_rows dp)).
Proof.
  intros Hl Hinv Hcur Hn Hoff Hfuel st.
  destruct (wf_column_page r idx pages Hwf _ dp Hl) as (Hwfp & Hfirst & Hnn & Hle & Hnum & _).
  destruct Hwf as (_ & _ & _ & _ & _ & Htotal).
  pose proof Hinv as (Hpf & Hrows & Hhas & _ & _ & _ & Hrange & _).
  rewrite Hhas. destruct (ColumnReader.dp_has_null dp) eqn:Hnull.
  - destruct (read_runs_spec dp Hwfp Hnull Hnum fuel nrows st)
      as (st' & cs & Hrd & Hinv' & Hidx' & Hoff' & Hcur' & Hdst & Hcs);
      simpl; try lia; [done|].
    exists st', cs. split; [done|]. split; [done|]. split; [done|]. split; [done|].
    split; [|by split].
    destruct Hinv' as (Hpf' & _). simpl in *. lia.
  - destruct (read_plain_spec dp nrows st Hwfp Hnull Hnum)
      as (cs & Hinv' & Hidx' & Hoff' & Hcur' & Hdst & Hcs);
      simpl; try lia; [done|].
    exists (read_plain nrows st), cs.
    split; [done|]. split; [done|]. split; [done|]. split; [done|].
    split; [|by split].
    destruct Hinv' as (Hpf' & _). simpl in *. lia.
Qed.

Lemma batch_loop_spec : forall fuel n0 it dst0 hn,
  positioned r pages it ->
  0 <= n0 < two64 ->
  (Z.to_nat n0 < fuel)%nat ->
  exists b cs,
    batch_loop fuel it n0 dst0 hn = Some (Ok b) /\
    positioned r pages (iter b) /\
    block b = block_write dst0 cs /\
    map cell_value cs = take (Z.to_nat n0) (rest_rows pages it) /\
    n b = n0 - Z.of_nat (length cs) /\
    rest_rows pages (iter b) = drop (Z.to_nat n0) (rest_rows pages it).
Proof.
  induction fuel as [|fuel IH]; intros n0 it dst0 hn Hpos Hn Hfuel; [lia|].
  rewrite batch_loop_unfold.
  destruct (Z.gtb_spec n0 0) as [Hgt|Hle].
  2:{ assert (n0 = 0) as -> by lia. exists {| iter := it; n := 0; block := dst0;
                                             batch_has_null := hn |}, [].
      simpl. rewrite block_write_nil. by repeat (split; [done|]). }
  cbv zeta.
  destruct (ensure_page_spec r idx pages Hwf it Hpos)
    as [(it1 & Hload & Hpos1 & Hrest & Hrest1)
       |(it1 & p & dp & Hload & Hpos1 & Hp & Hl & Hinv & Hrem & Hrest)].
  - (* the end of the column *)
    rewrite Hload.
    exists {| iter := it1; n := n0; block := dst0; batch_has_null := hn |}, [].
    simpl. rewrite block_write_nil, Hrest, Hrest1.
    rewrite take_nil, drop_nil, Z.sub_0_r. by repeat (split; [done|]).
  - rewrite Hload, Hp.
    pose proof Hinv as (Hpf & Hrows & Hhas & _ & _ & _ & Hrange & _).
    destruct (wf_column_page r idx pages Hwf _ dp Hl)
      as (Hwfp & Hfirst & Hnn & Hle & Hnum & _).
    assert (ParsedPage.remaining p =
            ParsedPage.num_rows p - ParsedPage.offset_in_page p) as Hremaining
      by (unfold ParsedPage.remaining; apply u64_sub_small; lia).
    rewrite Hremaining.
    set (nrows := Z.min n0 (ParsedPage.num_rows p - ParsedPage.offset_in_page p)).
    assert (1 <= nrows <= n0) as Hnrows by (subst nrows; lia).
    assert (_current_ordinal it1 =
            ParsedPage.first_ordinal p + ParsedPage.offset_in_page p) as Hcur.
    { destruct Hpos1 as (_ & p' & dp' & j' & Hp' & _ & _ & Hc & _).
      rewrite Hp in Hp'. by inversion Hp'; subst p'. }
    destruct (read_page_rows_spec (S fuel) p dp nrows dst0 (_current_ordinal it1) hn)
      as (st' & cs1 & Hread & Hinv' & Hidx' & Hoff' & Hcur' & Hdst & Hcs1);
      try done; try lia.
    rewrite Hread.
    rewrite u64_sub_small by lia.
    set (it2 := set_current_ordinal (set_page it1 (page st')) (current_ordinal st')).
    assert (positioned r pages it2) as Hpos2.
    { destruct Hpos1 as (Hr1 & p' & dp' & j' & Hp' & Hl' & _ & _ & Hj' & Hiter').
      rewrite Hp in Hp'. inversion Hp'; subst p'.
      split; [done|]. exists (page st'), dp, j'. simpl.
      rewrite Hidx'. by repeat (split; [done|]). }
    destruct (IH (n0 - nrows) it2 (FileColumnIterator.dst st')
                (FileColumnIterator.has_null st') Hpos2)
      as (b & cs2 & Hloop & Hposb & Hblock & Hcs2 & Hnb & Hrestb);
      [lia|lia|].
    exists b, (cs1 ++ cs2). split; [done|]. split; [done|].
    assert (length cs1 = Z.to_nat nrows) as Hlen1.
    { rewrite <- (length_map cell_value), Hcs1, length_take, length_drop.
      pose proof (length_page_rows dp Hwfp). lia. }
    assert (rest_rows pages it2 =
            drop (Z.to_nat nrows)
              (drop (Z.to_nat (ParsedPage.offset_in_page p)) (page_rows dp)) ++
            all_rows (drop (S (ParsedPage.page_index p)) pages)) as Hrest2.
    { unfold rest_rows. simpl. rewrite Hidx', Hl, Hoff', drop_drop.
      f_equal. f_equal. lia. }
    assert (rest_rows pages it =
            drop (Z.to_nat (ParsedPage.offset_in_page p)) (page_rows dp) ++
            all_rows (drop (S (ParsedPage.page_index p)) pages)) as Hrest0.
    { rewrite <- Hrest. unfold rest_rows. by rewrite Hp, Hl. }
    assert (Z.to_nat nrows <=
            length (drop (Z.to_nat (ParsedPage.offset_in_page p)) (page_rows dp)))%nat
      as Hlenq.
    { rewrite length_drop. pose proof (length_page_rows dp Hwfp). lia. }
    split; [by rewrite Hblock, Hdst, block_write_app|].
    split.
    { rewrite map_app, Hcs1, Hcs2, Hrest2, Hrest0.
      rewrite (take_app_split _ _ (Z.to_nat nrows) (Z.to_nat n0)) by lia.
      f_equal. f_equal. lia. }
    split; [rewrite Hnb, length_app; lia|].
    rewrite Hrestb, Hrest2, Hrest0.
    rewrite (drop_app_split _ _ (Z.to_nat nrows) (Z.to_nat n0)) by lia.
    f_equal. lia.
Qed.

End BatchLoopSpec.

Section Seeks.
Import Column IteratorState FileColumnIterator.
Context (r : ColumnReader.t) (idx : OrdinalIndex.t) (pages : list ColumnReader.DataPage).
Hypothesis Hwf : wf_column r idx pages.

Lemma next_batch_spec fuel n0 it dst0 :
  positioned r pages it ->
  0 <= n0 < two64 ->
  (Z.to_nat n0 < fuel)%nat ->
  exists b cs,
    next_batch fuel it n0 dst0 = Some (Ok b) /\
    positioned r pages (iter b) /\
    block b = block_write dst0 cs /\
    map cell_value cs = take (Z.to_nat n0) (rest_rows pages it) /\
    n b = Z.of_nat (length cs) /\
    rest_rows pages (iter b) = drop (Z.to_nat n0) (rest_rows pages it).
Proof.
  intros Hpos Hn Hfuel.
  destruct (batch_loop_spec r idx pages Hwf fuel n0 it dst0 false Hpos Hn Hfuel)
    as (b & cs & Hloop & Hposb & Hblock & Hcs & Hnb & Hrest).
  unfold next_batch. rewrite Hloop.
  assert (length cs <= Z.to_nat n0)%nat as Hlen.
  { rewrite <- (length_map cell_value), Hcs, length_take. lia. }
  eexists _, cs. split; [done|]. simpl.
  split.
  { destruct Hposb as (Hr & p & dp & j & Hp & Hrest').
    split; [done|]. by exists p, dp, j. }
  split; [done|]. split; [done|].
  split; [rewrite Hnb, u64_sub_small by lia; lia|].
  exact Hrest.
Qed.

Lemma reader_seek_at_or_before_spec k :
  0 <= k < total_rows pages ->
  exists j dp,
    ColumnReader.seek_at_or_before r k = Ok j /\
    j = OrdinalIndex.seek_at_or_before idx k /\
    pages !! j = Some dp /\
    ColumnReader.dp_first_ordinal dp <= k
      < ColumnReader.dp_first_ordinal dp + ColumnReader.dp_num_values dp.
Proof.
  intros Hk. destruct Hwf as (Hload & Hidx & Hdata & Hdict & Hpages & Htotal).
  destruct (last_at_or_before_spec pages 0 idx 0 k Hpages) as (j & dp & Hseek & Hl & Hin);
    [lia|].
  exists j, dp. unfold ColumnReader.seek_at_or_before. rewrite Hload, Hidx. simpl.
  unfold OrdinalIndex.seek_at_or_before. rewrite Hseek. simpl.
  unfold OrdinalIndex.valid, OrdinalIndex.num_pages.
  rewrite (wf_pages_length _ _ _ Hpages).
  rewrite bool_decide_eq_true_2 by (by eapply lookup_lt_Some). done.
Qed.

Lemma contains_spec dp p k :
  wf_page dp -> page_inv dp p ->
  0 <= ColumnReader.dp_first_ordinal dp ->
  ColumnReader.dp_first_ordinal dp + ColumnReader.dp_num_values dp < two64 ->
  ParsedPage.contains p k = true <->
  ColumnReader.dp_first_ordinal dp <= k
    < ColumnReader.dp_first_ordinal dp + ColumnReader.dp_num_values dp.
Proof.
  intros [Hpos _] (Hpf & Hrows & _) Hnn Hle. unfold ParsedPage.contains.
  rewrite u64_add_small by lia.
  rewrite andb_true_iff, Z.leb_le, Z.ltb_lt. lia.
Qed.

Lemma seek_to_ordinal_spec it k :
  consistent r pages it ->
  0 <= k < total_rows pages ->
  exists it' p,
    seek_to_ordinal it k = Ok it' /\
    positioned r pages it' /\
    _page it' = Some p /\
    ParsedPage.contains p k = true /\
    ParsedPage.offset_in_page p = k - ParsedPage.first_ordinal p /\
    _current_ordinal it' = k /\
    (reuses idx it k -> page_reads it' = page_reads it) /\
    (~ reuses idx it k ->
     ParsedPage.page_index p = OrdinalIndex.seek_at_or_before idx k /\
     exists tail,
       page_reads it' =
         page_reads it ++ DataPageRead (OrdinalIndex.seek_at_or_before idx k) :: tail).
Proof.
  intros [Hr Hcons] Hk.
  pose proof Hwf as (Hload & Hidx & Hdata & Hdict & Hpages & Htotal).
  pose proof (wf_pages_length _ _ _ Hpages) as Hlen.
  assert (exists seek, must_seek it k = Ok seek /\
            (seek = false <-> reuses idx it k)) as (seek & Hseek & Hreuse).
  { unfold must_seek, reuses. destruct Hcons as [Hnone|Hpos].
    - rewrite Hnone. exists true. split; [done|]. split; [done|].
      by intros (p & j & Hp & _).
    - destruct Hpos as (_ & p & dp & j & Hp & Hl & Hinv & Hcur & Hj & Hiter).
      rewrite Hp. destruct (ParsedPage.contains p k) eqn:Hc; simpl.
      + rewrite (page_iter_valid_spec r idx pages Hwf it j Hr Hj). simpl.
        eexists. split; [done|]. rewrite negb_false_iff, bool_decide_eq_true.
        split.
        * intros Hv. exists p, j. repeat (split; [done|]). lia.
        * intros (p' & j' & Hp' & _ & Hj' & Hv). rewrite Hj in Hj'.
          inversion Hj'; subst j'. lia.
      + exists true. split; [done|]. split; [done|].
        intros (p' & j' & Hp' & Hc' & _). congruence. }
  unfold seek_to_ordinal. rewrite Hseek. simpl. destruct seek.
  - (* the page of [k] is sought and read *)
    destruct (reader_seek_at_or_before_spec k Hk) as (j & dp & Hrs & Hjeq & Hl & Hin).
    rewrite Hr, Hrs. simpl.
    destruct (read_data_page_spec r idx pages Hwf (set_page_iter it j) j dp Hr Hl)
      as (it1 & Hread & Hr1 & Hp1 & Hj1 & Hc1 & tail & Hreads).
    rewrite Hread. simpl. rewrite Hp1. simpl.
    destruct (wf_column_page r idx pages Hwf j dp Hl)
      as (Hwfp & Hfirst & Hnn & Hle & Hnum & _).
    pose proof (page_inv_create r idx pages Hwf j dp Hl) as Hinv.
    rewrite u64_sub_small by lia.
    destruct (seek_to_pos_in_page_spec dp (ParsedPage.create dp j)
                (k - ColumnReader.dp_first_ordinal dp) Hwfp Hnum Hinv)
      as (Hinv' & Hoff' & Hidx' & Hfirst'); [lia|].
    eexists _, _. split; [done|]. simpl.
    split.
    { split; [done|]. eexists _, dp, j. simpl.
      split; [done|]. rewrite Hidx'. simpl.
      split; [done|]. split; [done|]. rewrite Hfirst', Hoff'. simpl.
      split; [lia|]. split; [done|]. by left. }
    split; [done|].
    split; [apply (proj2 (contains_spec dp _ k Hwfp Hinv' Hnn ltac:(lia))); lia|].
    split; [rewrite Hoff', Hfirst'; done|]. split; [done|].
    split.
    + intros Hre. apply Hreuse in Hre. done.
    + intros _. rewrite Hidx'. simpl. split; [done|]. exists tail.
      by rewrite Hreads, <- Hjeq.
  - (* the page is reused *)
    destruct (proj1 Hreuse eq_refl) as (p & j & Hp & Hc & Hj & Hv).
    destruct Hcons as [Hnone|Hpos]; [congruence|].
    destruct Hpos as (_ & p' & dp & j' & Hp' & Hl & Hinv & Hcur & Hj' & Hiter).
    rewrite Hp in Hp'. inversion Hp'; subst p'.
    rewrite Hj in Hj'. inversion Hj'; subst j'.
    destruct Hiter as [->|[? _]]; [|lia].
    simpl. rewrite Hp. simpl.
    destruct (wf_column_page r idx pages Hwf _ dp Hl)
      as (Hwfp & Hfirst & Hnn & Hle & Hnum & _).
    pose proof Hinv as (Hpf & Hrows & _).
    pose proof (proj1 (contains_spec dp p k Hwfp Hinv Hnn ltac:(lia)) Hc) as Hin.
    rewrite u64_sub_small by lia.
    destruct (seek_to_pos_in_page_spec dp p (k - ParsedPage.first_ordinal p)
                Hwfp Hnum Hinv)
      as (Hinv' & Hoff' & Hidx' & Hfirst'); [lia|].
    eexists _, _. split; [done|]. simpl.
    split.
    { split; [done|]. eexists _, dp, _. simpl.
      split; [done|]. rewrite Hidx'.
      split; [done|]. split; [done|]. rewrite Hfirst', Hoff'.
      split; [lia|]. split; [done|]. by left. }
    split; [done|].
    split.
    { apply (proj2 (contains_spec dp _ k Hwfp Hinv' Hnn ltac:(lia))); lia. }
    split; [by rewrite Hoff', Hfirst'|]. split; [done|].
    split; [done|].
    intros Hnot. exfalso. apply Hnot. by apply Hreuse.
Qed.

End Seeks.

Section Runs.
Import Column IteratorState FileColumnIterator.
Context (r : ColumnReader.t) (idx : OrdinalIndex.t) (pages : list ColumnReader.DataPage).
Hypothesis Hwf : wf_column r idx pages.

Lemma seek_to_first_spec it dp0 :
  _reader it = r -> pages !! 0%nat = Some dp0 ->
  exists it', seek_to_first it = Ok it' /\ positioned r pages it'.
Proof.
  intros Hr Hl0.
  pose proof Hwf as (Hload & Hidx & Hdata & Hdict & Hpages & Htotal).
  pose proof (wf_pages_length _ _ _ Hpages) as Hlen.
  pose proof (lookup_lt_Some _ _ _ Hl0) as Hlt.
  unfold seek_to_first, ColumnReader.seek_to_first.
  rewrite Hr, Hload, Hidx. simpl.
  unfold OrdinalIndex.valid, OrdinalIndex.begin, OrdinalIndex.num_pages.
  rewrite bool_decide_eq_true_2 by lia. simpl.
  destruct (read_data_page_spec r idx pages Hwf (set_page_iter it 0%nat) _ dp0 Hr Hl0)
    as (it1 & Hread & Hr1 & Hp1 & Hj1 & Hc1 & _).
  rewrite Hread. simpl. rewrite Hp1. simpl.
  destruct (wf_column_page r idx pages Hwf _ dp0 Hl0)
    as (Hwfp & Hfirst & Hnn & Hle & Hnum & _).
  pose proof Hwfp as [Hpos _].
  pose proof (page_inv_create r idx pages Hwf _ dp0 Hl0) as Hinv.
  destruct (seek_to_pos_in_page_spec dp0 (ParsedPage.create dp0 0) 0 Hwfp Hnum Hinv)
    as (Hinv' & Hoff' & Hidx' & Hfirst'); [lia|].
  eexists. split; [done|]. split; [done|].
  eexists _, dp0, 0%nat. simpl. split; [done|]. rewrite Hidx'. simpl.
  split; [done|]. split; [done|].
  split; [simpl in Hfirst; lia|]. split; [done|]. by left.
Qed.

Lemma positioned_consumed it p :
  positioned r pages it -> _page it = Some p -> ParsedPage.has_null p = true ->
  consumed p = ParsedPage.offset_in_page p.
Proof.
  intros (Hr & p' & dp & j & Hp' & Hl & Hinv & _) Hp Hnull.
  rewrite Hp in Hp'. inversion Hp'; subst p'.
  destruct (wf_column_page r idx pages Hwf _ dp Hl) as (Hwfp & _).
  pose proof Hinv as (_ & _ & Hhas & _).
  apply (page_inv_consumed dp); [done| |done]. congruence.
Qed.

Lemma run_spec fuel dst0 ops : forall it,
  positioned r pages it ->
  Forall (valid_op (total_rows pages) fuel) ops ->
  exists it', run fuel ops it dst0 = Some (Ok it') /\ positioned r pages it'.
Proof.
  induction ops as [|op ops IH]; intros it Hpos Hops; simpl.
  - by exists it.
  - apply Forall_cons in Hops as [Hop Hops].
    pose proof Hpos as (Hr & p & dp & j & Hp & Hl & _).
    destruct op as [|k|n0]; simpl in Hop.
    + assert (exists dp0, pages !! 0%nat = Some dp0) as [dp0 Hl0].
      { apply lookup_lt_is_Some_2. pose proof (lookup_lt_Some _ _ _ Hl). lia. }
      destruct (seek_to_first_spec it dp0 Hr Hl0) as (it' & Hseek & Hpos').
      rewrite Hseek. by apply IH.
    + destruct (seek_to_ordinal_spec r idx pages Hwf it k) as (it' & p' & Hseek & Hpos' & _);
        [split; [done|by right]|done|].
      rewrite Hseek. by apply IH.
    + destruct Hop as [Hn Hfuel].
      destruct (next_batch_spec r idx pages Hwf fuel n0 it dst0 Hpos Hn Hfuel)
        as (b & cs & Hnext & Hposb & _).
      rewrite Hnext. by apply IH.
Qed.

End Runs.

(** The backward seek starts the null decoder again at the bitmap: whatever
    the decoders had passed, they have passed [target] rows afterwards. *)
Lemma backward_seek_consumed (p : ParsedPage.t) (target : Z) :
  ParsedPage.has_null p = true ->
  0 <= target < ParsedPage.offset_in_page p ->
  target < two64 ->
  (Z.to_nat target <= length (ParsedPage.null_bitmap p))%nat ->
  let p' := FileColumnIterator._seek_to_pos_in_page p target in
  ParsedPage.offset_in_page p' = target /\
  RleDecoder.pos (ParsedPage.null_decoder p') = Z.to_nat target /\
  IteratorState.consumed p' = target.
Proof.
  intros Hnull Htarget Hlt Hlen. unfold FileColumnIterator._seek_to_pos_in_page.
  rewrite (proj2 (Z.eqb_neq _ _)) by lia. rewrite Hnull.
  destruct (Z.gtb_spec target (ParsedPage.offset_in_page p)) as [?|_]; [lia|].
  unfold RleDecoder.Skip, RleDecoder.create. simpl. rewrite drop_0.
  assert (length (take (Z.to_nat target) (ParsedPage.null_bitmap p)) = Z.to_nat target)
    as Hl by (rewrite length_take; lia).
  pose proof (count_set_unset (take (Z.to_nat target) (ParsedPage.null_bitmap p))) as Hc.
  rewrite Hl in Hc.
  rewrite u64_add_small by lia. rewrite u64_sub_small by lia.
  split; [done|]. split; [done|].
  unfold IteratorState.consumed. simpl. rewrite Hl. lia.
Qed.

Lemma scan_column_wf :
  Column.wf_column Samples.scan_reader Samples.scan_index Samples.scan_pages.
Proof.
  unfold Column.wf_column. repeat (split; [reflexivity|]). split.
  - simpl. unfold Column.wf_page, Column.count_unset. simpl.
    repeat split; reflexivity || lia.
  - unfold two64. simpl. lia.
Defined.

Lemma seek_pos_fields (p : ParsedPage.t) (target : Z) :
  let p' := FileColumnIterator._seek_to_pos_in_page p target in
  ParsedPage.offset_in_page p' = target /\
  ParsedPage.first_ordinal p' = ParsedPage.first_ordinal p /\
  ParsedPage.num_rows p' = ParsedPage.num_rows p.
Proof.
  unfold FileColumnIterator._seek_to_pos_in_page.
  destruct (Z.eqb_spec (ParsedPage.offset_in_page p) target); [done|].
  by destruct (if ParsedPage.has_null p then _ else _).
Qed.

Lemma seek_pos_fixed (p : ParsedPage.t) :
  FileColumnIterator._seek_to_pos_in_page p (ParsedPage.offset_in_page p) = p.
Proof.
  unfold FileColumnIterator._seek_to_pos_in_page. by rewrite Z.eqb_refl.
Qed.

(** C1, amended: on a well-formed column, for an iterator that is fresh or
    positioned and an ordinal [k] of the column, [seek_to_ordinal(k)] succeeds
    with [current_ordinal = k] and [offset_in_page = k - page.first_ordinal]
    in a page that contains [k]; it reads no page when the loaded page
    contains [k] and the page iterator is valid, and otherwise reads the page
    found by [seek_at_or_before(k)]; and a [next_batch] of [m] rows then
    returns the rows of the ordinals from [k] on, [m] of them or as many as
    the column has, in order. *)
Theorem seek_then_read (r : ColumnReader.t) (idx : OrdinalIndex.t)
    (pages : list ColumnReader.DataPage) (it : FileColumnIterator.t)
    (k m : Z) (fuel : nat) (dst : ColumnBlockView) :
  Column.wf_column r idx pages ->
  IteratorState.consistent r pages it ->
  0 <= k < Column.total_rows pages ->
  0 <= m < two64 ->
  (Z.to_nat m < fuel)%nat ->
  exists it' p b cs,
    FileColumnIterator.seek_to_ordinal it k = Ok it' /\
    FileColumnIterator._page it' = Some p /\
    ParsedPage.contains p k = true /\
    FileColumnIterator._current_ordinal it' = k /\
    ParsedPage.offset_in_page p = k - ParsedPage.first_ordinal p /\
    (IteratorState.reuses idx it k ->
       FileColumnIterator.page_reads it' = FileColumnIterator.page_reads it) /\
    (~ IteratorState.reuses idx it k ->
       ParsedPage.page_index p = OrdinalIndex.seek_at_or_before idx k /\
       exists tail,
         FileColumnIterator.page_reads it' =
           FileColumnIterator.page_reads it ++
           FileColumnIterator.DataPageRead (OrdinalIndex.seek_at_or_before idx k)
           :: tail) /\
    FileColumnIterator.next_batch fuel it' m dst = Some (Ok b) /\
    FileColumnIterator.block b = block_write dst cs /\
    FileColumnIterator.n b = Z.of_nat (length cs) /\
    map cell_value cs =
      take (Z.to_nat m) (drop (Z.to_nat k) (Column.all_rows pages)).
Proof.
  intros Hwf Hcons Hk Hm Hfuel.
  destruct (seek_to_ordinal_spec r idx pages Hwf it k Hcons Hk)
    as (it' & p & Hseek & Hpos & Hp & Hc & Hoff & Hcur & Hreuse & Hread).
  destruct (next_batch_spec r idx pages Hwf fuel m it' dst Hpos Hm Hfuel)
    as (b & cs & Hnext & _ & Hblock & Hcs & Hn & _).
  exists it', p, b, cs. repeat (split; [done|]).
  rewrite Hcs, (positioned_rest_rows r idx pages Hwf it' Hpos).
  unfold IteratorState.position. rewrite Hp, Hoff.
  f_equal. f_equal. f_equal. lia.
Qed.

Lemma seek_then_read_witness :
  exists it' p b cs,
    FileColumnIterator.seek_to_ordinal
      (FileColumnIterator.new_iterator Samples.scan_reader) 5 = Ok it' /\
    FileColumnIterator._page it' = Some p /\
    ParsedPage.contains p 5 = true /\
    FileColumnIterator._current_ordinal it' = 5 /\
    ParsedPage.offset_in_page p = 5 - ParsedPage.first_ordinal p /\
    (IteratorState.reuses Samples.scan_index
       (FileColumnIterator.new_iterator Samples.scan_reader) 5 ->
       FileColumnIterator.page_reads it' =
         FileColumnIterator.page_reads
           (FileColumnIterator.new_iterator Samples.scan_reader)) /\
    (~ IteratorState.reuses Samples.scan_index
         (FileColumnIterator.new_iterator Samples.scan_reader) 5 ->
       ParsedPage.page_index p =
         OrdinalIndex.seek_at_or_before Samples.scan_index 5 /\
       exists tail,
         FileColumnIterator.page_reads it' =
           FileColumnIterator.page_reads
             (FileColumnIterator.new_iterator Samples.scan_reader) ++
           FileColumnIterator.DataPageRead
             (OrdinalIndex.seek_at_or_before Samples.scan_index 5) :: tail) /\
    FileColumnIterator.next_batch 8 it' 4 Samples.nullable_block = Some (Ok b) /\
    FileColumnIterator.block b = block_write Samples.nullable_block cs /\
    FileColumnIterator.n b = Z.of_nat (length cs) /\
    map cell_value cs =
      take (Z.to_nat 4) (drop (Z.to_nat 5) (Column.all_rows Samples.scan_pages)).
Proof.
  apply (seek_then_read Samples.scan_reader Samples.scan_index Samples.scan_pages
           (FileColumnIterator.new_iterator Samples.scan_reader) 5 4 8
           Samples.nullable_block scan_column_wf).
  - split; [reflexivity | left; reflexivity].
  - simpl. lia.
  - unfold two64. lia.
  - simpl. lia.
Defined.

(** C1, as stated: [seek_to_ordinal] would reuse the loaded page whenever it
    contains [k].  After a scan that ran past the end of the column the last
    page is loaded and contains ordinal 8, and [seek_to_ordinal(8)] reads
    that page again. *)
Lemma seek_rereads_loaded_page_after_end :
  Samples.scanned_to_end = Some (Ok Samples.iterator_at_end) /\
  (fun p => ParsedPage.contains p 8) <$>
    FileColumnIterator._page Samples.iterator_at_end = Some true /\
  FileColumnIterator.page_reads <$>
    FileColumnIterator.seek_to_ordinal Samples.iterator_at_end 8 =
  Ok (FileColumnIterator.page_reads Samples.iterator_at_end ++
      [FileColumnIterator.DataPageRead 2]).
Proof.
  split; [vm_compute; reflexivity|].
  split; vm_compute; reflexivity.
Qed.

(** C5: on a well-formed column, every run of seeks to ordinals of the column
    and of batches, from an iterator positioned in a page, completes and
    leaves the iterator positioned in a page where, if the page has nulls,
    the values the data decoder has passed and the set bits the null decoder
    has passed add up to [offset_in_page]; and the backward seek of
    [_seek_to_pos_in_page], which starts the null decoder again at the
    bitmap, leaves them adding up to its target. *)
Theorem null_decoding_invariant (r : ColumnReader.t) (idx : OrdinalIndex.t)
    (pages : list ColumnReader.DataPage) (it : FileColumnIterator.t)
    (ops : list IteratorState.Op) (fuel : nat) (dst : ColumnBlockView) :
  Column.wf_column r idx pages ->
  IteratorState.positioned r pages it ->
  Forall (IteratorState.valid_op (Column.total_rows pages) fuel) ops ->
  (exists it',
     IteratorState.run fuel ops it dst = Some (Ok it') /\
     IteratorState.positioned r pages it' /\
     forall p, FileColumnIterator._page it' = Some p ->
       ParsedPage.has_null p = true ->
       IteratorState.consumed p = ParsedPage.offset_in_page p) /\
  (forall p target,
     ParsedPage.has_null p = true ->
     0 <= target < ParsedPage.offset_in_page p ->
     target < two64 ->
     (Z.to_nat target <= length (ParsedPage.null_bitmap p))%nat ->
     ParsedPage.offset_in_page (FileColumnIterator._seek_to_pos_in_page p target)
       = target /\
     IteratorState.consumed (FileColumnIterator._seek_to_pos_in_page p target)
       = target).
Proof.
  intros Hwf Hpos Hops. split.
  - destruct (run_spec r idx pages Hwf fuel dst ops it Hpos Hops) as (it' & Hrun & Hpos').
    exists it'. split; [done|]. split; [done|].
    intros p Hp Hnull. by apply (positioned_consumed r idx pages Hwf it').
  - intros p target Hnull Htarget Hlt Hlen.
    destruct (backward_seek_consumed p target Hnull Htarget Hlt Hlen) as (Hoff & _ & Hc).
    by split.
Qed.

Lemma iterator_at_first_positioned :
  IteratorState.positioned Samples.scan_reader Samples.scan_pages
    Samples.iterator_at_first.
Proof.
  split; [reflexivity|].
  eexists _, _, 0%nat. split; [reflexivity|]. split; [reflexivity|].
  split.
  { unfold IteratorState.page_inv. simpl. repeat (split; [reflexivity || lia|]).
    split; reflexivity. }
  split; [reflexivity|]. split; [reflexivity|]. by left.
Defined.

Lemma null_decoding_invariant_witness :
  exists it',
    IteratorState.run 8
      [IteratorState.NextBatch 6; IteratorState.SeekToOrdinal 1;
       IteratorState.NextBatch 2; IteratorState.SeekToFirst]
      Samples.iterator_at_first Samples.nullable_block = Some (Ok it') /\
    IteratorState.positioned Samples.scan_reader Samples.scan_pages it' /\
    forall p, FileColumnIterator._page it' = Some p ->
      ParsedPage.has_null p = true ->
      IteratorState.consumed p = ParsedPage.offset_in_page p.
Proof.
  apply (null_decoding_invariant Samples.scan_reader Samples.scan_index
           Samples.scan_pages Samples.iterator_at_first _ 8 Samples.nullable_block
           scan_column_wf iterator_at_first_positioned).
  repeat (apply Forall_cons; split;
            [unfold IteratorState.valid_op, two64; simpl Column.total_rows;
             first [exact I | lia]|]).
  apply Forall_nil_2.
Defined.

(** C6: on a well-formed column, when [seek_to_ordinal(k)] to an ordinal of
    the column succeeded, a second [seek_to_ordinal(k)] succeeds and leaves
    the iterator as it is: it finds the page that contains [k] loaded and
    [offset_in_page] at its target; so the batches read after two seeks are
    those read after one. *)
Theorem seek_to_ordinal_idempotent (r : ColumnReader.t) (idx : OrdinalIndex.t)
    (pages : list ColumnReader.DataPage) (it it' : FileColumnIterator.t) (k : Z) :
  Column.wf_column r idx pages ->
  FileColumnIterator._reader it = r ->
  0 <= k < Column.total_rows pages ->
  FileColumnIterator.seek_to_ordinal it k = Ok it' ->
  FileColumnIterator.must_seek it' k = Ok false /\
  FileColumnIterator.seek_to_ordinal it' k = Ok it' /\
  (forall it'' fuel n dst,
     FileColumnIterator.seek_to_ordinal it' k = Ok it'' ->
     FileColumnIterator.next_batch fuel it'' n dst =
       FileColumnIterator.next_batch fuel it' n dst).
Proof.
  intros Hwf Hr Hk Hseek.
  assert (FileColumnIterator.must_seek it' k = Ok false /\
          FileColumnIterator.seek_to_ordinal it' k = Ok it') as [Hmust Hagain].
  2:{ split; [done|]. split; [done|]. intros it'' fuel n dst Hs. congruence. }
  (* the state the first seek leaves *)
  assert (exists it1 p j,
            it' = FileColumnIterator.set_current_ordinal
                    (FileColumnIterator.set_page it1
                       (FileColumnIterator._seek_to_pos_in_page p
                          (u64_sub k (ParsedPage.first_ordinal p)))) k /\
            FileColumnIterator._reader it1 = r /\
            ParsedPage.contains p k = true /\
            FileColumnIterator._page_iter it1 = Some j /\
            (j < length pages)%nat) as (it1 & p & j & -> & Hr1 & Hc & Hj & Hv).
  { unfold FileColumnIterator.seek_to_ordinal in Hseek.
    destruct (FileColumnIterator.must_seek it k) as [[]| |] eqn:Hm; try done;
      simpl in Hseek.
    - destruct (reader_seek_at_or_before_spec r idx pages Hwf k Hk)
        as (j & dp & Hrs & _ & Hl & Hin).
      rewrite Hr, Hrs in Hseek. simpl in Hseek.
      destruct (read_data_page_spec r idx pages Hwf
                  (FileColumnIterator.set_page_iter it j) j dp Hr Hl)
        as (it1 & Hread & Hr1 & Hp1 & Hj1 & _).
      rewrite Hread in Hseek. simpl in Hseek. rewrite Hp1 in Hseek. simpl in Hseek.
      inversion Hseek; subst it'. clear Hseek.
      destruct (wf_column_page r idx pages Hwf j dp Hl)
        as (Hwfp & Hfirst & Hnn & Hle & Hnum & _).
      pose proof Hwf as (_ & _ & _ & _ & _ & Htotal).
      exists it1, (ParsedPage.create dp j), j. split; [done|]. split; [done|].
      split.
      { apply (proj2 (contains_spec dp _ k Hwfp
                        (page_inv_create r idx pages Hwf j dp Hl) Hnn ltac:(lia))).
        lia. }
      split; [done|]. by eapply lookup_lt_Some.
    - unfold FileColumnIterator.must_seek in Hm.
      destruct (FileColumnIterator._page it) as [p|] eqn:Hp; [|done].
      destruct (ParsedPage.contains p k) eqn:Hc; [|done]. simpl in Hm.
      destruct (FileColumnIterator._page_iter it) as [j|] eqn:Hj;
        [|by unfold FileColumnIterator.page_iter_valid in Hm; rewrite Hj in Hm].
      rewrite (page_iter_valid_spec r idx pages Hwf it j Hr Hj) in Hm.
      simpl in Hm. inversion Hm as [Hv]. apply negb_false_iff, bool_decide_eq_true in Hv.
      simpl in Hseek. inversion Hseek; subst it'.
      by exists it, p, j. }
  destruct (seek_pos_fields p (u64_sub k (ParsedPage.first_ordinal p)))
    as (Hoff & Hfirst & Hrows).
  set (p' := FileColumnIterator._seek_to_pos_in_page p
               (u64_sub k (ParsedPage.first_ordinal p))) in *.
  assert (ParsedPage.contains p' k = true) as Hc'.
  { unfold ParsedPage.contains in *. by rewrite Hfirst, Hrows. }
  assert (FileColumnIterator.must_seek
            (FileColumnIterator.set_current_ordinal
               (FileColumnIterator.set_page it1 p') k) k = Ok false) as Hmust.
  { unfold FileColumnIterator.must_seek. simpl. rewrite Hc'. simpl.
    rewrite (page_iter_valid_spec r idx pages Hwf _ j) by done.
    simpl. by rewrite bool_decide_eq_true_2. }
  split; [done|].
  unfold FileColumnIterator.seek_to_ordinal. rewrite Hmust. simpl.
  rewrite Hfirst, <- Hoff, seek_pos_fixed. done.
Qed.

Lemma seek_to_ordinal_idempotent_witness :
  FileColumnIterator.must_seek Samples.iterator_at_5 5 = Ok false /\
  FileColumnIterator.seek_to_ordinal Samples.iterator_at_5 5 = Ok Samples.iterator_at_5.
Proof.
  destruct (seek_to_ordinal_idempotent Samples.scan_reader Samples.scan_index
              Samples.scan_pages (FileColumnIterator.new_iterator Samples.scan_reader)
              Samples.iterator_at_5 5 scan_column_wf eq_refl)
    as (Hmust & Hagain & _).
  - simpl. lia.
  - vm_compute. reflexivity.
  - by split.
Defined.

Section Coverage.
Import ColumnReader.

Lemma set_insert_elem y s x : x ∈ set_insert y s <-> x = y \/ x ∈ s.
Proof.
  induction s as [|z s IH]; simpl.
  - rewrite list_elem_of_singleton, elem_of_nil. tauto.
  - repeat case_bool_decide; rewrite ?elem_of_cons, ?IH; [tauto| |tauto].
    subst. tauto.
Qed.

Lemma to_int64_small z : - two63 <= z < two63 -> to_int64 z = z.
Proof.
  intros Hz. unfold to_int64. rewrite Z.mod_small; unfold two63, two64 in *; lia.
Qed.

Lemma next_ordinal_int64 last :
  0 <= last < two63 - 1 -> to_int64 (u64_add last 1) = last + 1.
Proof.
  intros Hl. unfold u64_add. rewrite wrap64_small by (unfold two63, two64 in *; lia).
  apply to_int64_small. unfold two63 in *. lia.
Qed.

Lemma bounded_int64_bounded idx :
  OrdinalIndex.bounded_int64 idx -> OrdinalIndex.bounded idx.
Proof.
  intros Hb. eapply Forall_impl; [exact Hb|].
  intros p Hp. simpl in Hp. unfold two63, two64 in *. lia.
Qed.

Lemma cover_loop_acc to pages : forall idxv cur acc p,
  p ∈ acc -> p ∈ cover_loop to idxv cur pages acc.
Proof.
  induction pages as [|e rest IH]; intros idxv cur acc p Hin; simpl; [done|].
  destruct (idxv <? to); [|done]. apply IH, set_insert_elem. by right.
Qed.

Lemma cover_loop_pages to pages : forall idxv cur acc p,
  p ∈ cover_loop to idxv cur pages acc ->
  p ∈ acc \/ (cur <= p < cur + length pages)%nat.
Proof.
  induction pages as [|e rest IH]; intros idxv cur acc p Hin; simpl in *; [by left|].
  destruct (idxv <? to); [|by left].
  unfold OrdinalIndex.page_index, OrdinalIndex.next in Hin.
  apply IH in Hin as [Hin|Hin].
  - apply set_insert_elem in Hin as [->|Hin]; [right; simpl; lia|by left].
  - right. simpl. lia.
Qed.

Lemma contiguous_firsts idx : forall start j e,
  OrdinalIndex.contiguous start idx -> idx !! j = Some e ->
  start <= OrdinalIndex.first_ordinal e /\
  OrdinalIndex.first_ordinal e <= OrdinalIndex.last_ordinal e.
Proof.
  induction idx as [|e0 rest IH]; intros start j e Hc Hl; [done|].
  destruct Hc as (Hf & Hle & Hc). destruct j as [|j]; simpl in Hl.
  - inversion Hl; subst e0. lia.
  - destruct (IH _ _ _ Hc Hl). lia.
Qed.

Lemma contiguous_drop idx : forall start k,
  OrdinalIndex.contiguous start idx ->
  exists start', OrdinalIndex.contiguous start' (drop k idx).
Proof.
  induction idx as [|e0 rest IH]; intros start k Hc.
  - rewrite drop_nil. by exists start.
  - destruct k as [|k]; [by exists start|]. destruct Hc as (_ & _ & Hc).
    by apply (IH _ k) in Hc.
Qed.

(** The loop over the pages reaches every page that holds an ordinal at or
    after its start and below [to]. *)
Lemma cover_loop_covers to x pages : forall start idxv cur acc j e,
  OrdinalIndex.contiguous start pages -> OrdinalIndex.bounded_int64 pages ->
  pages !! j = Some e ->
  OrdinalIndex.first_ordinal e <= x <= OrdinalIndex.last_ordinal e ->
  idxv <= x < to ->
  (cur + j)%nat ∈ cover_loop to idxv cur pages acc.
Proof.
  induction pages as [|e0 rest IH]; intros start idxv cur acc j e Hc Hb Hl Hx Hidx;
    [done|]. simpl.
  destruct (Z.ltb_spec idxv to); [|lia].
  destruct Hc as (Hf & Hle & Hc). apply Forall_cons in Hb as [Hb0 Hb].
  destruct j as [|j]; simpl in Hl.
  - rewrite Nat.add_0_r. apply cover_loop_acc, set_insert_elem. by left.
  - replace (cur + S j)%nat with (OrdinalIndex.next cur + j)%nat
      by (unfold OrdinalIndex.next; lia).
    apply (IH (OrdinalIndex.last_ordinal e0 + 1) _ _ _ _ e); try done.
    destruct (contiguous_firsts _ _ _ _ Hc Hl).
    rewrite next_ordinal_int64 by done. lia.
Qed.

Lemma last_at_or_before_le idx : forall start i p e from,
  OrdinalIndex.contiguous start idx ->
  idx !! p = Some e -> from <= OrdinalIndex.last_ordinal e -> start <= from ->
  exists k, OrdinalIndex.last_at_or_before from i idx = Some (i + k)%nat /\ (k <= p)%nat.
Proof.
  induction idx as [|e0 rest IH]; intros start i p e from Hc Hl Hfrom Hstart; [done|].
  destruct Hc as (Hf & Hle & Hc). simpl.
  assert (from <= OrdinalIndex.last_ordinal e0 ->
          OrdinalIndex.last_at_or_before from (S i) rest = None) as Hnone.
  { intros Hin. apply last_at_or_before_none, Forall_lookup.
    intros j e' Hl'. destruct (contiguous_firsts _ _ _ _ Hc Hl'). lia. }
  destruct (Z.leb_spec (OrdinalIndex.first_ordinal e0) from); [|lia].
  destruct p as [|p]; simpl in Hl.
  - inversion Hl; subst e0. rewrite Hnone by done.
    exists 0%nat. split; [f_equal; lia|lia].
  - destruct (Z.le_gt_cases from (OrdinalIndex.last_ordinal e0)) as [Hin|Hout].
    + rewrite Hnone by done. exists 0%nat. split; [f_equal; lia|lia].
    + destruct (IH _ (S i) p e from Hc Hl Hfrom) as (k & Hk & Hkp); [lia|].
      rewrite Hk. exists (S k). split; [f_equal; lia|lia].
Qed.

Lemma cover_ranges_spec r idx row_ranges :
  _ordinal_index r = Some idx ->
  forall n i acc,
  exists page_ids,
    cover_ranges r row_ranges i n acc = Ok page_ids /\
    (forall p, p ∈ acc -> p ∈ page_ids) /\
    (forall p, p ∈ page_ids -> p ∈ acc \/ (p < length idx)%nat) /\
    (OrdinalIndex.contiguous 0 idx -> OrdinalIndex.bounded_int64 idx ->
     forall p x k, (i <= k < i + n)%nat ->
       0 <= RowRanges.get_range_from row_ranges k <= x ->
       x < RowRanges.get_range_to row_ranges k ->
       OrdinalIndex.page_holds idx p x -> p ∈ page_ids).
Proof.
  intros Hidx. induction n as [|n IH]; intros i acc; simpl.
  - exists acc. split; [done|]. split; [done|]. split; [by left|]. intros; lia.
  - rewrite Hidx. simpl.
    set (from := RowRanges.get_range_from row_ranges i).
    set (to := RowRanges.get_range_to row_ranges i).
    set (iter := OrdinalIndex.seek_at_or_before idx (wrap64 from)).
    destruct (IH (S i) (cover_loop to from iter (drop iter idx) acc))
      as (page_ids & Hcover & Hacc & Hpages & Hholds).
    exists page_ids. split; [done|]. split; [|split].
    + intros p Hp. by apply Hacc, cover_loop_acc.
    + intros p Hp. apply Hpages in Hp as [Hp|Hp]; [|by right].
      apply cover_loop_pages in Hp as [Hp|Hp]; [by left|right].
      rewrite length_drop in Hp. lia.
    + intros Hc Hb p x k Hk Hfrom Hto Hp.
      destruct (decide (k = i)) as [->|Hne]; [|apply (Hholds Hc Hb p x k); [lia|done..]].
      apply Hacc. destruct Hp as (e & Hl & Hx).
      destruct (last_at_or_before_le idx 0 0 p e from Hc Hl) as (j & Hj & Hjp);
        [fold from in Hfrom; lia|fold from in Hfrom; lia|].
      assert (wrap64 from = from) as Hwrap.
      { apply wrap64_small. fold from in Hfrom.
        pose proof (proj1 (Forall_lookup _ _) Hb p e Hl) as He. simpl in He.
        unfold two63, two64 in *. lia. }
      assert (iter = j) as Hiter.
      { subst iter. unfold OrdinalIndex.seek_at_or_before. by rewrite Hwrap, Hj. }
      destruct (contiguous_drop idx 0 iter Hc) as (start' & Hc').
      replace p with (iter + (p - iter))%nat by lia.
      apply (cover_loop_covers to x (drop iter idx) start' from iter acc (p - iter) e).
      * done.
      * apply Forall_drop, Hb.
      * unfold OrdinalIndex.t in *. rewrite lookup_drop, <- Hl. f_equal. lia.
      * done.
      * fold from in Hfrom. fold to in Hto. lia.
Qed.

End Coverage.

Section BloomFilterProperties.
Import ColumnReader.
Context {W : Type} `{WrapperFieldOps W}.

(** C4: with the indexes loaded, the ordinals of the index below 2^63 - 1
    (where the [int64_t] of the loop over the pages and [ordinal_t] agree)
    and input ranges that start at ordinals, the set of covered pages is
    computed, and when their bloom filters are readable
    [get_row_ranges_by_bloom_filter] answers the rows of its input that lie
    in the ordinal range of a covered page whose bloom filter the condition
    matches; they are rows of the input.  When the pages of the ordinal
    index follow one another from ordinal 0, the covered pages are the pages
    that hold a row of the input: the output is the rows of the input whose
    page has a bloom filter that matches. *)
Theorem bloom_filter_row_ranges (r : ColumnReader.t) (c : CondColumn W)
    bf_index idx row_ranges page_ids :
  _ensure_index_loaded r = Status_OK ->
  _bloom_filter_index r = Some bf_index ->
  new_iterator_status bf_index = Status_OK ->
  _ordinal_index r = Some idx ->
  OrdinalIndex.bounded_int64 idx ->
  Forall (fun range => 0 <= range.1) row_ranges ->
  cover_ranges r row_ranges 0 (RowRanges.range_size row_ranges) [] = Ok page_ids ->
  (forall p, p ∈ page_ids -> is_ok (read_bloom_filter bf_index p) = true) ->
  exists out,
    get_row_ranges_by_bloom_filter r (Some c) row_ranges = Ok out /\
    (forall x, RowRanges.rows out x <->
       RowRanges.rows row_ranges x /\
       exists p bf, p ∈ page_ids /\ read_bloom_filter bf_index p = Ok bf /\
         eval_bf c bf = true /\
         OrdinalIndex.get_first_ordinal idx p <= x
           < OrdinalIndex.get_last_ordinal idx p + 1) /\
    (forall x, RowRanges.rows out x -> RowRanges.rows row_ranges x) /\
    (OrdinalIndex.contiguous 0 idx ->
     forall x, RowRanges.rows out x <->
       RowRanges.rows row_ranges x /\
       exists p bf, OrdinalIndex.page_holds idx p x /\
         read_bloom_filter bf_index p = Ok bf /\ eval_bf c bf = true).
Proof.
  intros Hload Hbf Hnew Hidx Hb Hfrom Hcover Hread.
  unfold get_row_ranges_by_bloom_filter.
  rewrite Hload, Hbf. simpl. rewrite Hnew. simpl. rewrite Hcover. simpl.
  destruct (bloom_loop_spec r idx bf_index c page_ids Hidx
              (bounded_int64_bounded idx Hb) Hread []
              (Forall_nil_2 _)) as (bf_rows & Hloop & _ & Hrows).
  unfold RowRanges.empty. rewrite Hloop. simpl. eexists. split; [done|].
  assert (forall x,
            RowRanges.rows (RowRanges.ranges_intersection row_ranges bf_rows) x <->
            RowRanges.rows row_ranges x /\
            exists p bf, p ∈ page_ids /\ read_bloom_filter bf_index p = Ok bf /\
              eval_bf c bf = true /\
              OrdinalIndex.get_first_ordinal idx p <= x
                < OrdinalIndex.get_last_ordinal idx p + 1) as Hout.
  { intros x. rewrite ranges_intersection_rows, Hrows, rows_nil. tauto. }
  split; [exact Hout|]. split.
  - intros x. rewrite ranges_intersection_rows. tauto.
  - intros Hc x. rewrite Hout.
    destruct (cover_ranges_spec r idx row_ranges Hidx
                (RowRanges.range_size row_ranges) 0 [])
      as (page_ids' & Hcover' & _ & Hpages & Hholds).
    rewrite Hcover in Hcover'. inversion Hcover'; subst page_ids'.
    split.
    + intros [Hin (p & bf & Hp & Hbfp & Hev & Hx)]. split; [done|]. exists p, bf.
      split; [|done]. apply Hpages in Hp as [Hp|Hp]; [by apply elem_of_nil in Hp|].
      destruct (lookup_lt_is_Some_2 idx p Hp) as [e He].
      exists e. split; [done|].
      unfold OrdinalIndex.get_first_ordinal, OrdinalIndex.get_last_ordinal in Hx.
      unfold OrdinalIndex.t in *. rewrite He in Hx. simpl in Hx. lia.
    + intros [Hin (p & bf & Hp & Hbfp & Hev)]. split; [done|]. exists p, bf.
      destruct Hin as (range & Hrange & Hxr).
      apply list_elem_of_lookup in Hrange as [k Hk].
      assert (nth k row_ranges (0, 0) = range) as Hnth.
      { apply nth_lookup_Some with (d := (0, 0)) in Hk. done. }
      pose proof (proj1 (Forall_lookup _ _) Hfrom k range Hk) as Hnn. simpl in Hnn.
      assert (p ∈ page_ids) as Hin.
      { apply (Hholds Hc Hb p x k).
        - pose proof (lookup_lt_Some _ _ _ Hk) as Hlt.
          unfold RowRanges.range_size, RowRanges.t, RowRanges.RowRange in *. lia.
        - unfold RowRanges.get_range_from, RowRanges.RowRange. rewrite Hnth. lia.
        - unfold RowRanges.get_range_to, RowRanges.RowRange. rewrite Hnth. lia.
        - done. }
      split; [done|]. split; [done|]. split; [done|].
      destruct Hp as (e & He & Hxe).
      unfold OrdinalIndex.get_first_ordinal, OrdinalIndex.get_last_ordinal.
      unfold OrdinalIndex.t in *. rewrite He. simpl. lia.
Qed.

End BloomFilterProperties.

Lemma bloom_filter_row_ranges_witness :
  exists out,
    ColumnReader.get_row_ranges_by_bloom_filter Samples.pushdown_reader
      (Some Samples.above_ten) [(0, 300)] = Ok out /\
    (forall x, RowRanges.rows out x -> RowRanges.rows [(0, 300)] x).
Proof.
  destruct (bloom_filter_row_ranges Samples.pushdown_reader Samples.above_ten
              _ _ [(0, 300)] [0; 1; 2]%nat eq_refl eq_refl eq_refl eq_refl)
    as (out & Hout & _ & Hsub & _).
  - unfold OrdinalIndex.bounded_int64, two63.
    repeat (apply Forall_cons; split; [simpl; lia|]). apply Forall_nil_2.
  - apply Forall_cons. split; [simpl; lia|apply Forall_nil_2].
  - reflexivity.
  - intros p Hp. repeat (apply elem_of_cons in Hp as [->|Hp]; [reflexivity|]).
    by apply elem_of_nil in Hp.
  - exists out. by split.
Defined.

(** ** Status of init *)

Section InitStatus.
Import ColumnReader.

Lemma last_of_kind_none t l : forall i,
  last_of_kind t i l = None <-> t ∉ l.
Proof.
  induction l as [|t' rest IH]; intros i; simpl.
  - split; [intros _ Hin; by apply elem_of_nil in Hin|done].
  - rewrite not_elem_of_cons. destruct (last_of_kind t (S i) rest) eqn:Hl.
    + split; [done|]. intros [_ Hn]. apply (IH (S i)) in Hn. congruence.
    + apply IH in Hl. case_bool_decide as Heq.
      * split; [done|]. intros [Hne _]. congruence.
      * split; [|done]. intros _. split; [congruence|done].
Qed.

Lemma scan_indexes_known l : forall i m,
  UNKNOWN_INDEX_TYPE ∉ l -> exists m', scan_indexes i l m = Ok m'.
Proof.
  induction l as [|t rest IH]; intros i m Hn; simpl; [by eexists|].
  apply not_elem_of_cons in Hn as [Hne Hn].
  destruct t; try done; simpl; by apply IH.
Qed.

End InitStatus.

(** X1: [ColumnReader::init] returns OK exactly when the type info, the
    encoding info and the compression codec are found, no index of the
    metadata has an unknown type, and the metadata has an ordinal index or the
    column has no rows.  When all of that holds but for the ordinal index of a
    column with rows, the status is [Corruption]. *)
Theorem init_ok_iff (meta : ColumnReader.ColumnMetaPB) (num_rows : Z) :
  (is_ok (ColumnReader.init meta num_rows) = true <->
   ColumnReader.type_info_found meta = true /\
   is_ok (ColumnReader.encoding_info meta) = true /\
   is_ok (ColumnReader.compression_codec meta) = true /\
   (ColumnReader.UNKNOWN_INDEX_TYPE ∉ ColumnReader.indexes meta) /\
   (ColumnReader.ORDINAL_INDEX ∈ ColumnReader.indexes meta \/ num_rows = 0)) /\
  (ColumnReader.type_info_found meta = true ->
   ColumnReader.encoding_info meta = Status_OK ->
   ColumnReader.compression_codec meta = Status_OK ->
   ColumnReader.UNKNOWN_INDEX_TYPE ∉ ColumnReader.indexes meta ->
   ColumnReader.ORDINAL_INDEX ∉ ColumnReader.indexes meta ->
   num_rows <> 0 ->
   ColumnReader.init meta num_rows = Error Corruption).
Proof.
  assert (forall m,
            ColumnReader.scan_indexes 0 (ColumnReader.indexes meta)
              ColumnReader.no_index_meta = Ok m ->
            (ColumnReader._ordinal_index_meta m = None <->
             ColumnReader.ORDINAL_INDEX ∉ ColumnReader.indexes meta)) as Hord.
  { intros m Hscan.
    pose proof (scan_indexes_meta _ _ _ _ ColumnReader.ORDINAL_INDEX Hscan
                  ltac:(done)) as Hm.
    simpl in Hm. rewrite Hm.
    destruct (ColumnReader.last_of_kind _ _ _) eqn:Hl.
    - split; [done|]. intros Hn. apply (last_of_kind_none _ _ 0%nat) in Hn. congruence.
    - split; [|done]. intros _. by apply (last_of_kind_none _ _ 0%nat). }
  unfold ColumnReader.init, ColumnReader.is_empty. split.
  - destruct (ColumnReader.type_info_found meta); simpl; [|by split; [|intros []]].
    destruct (ColumnReader.encoding_info meta) as [[]| |]; simpl;
      try (split; [done|by intros (_ & ? & _)]).
    destruct (ColumnReader.compression_codec meta) as [[]| |]; simpl;
      try (split; [done|by intros (_ & _ & ? & _)]).
    destruct (ColumnReader.scan_indexes 0 (ColumnReader.indexes meta)
                ColumnReader.no_index_meta) as [m| |] eqn:Hscan; simpl.
    + specialize (Hord m eq_refl).
      assert (ColumnReader.UNKNOWN_INDEX_TYPE ∉ ColumnReader.indexes meta) as Hun.
      { intros Hin. by rewrite (scan_indexes_unknown _ _ _ Hin) in Hscan. }
      case_bool_decide as Hnone; simpl.
      * destruct (Z.eqb_spec num_rows 0) as [->|Hne]; simpl.
        -- split; [|done]. intros _. repeat (split; [done|]). by right.
        -- split; [done|]. intros (_ & _ & _ & _ & [Hin|?]); [|done].
           by apply Hord in Hnone.
      * split; [|done]. intros _. repeat (split; [done|]). left.
        destruct (decide (ColumnReader.ORDINAL_INDEX ∈ ColumnReader.indexes meta));
          [done|]. by destruct Hnone; apply Hord.
    + split; [done|]. intros (_ & _ & _ & Hun & _).
      destruct (scan_indexes_known _ 0%nat ColumnReader.no_index_meta Hun) as [m Hm].
      congruence.
    + split; [done|]. intros (_ & _ & _ & Hun & _).
      destruct (scan_indexes_known _ 0%nat ColumnReader.no_index_meta Hun) as [m Hm].
      congruence.
  - intros -> -> -> Hun Hno Hrows. simpl.
    destruct (scan_indexes_known _ 0%nat ColumnReader.no_index_meta Hun) as [m Hm].
    rewrite Hm. simpl. rewrite bool_decide_eq_true_2 by (by apply Hord).
    by destruct (Z.eqb_spec num_rows 0).
Qed.

Lemma init_ok_iff_witness :
  ColumnReader.init Samples.unindexed_meta 5 = Error Corruption.
Proof.
  apply (init_ok_iff Samples.unindexed_meta 5).
  - reflexivity.
  - reflexivity.
  - reflexivity.
  - intros Hin. apply list_elem_of_singleton in Hin. discriminate Hin.
  - intros Hin. apply list_elem_of_singleton in Hin. discriminate Hin.
  - lia.
Defined.

(** ** Readers of nested columns *)

Section ReaderTrees.
Import ColumnTree.

(** Induction on the metadata of a column, with the property at hand for
    each child column. *)
Lemma ColumnMeta_children_ind (P : ColumnMeta -> Prop) :
  (forall meta nullable num_rows children,
     Forall P children -> P (MetaNode meta nullable num_rows children)) ->
  forall m, P m.
Proof.
  intros Hnode. fix IH 1. intros [meta nullable num_rows children].
  apply Hnode. induction children as [|c cs IHcs]; constructor; [apply IH|exact IHcs].
Qed.

(** The reader [create] makes of an array column. *)
Lemma create_array debug_build meta nullable num_rows0 children num_rows rd :
  ColumnReader.type meta = OLAP_FIELD_TYPE_ARRAY ->
  create debug_build (MetaNode meta nullable num_rows0 children) num_rows = Ok rd ->
  exists c0 c1 rest item_reader offset_reader null_reader,
    children = c0 :: c1 :: rest /\
    create debug_build c0 (meta_num_rows c0) = Ok item_reader /\
    create debug_build c1 (meta_num_rows c1) = Ok offset_reader /\
    (if nullable
     then exists c2 nr, rest !! 0%nat = Some c2 /\
            create debug_build c2 (meta_num_rows c2) = Ok nr /\ null_reader = Some nr
     else null_reader = None) /\
    rd = ReaderNode (MetaNode meta nullable num_rows0 children) (meta_num_rows c1)
           ColumnReader.no_index_meta
           (Some item_reader :: Some offset_reader ::
            match rest with
            | [] => []
            | _ :: rest2 => null_reader :: replicate (length rest2) None
            end).
Proof.
  intros Hty. simpl. rewrite Hty. simpl.
  destruct (debug_build && _); [done|].
  destruct children as [|c0 [|c1 rest]]; [done| |].
  { by destruct (create debug_build c0 _). }
  destruct (create debug_build c0 _) as [item_reader| |] eqn:H0; [|done|done]. simpl.
  destruct (create debug_build c1 _) as [offset_reader| |] eqn:H1; [|done|done]. simpl.
  destruct nullable.
  - destruct rest as [|c2 rest2]; [done|].
    destruct (create debug_build c2 _) as [nr| |] eqn:H2; [|done|done]. simpl.
    intros [= <-]. exists c0, c1, (c2 :: rest2), item_reader, offset_reader, (Some nr).
    repeat (split; [done|]). split; [|done]. by exists c2, nr.
  - simpl. intros [= <-].
    exists c0, c1, rest, item_reader, offset_reader, None. by repeat (split; [done|]).
Qed.

(** [new_iterator] succeeds on every reader [create] has made. *)
Lemma create_new_iterator debug_build : forall m num_rows rd,
  create debug_build m num_rows = Ok rd -> exists it, new_iterator rd = Ok it.
Proof.
  induction m as [meta nullable num_rows0 children IH] using ColumnMeta_children_ind.
  intros num_rows rd Hcreate.
  destruct (is_scalar_type (ColumnReader.type meta)) eqn:Hscalar.
  - simpl in Hcreate. rewrite Hscalar in Hcreate.
    destruct (ColumnReader.init meta num_rows) as [im| |]; [|done|done].
    simpl in Hcreate. inversion Hcreate; subst rd. simpl. rewrite Hscalar.
    destruct (ColumnReader.is_empty num_rows); by eexists.
  - destruct (decide (ColumnReader.type meta = OLAP_FIELD_TYPE_ARRAY)) as [Hty|Hty].
    2:{ simpl in Hcreate. rewrite Hscalar in Hcreate.
        by destruct (ColumnReader.type meta). }
    destruct (create_array _ _ _ _ _ _ _ Hty Hcreate)
      as (c0 & c1 & rest & item_reader & offset_reader & null_reader
          & -> & H0 & H1 & Hnull & ->).
    apply Forall_cons in IH as [IH0 IH]. apply Forall_cons in IH as [IH1 IH].
    destruct (IH0 _ _ H0) as [item_it Hitem].
    destruct (IH1 _ _ H1) as [offset_it Hoffset].
    cbn [new_iterator meta_pb meta_is_nullable]. rewrite Hscalar, Hty.
    destruct (ColumnReader.is_empty (meta_num_rows c1)); [by eexists|].
    rewrite Hitem. cbn [mbind Result_bind]. rewrite Hoffset. cbn [mbind Result_bind].
    destruct nullable.
    + destruct Hnull as (c2 & nr & Hl & H2 & ->).
      destruct rest as [|c2' rest2]; [done|]. simpl in Hl. inversion Hl; subst c2'.
      apply Forall_cons in IH as [IH2 _].
      destruct (IH2 _ _ H2) as [null_it Hnullit].
      rewrite Hnullit. by eexists.
    + by eexists.
Qed.

(** [new_iterator] makes the empty iterator of a reader without rows, and of
    no other. *)
Lemma new_iterator_empty rd it :
  new_iterator rd = Ok it ->
  (it = EmptyFileColumnIterator <-> reader_num_rows rd = 0).
Proof.
  destruct rd as [m n im subs]. simpl. unfold ColumnReader.is_empty.
  destruct (Z.eqb_spec n 0) as [->|Hne]; [by intros [= <-]|].
  intros Hit. split; [|done]. intros ->.
  destruct (is_scalar_type _); [done|].
  destruct (ColumnReader.type _); try done.
  destruct subs as [|[item|] [|[offset|] subs2]]; try done;
    destruct (new_iterator item); try done; simpl in Hit.
  destruct (new_iterator offset); try done; simpl in Hit.
  destruct (meta_is_nullable m); [|done].
  destruct subs2 as [|[nr|] ?]; try done.
  by destruct (new_iterator nr).
Qed.

Lemma create_reader_meta debug_build m num_rows rd :
  create debug_build m num_rows = Ok rd -> reader_meta rd = m.
Proof.
  destruct m as [meta nullable num_rows0 children]. intros Hcreate.
  destruct (is_scalar_type (ColumnReader.type meta)) eqn:Hscalar.
  - simpl in Hcreate. rewrite Hscalar in Hcreate.
    destruct (ColumnReader.init meta num_rows); [|done|done]. simpl in Hcreate.
    by inversion Hcreate.
  - destruct (decide (ColumnReader.type meta = OLAP_FIELD_TYPE_ARRAY)) as [Hty|Hty].
    2:{ simpl in Hcreate. rewrite Hscalar in Hcreate.
        by destruct (ColumnReader.type meta). }
    by destruct (create_array _ _ _ _ _ _ _ Hty Hcreate)
      as (c0 & c1 & rest & item_reader & offset_reader & null_reader
          & _ & _ & _ & _ & ->).
Qed.

End ReaderTrees.

(** X2: a reader that [ColumnReader::create] has made keeps the metadata
    it was made from, and [new_iterator] succeeds on it: no sub-reader it
    needs is missing or null, at any depth of nested arrays.  The iterator is
    an [EmptyFileColumnIterator] exactly when the reader has no rows. *)
Theorem created_reader_has_iterator (debug_build : bool) (m : ColumnTree.ColumnMeta)
    (num_rows : Z) (rd : ColumnTree.Reader) :
  ColumnTree.create debug_build m num_rows = Ok rd ->
  ColumnTree.reader_meta rd = m /\
  exists it,
    ColumnTree.new_iterator rd = Ok it /\
    (it = ColumnTree.EmptyFileColumnIterator <-> ColumnTree.reader_num_rows rd = 0).
Proof.
  intros Hcreate. destruct (create_new_iterator debug_build m num_rows rd Hcreate)
    as [it Hit].
  split; [by eapply create_reader_meta|]. exists it. split; [done|].
  by apply new_iterator_empty.
Qed.

(** X3: when [ColumnReader::create] returns OK for an array column, the
    metadata has at least two children (three if the array is nullable), the
    reader has as many rows as the metadata of its second child (the offsets)
    says, whatever [num_rows] the caller passed, and one sub-reader slot per
    child.  If the array has rows and its offsets are scalar, [new_iterator]
    makes an [ArrayFileColumnIterator] whose offset iterator is a
    [FileColumnIterator] on the offset reader, with a null iterator exactly
    when the array is nullable. *)
Theorem created_array_reader (debug_build : bool) (meta : ColumnReader.ColumnMetaPB)
    (nullable : bool) (num_rows0 : Z) (children : list ColumnTree.ColumnMeta)
    (num_rows : Z) (rd : ColumnTree.Reader) :
  ColumnReader.type meta = OLAP_FIELD_TYPE_ARRAY ->
  ColumnTree.create debug_build
    (ColumnTree.MetaNode meta nullable num_rows0 children) num_rows = Ok rd ->
  exists c0 c1 rest offset_reader,
    children = c0 :: c1 :: rest /\
    ColumnTree.create debug_build c1 (ColumnTree.meta_num_rows c1) = Ok offset_reader /\
    ColumnTree.reader_num_rows rd = ColumnTree.meta_num_rows c1 /\
    length (ColumnTree.sub_readers rd) = length children /\
    (nullable = true -> rest <> []) /\
    (ColumnTree.meta_num_rows c1 <> 0 ->
     is_scalar_type (ColumnReader.type (ColumnTree.meta_pb c1)) = true ->
     exists item_iterator null_iterator,
       ColumnTree.new_iterator rd =
         Ok (ColumnTree.ArrayFileColumnIterator rd
               (ColumnTree.FileColumnIterator offset_reader)
               item_iterator null_iterator) /\
       (is_Some null_iterator <-> nullable = true)).
Proof.
  intros Hty Hcreate.
  destruct (create_array _ _ _ _ _ _ _ Hty Hcreate)
    as (c0 & c1 & rest & item_reader & offset_reader & null_reader
        & -> & H0 & H1 & Hnull & ->).
  exists c0, c1, rest, offset_reader. split; [done|]. split; [done|]. split; [done|].
  split.
  { simpl. destruct rest; [done|]. simpl. by rewrite length_replicate. }
  split.
  { intros ->. by destruct Hnull as (c2 & nr & Hl & _); destruct rest. }
  intros Hrows Hscalar.
  destruct (create_new_iterator _ _ _ _ H0) as [item_it Hitem].
  assert (ColumnTree.new_iterator offset_reader =
          Ok (ColumnTree.FileColumnIterator offset_reader)) as Hoffset.
  { destruct c1 as [meta1 nullable1 rows1 children1]. simpl in *.
    rewrite Hscalar in H1.
    destruct (ColumnReader.init meta1 rows1); [|done|done]. simpl in H1.
    inversion H1; subst offset_reader. simpl. rewrite Hscalar.
    unfold ColumnReader.is_empty. by destruct (Z.eqb_spec rows1 0). }
  assert (is_scalar_type (ColumnReader.type meta) = false) as Hns by (by rewrite Hty).
  cbn [ColumnTree.new_iterator ColumnTree.meta_pb ColumnTree.meta_is_nullable].
  rewrite Hns, Hty. unfold ColumnReader.is_empty.
  destruct (Z.eqb_spec (ColumnTree.meta_num_rows c1) 0) as [?|_]; [done|].
  rewrite Hitem. cbn [mbind Result_bind]. rewrite Hoffset. cbn [mbind Result_bind].
  destruct nullable.
  - destruct Hnull as (c2 & nr & Hl & H2 & ->).
    destruct rest as [|c2' rest2]; [done|].
    destruct (create_new_iterator _ _ _ _ H2) as [null_it Hnullit].
    rewrite Hnullit. eexists _, _. split; [done|]. split; [done|]. by eexists.
  - eexists _, _. split; [done|]. split; [|done]. by intros [? ?].
Qed.

Lemma created_reader_has_iterator_witness :
  ColumnTree.reader_meta Samples.array_reader = Samples.array_meta /\
  exists it,
    ColumnTree.new_iterator Samples.array_reader = Ok it /\
    (it = ColumnTree.EmptyFileColumnIterator <->
     ColumnTree.reader_num_rows Samples.array_reader = 0).
Proof.
  apply (created_reader_has_iterator false Samples.array_meta 7 Samples.array_reader).
  reflexivity.
Defined.

Lemma created_array_reader_witness :
  exists c0 c1 rest offset_reader,
    Samples.array_children = c0 :: c1 :: rest /\
    ColumnTree.create false c1 (ColumnTree.meta_num_rows c1) = Ok offset_reader /\
    ColumnTree.reader_num_rows Samples.array_reader = ColumnTree.meta_num_rows c1.
Proof.
  destruct (created_array_reader false Samples.array_meta_pb false 0
              Samples.array_children 7 Samples.array_reader eq_refl eq_refl)
    as (c0 & c1 & rest & offset_reader & Hc & Hcreate & Hrows & _).
  exists c0, c1, rest, offset_reader. split; [exact Hc|]. split; [exact Hcreate|exact Hrows].
Defined.

(** ** Pages kept by the pushdown *)

Lemma filter_fmap_list {A B : Type} (f : A -> B) (P : B -> Prop)
    `{!forall x, Decision (P x)} (l : list A) :
  filter P (f <$> l) = f <$> filter (fun x => P (f x)) l.
Proof.
  induction l as [|a l IH]; [done|].
  rewrite fmap_cons, !filter_cons, IH. by destruct (decide (P (f a))).
Qed.

Section FilteredPages.
Import ColumnReader Pushdown.
Context {W : Type} `{WrapperFieldOps W}.
Implicit Types (cond del : option (CondColumn W)) (st : @FilterState W).

Lemma page_accepted_at_head cond del zm rest (b0 : W * W) :
  page_accepted_at cond del (zm :: rest) b0 0 =
  page_accepted cond del zm (_parse_zone_map zm b0.1 b0.2).
Proof. done. Qed.

Lemma page_accepted_at_tail cond del zm rest (b0 : W * W) j :
  page_accepted_at cond del (zm :: rest) b0 (S j) =
  page_accepted_at cond del rest (parse_step b0 zm) j.
Proof. done. Qed.

(** The loop appends the accepted pages, in the order of the pages. *)
Lemma filter_pages_from_in_order cond del zms : forall k st,
  page_indexes (filter_pages_from cond del k zms st) =
  page_indexes st ++
    ((fun j => (k + j)%nat) <$>
     filter (fun j => page_accepted_at cond del zms (min_value st, max_value st) j = true)
       (seq 0 (length zms))).
Proof.
  induction zms as [|zm rest IH]; intros k st.
  - simpl. by rewrite app_nil_r.
  - cbn [filter_pages_from length].
    rewrite IH, filter_page_indexes, <- app_assoc. f_equal.
    pose proof (filter_page_bounds cond del k zm st) as Hb. simpl in Hb. rewrite Hb.
    change (seq 0 (S (length rest))) with (0%nat :: seq 1 (length rest)).
    rewrite filter_cons, page_accepted_at_head.
    rewrite <- fmap_S_seq, filter_fmap_list.
    assert (forall l : list nat,
              (fun j => (k + j)%nat) <$> (S <$> l) = (fun j => (S k + j)%nat) <$> l)
      as Hshift.
    { intros l. rewrite <- list_fmap_compose. apply list_fmap_ext.
      intros _ j _. simpl. lia. }
    assert (filter (fun j => page_accepted_at cond del (zm :: rest)
                               (min_value st, max_value st) (S j) = true)
              (seq 0 (length rest)) =
            filter (fun j => page_accepted_at cond del rest
                               (parse_step (min_value st, max_value st) zm) j = true)
              (seq 0 (length rest))) as Hf.
    { apply list_filter_iff. intros j. by rewrite page_accepted_at_tail. }
    rewrite Hf.
    destruct (page_accepted cond del zm _) eqn:Hacc.
    + rewrite decide_True by done. rewrite fmap_cons, Hshift, Nat.add_0_r. done.
    + rewrite decide_False by done. rewrite Hshift. done.
Qed.

End FilteredPages.

Section PushdownExtras.
Import ColumnReader.
Context {W : Type} `{WrapperFieldOps W}.

(** X4: with the zone map index loaded, [_get_filtered_pages] returns OK
    and appends to [page_indexes], in the order of the pages and each once,
    exactly the pages accepted at the bounds the two containers hold when
    the loop reaches them: the zone map of the page parsed over what the
    earlier pages have left in the containers, which are made once before
    the loop.  Without a condition and without a delete condition these are
    the pages that pass all or whose zone is not empty. *)
Theorem filtered_pages_in_order (r : ColumnReader.t)
    (cond del : option (CondColumn W)) zms (page_indexes0 : list nat) :
  _zone_map_index r = Some zms ->
  exists st,
    _get_filtered_pages r cond del page_indexes0 = Ok st /\
    page_indexes st =
      page_indexes0 ++
      filter (fun i =>
                Pushdown.page_accepted_at cond del zms
                  (create_by_type (_type r) (_length r),
                   create_by_type (_type r) (_length r)) i = true)
        (seq 0 (length zms)) /\
    (cond = None -> del = None ->
     page_indexes st =
       page_indexes0 ++
       filter (fun i => Pushdown.page_has_rows zms i = true) (seq 0 (length zms))).
Proof.
  intros Hzm. unfold _get_filtered_pages. rewrite Hzm. simpl.
  eexists. split; [done|].
  assert (page_indexes
            (filter_pages_from cond del 0 zms
               {| page_indexes := page_indexes0;
                  min_value := create_by_type (_type r) (_length r);
                  max_value := create_by_type (_type r) (_length r);
                  eval_log := [] |}) =
          page_indexes0 ++
          filter (fun i =>
                    Pushdown.page_accepted_at cond del zms
                      (create_by_type (_type r) (_length r),
                       create_by_type (_type r) (_length r)) i = true)
            (seq 0 (length zms))) as Hst.
  { rewrite filter_pages_from_in_order. simpl.
    f_equal. rewrite <- (list_fmap_id (filter _ _)) at 2.
    by apply list_fmap_ext. }
  split; [exact Hst|].
  intros -> ->. rewrite Hst. f_equal. apply list_filter_iff. intros i.
  unfold Pushdown.page_accepted_at, Pushdown.page_has_rows, page_accepted.
  destruct (zms !! i) as [zm|]; [|done].
  by rewrite !andb_true_r, orb_assoc.
Qed.

(** X5: [FileColumnIterator::get_row_ranges_by_zone_map] leaves
    [row_ranges] as it is, whatever the state of the reader, when the reader
    has no zone map.  When it has one and its indexes are loaded, the result
    replaces [row_ranges]: its rows are exactly the rows of the pages that
    [_get_filtered_pages] accepts, at the bounds the two containers hold
    when the loop reaches them, whatever [row_ranges] held before. *)
Theorem zone_map_keeps_rows_of_accepted_pages (it : FileColumnIterator.t)
    (cond del : option (CondColumn W)) (row_ranges : RowRanges.t) :
  let r := FileColumnIterator._reader it in
  let bounds0 := (create_by_type (_type r) (_length r),
                  create_by_type (_type r) (_length r)) in
  (has_zone_map r = false ->
   FileColumnIterator.get_row_ranges_by_zone_map it cond del row_ranges =
     Ok row_ranges) /\
  (has_zone_map r = true ->
   forall zms idx,
   _ensure_index_loaded r = Status_OK ->
   _zone_map_index r = Some zms ->
   _ordinal_index r = Some idx ->
   OrdinalIndex.bounded idx ->
   (length zms <= length idx)%nat ->
   exists out,
     FileColumnIterator.get_row_ranges_by_zone_map it cond del row_ranges = Ok out /\
     forall x, RowRanges.rows out x <->
       exists i, OrdinalIndex.page_holds idx i x /\
         Pushdown.page_accepted_at cond del zms bounds0 i = true).
Proof.
  intros r bounds0.
  unfold FileColumnIterator.get_row_ranges_by_zone_map. fold r. split.
  - by intros ->.
  - intros -> zms idx Hload Hzm Hidx Hb Hlen.
    unfold get_row_ranges_by_zone_map, _get_filtered_pages, _calculate_row_ranges.
    rewrite Hload, Hzm. simpl.
    set (st := filter_pages_from cond del 0 zms _).
    destruct (calculate_loop_spec r idx (page_indexes st) Hidx Hb [] (Forall_nil_2 _))
      as (out & Hout & _ & Hrows).
    exists out. split; [done|]. intros x. rewrite Hrows, rows_nil.
    unfold Pushdown.page_accepted_at. split.
    + intros [[]|(i & Hin & Hx)].
      apply filter_pages_from_indexes in Hin as [Hin|(j & zm & -> & Hl & Hacc)];
        [by apply elem_of_nil in Hin|].
      exists j. rewrite Hl. split; [|done].
      destruct (lookup_lt_is_Some_2 idx j) as [e He].
      { pose proof (lookup_lt_Some _ _ _ Hl). lia. }
      exists e. split; [done|].
      change (0 + j)%nat with j in Hx.
      unfold OrdinalIndex.get_first_ordinal, OrdinalIndex.get_last_ordinal,
        OrdinalIndex.t in *.
      rewrite He in Hx. simpl in Hx. lia.
    + intros (i & (e & He & Hx) & Hacc). right. exists i.
      destruct (zms !! i) as [zm|] eqn:Hl; [|done]. split.
      * apply filter_pages_from_indexes. right. by exists i, zm.
      * unfold OrdinalIndex.get_first_ordinal, OrdinalIndex.get_last_ordinal,
          OrdinalIndex.t in *.
        rewrite He. simpl. lia.
Qed.

(** X6: whenever [FileColumnIterator::get_row_ranges_by_bloom_filter]
    returns OK, every row of the result was a row of [row_ranges]: the bloom
    filters only remove rows. *)
Theorem bloom_filter_never_adds_rows (it : FileColumnIterator.t)
    (cond : option (CondColumn W)) (row_ranges out : RowRanges.t) :
  FileColumnIterator.get_row_ranges_by_bloom_filter it cond row_ranges = Ok out ->
  forall x, RowRanges.rows out x -> RowRanges.rows row_ranges x.
Proof.
  unfold FileColumnIterator.get_row_ranges_by_bloom_filter.
  destruct cond as [c|]; [|by intros [= ->]].
  destruct (_ && _); [|by intros [= ->]].
  unfold get_row_ranges_by_bloom_filter.
  destruct (_ensure_index_loaded _) as [[]| |]; [|done|done]. simpl.
  destruct (_bloom_filter_index _) as [bf|]; [|done]. simpl.
  destruct (new_iterator_status bf) as [[]| |]; [|done|done]. simpl.
  destruct (cover_ranges _ _ _ _ _) as [page_ids| |]; [|done|done]. simpl.
  destruct (bloom_loop _ _ _ _ _) as [bf_rows| |]; [|done|done]. simpl.
  intros [= <-] x Hx. by apply ranges_intersection_rows in Hx as [Hx _].
Qed.

(** X7: [match_condition] is true when the reader has no zone map or the
    condition is null.  Otherwise, on a column of one page whose zone map is
    the zone map of the segment, it agrees with the page filter but for a
    zone that holds nothing: the segment matches exactly when
    [_get_filtered_pages], with the condition and without a delete
    condition, keeps page 0 and the zone map has a null or a non-null
    value. *)
Theorem segment_match_is_page_acceptance (r : ColumnReader.t)
    (cond : option (CondColumn W)) :
  (_zone_map_index_meta (index_metas r) = None \/ cond = None ->
   match_condition r cond = true) /\
  (_zone_map_index_meta (index_metas r) <> None ->
   is_Some cond ->
   _zone_map_index r = Some [segment_zone_map r] ->
   exists st,
     _get_filtered_pages r cond None [] = Ok st /\
     (match_condition r cond = true <->
      0%nat ∈ page_indexes st /\
      (has_not_null (segment_zone_map r) || has_null (segment_zone_map r)) = true)).
Proof.
  split.
  - unfold match_condition. intros [->| ->]; [done|].
    by rewrite orb_true_r.
  - intros Hmeta [c ->] Hzm. unfold _get_filtered_pages. rewrite Hzm. simpl.
    eexists. split; [done|].
    unfold match_condition. rewrite bool_decide_eq_false_2 by done. simpl.
    unfold filter_page, _zone_map_match_condition.
    destruct (_parse_zone_map _ _ _) as [mn mx].
    destruct (pass_all (segment_zone_map r)), (has_not_null (segment_zone_map r)),
      (has_null (segment_zone_map r)); simpl;
      try destruct (eval c (mn, mx)); simpl;
      rewrite ?list_elem_of_singleton, ?elem_of_nil; split; try done;
      intros []; done.
Qed.

End PushdownExtras.

Lemma filtered_pages_in_order_witness :
  exists st,
    ColumnReader._get_filtered_pages Samples.pushdown_reader
      (Some Samples.above_ten) None [] = Ok st /\
    ColumnReader.page_indexes st = [1; 2]%nat.
Proof.
  destruct (filtered_pages_in_order Samples.pushdown_reader (Some Samples.above_ten)
              None _ [] eq_refl) as (st & Hst & Hidx & _).
  exists st. split; [exact Hst|]. rewrite Hidx. vm_compute. reflexivity.
Defined.

Lemma zone_map_keeps_rows_of_accepted_pages_witness :
  FileColumnIterator.get_row_ranges_by_zone_map
    (FileColumnIterator.new_iterator Samples.dict_reader)
    (Some Samples.above_ten) None [(0, 7)] = Ok [(0, 7)] /\
  exists out,
    FileColumnIterator.get_row_ranges_by_zone_map
      (FileColumnIterator.new_iterator Samples.pushdown_reader)
      (Some Samples.above_ten) None [] = Ok out /\
    RowRanges.rows out 150.
Proof.
  split.
  - apply (zone_map_keeps_rows_of_accepted_pages
             (FileColumnIterator.new_iterator Samples.dict_reader)
             (Some Samples.above_ten) None [(0, 7)]).
    reflexivity.
  - destruct (zone_map_keeps_rows_of_accepted_pages
                (FileColumnIterator.new_iterator Samples.pushdown_reader)
                (Some Samples.above_ten) None []) as [_ Hzone].
    destruct (Hzone eq_refl _ _ eq_refl eq_refl eq_refl pushdown_reader_bounded)
      as (out & Hout & Hrows).
    { simpl. lia. }
    exists out. split; [exact Hout|]. apply Hrows.
    exists 1%nat. split; [|reflexivity].
    eexists. split; [reflexivity|]. simpl. lia.
Defined.

Lemma bloom_filter_never_adds_rows_witness : RowRanges.rows [(0, 300)] 150.
Proof.
  apply (bloom_filter_never_adds_rows
           (FileColumnIterator.new_iterator Samples.pushdown_reader)
           (Some Samples.above_ten) [(0, 300)] [(100, 300)] eq_refl 150).
  exists (100, 300). split; [apply list_elem_of_here|]. simpl. lia.
Defined.

Lemma segment_match_is_page_acceptance_witness :
  ColumnReader.match_condition (W := Samples.SampleField) Samples.one_page_reader None
    = true /\
  exists st,
    ColumnReader._get_filtered_pages Samples.one_page_reader
      (Some Samples.above_ten) None [] = Ok st /\
    (ColumnReader.match_condition Samples.one_page_reader (Some Samples.above_ten)
       = true <->
     0%nat ∈ ColumnReader.page_indexes st /\
     (ColumnReader.has_not_null (ColumnReader.segment_zone_map Samples.one_page_reader)
      || ColumnReader.has_null (ColumnReader.segment_zone_map Samples.one_page_reader))
       = true).
Proof.
  split.
  - apply (segment_match_is_page_acceptance (W := Samples.SampleField)
             Samples.one_page_reader None).
    right. reflexivity.
  - apply (segment_match_is_page_acceptance Samples.one_page_reader
             (Some Samples.above_ten)).
    + simpl. intros Heq. discriminate Heq.
    + eexists. reflexivity.
    + reflexivity.
Defined.

Section CoveredPages.
Import ColumnReader.
Context {W : Type} `{WrapperFieldOps W}.

Lemma set_insert_sorted x s :
  StronglySorted lt s -> StronglySorted lt (set_insert x s).
Proof.
  induction s as [|y s IH]; intros Hs; simpl.
  - repeat constructor.
  - apply StronglySorted_inv in Hs as [Hs Hall].
    repeat case_bool_decide.
    + constructor; [by constructor|]. constructor; [done|].
      eapply Forall_impl; [exact Hall|]. simpl. lia.
    + by constructor.
    + constructor; [by apply IH|].
      apply Forall_forall. intros z Hz. apply set_insert_elem in Hz as [->|Hz]; [lia|].
      by apply (proj1 (Forall_forall _ _) Hall).
Qed.

Lemma cover_loop_sorted to pages : forall from cur acc,
  StronglySorted lt acc -> StronglySorted lt (cover_loop to from cur pages acc).
Proof.
  induction pages as [|p rest IH]; intros from cur acc Hs; simpl; [done|].
  destruct (from <? to); [|done]. by apply IH, set_insert_sorted.
Qed.

Lemma cover_ranges_sorted r row_ranges n : forall i acc page_ids,
  StronglySorted lt acc ->
  cover_ranges r row_ranges i n acc = Ok page_ids ->
  StronglySorted lt page_ids.
Proof.
  induction n as [|n IH]; intros i acc page_ids Hs; simpl.
  - by intros [= <-].
  - destruct (_ordinal_index r) as [idx|]; [|done]. simpl.
    apply IH. by apply cover_loop_sorted.
Qed.

(** The bloom filters are read in the order of the pages: the loop stops at
    the first page whose bloom filter cannot be read. *)
Lemma bloom_loop_first_error r idx bf_index (c : CondColumn W) pid e :
  _ordinal_index r = Some idx ->
  read_bloom_filter bf_index pid = Error e ->
  forall page_ids acc,
  StronglySorted lt page_ids ->
  pid ∈ page_ids ->
  (forall q, q ∈ page_ids -> (q < pid)%nat ->
     is_ok (read_bloom_filter bf_index q) = true) ->
  bloom_loop r bf_index (Some c) page_ids acc = Error e.
Proof.
  intros Hidx Hread. induction page_ids as [|q rest IH]; intros acc Hs Hin Hok.
  - by apply elem_of_nil in Hin.
  - apply StronglySorted_inv in Hs as [Hs Hall]. simpl.
    apply elem_of_cons in Hin as [<-|Hin].
    + by rewrite Hread.
    + assert (q < pid)%nat as Hlt by (by apply (proj1 (Forall_forall _ _) Hall)).
      pose proof (Hok q ltac:(by left) Hlt) as Hq.
      destruct (read_bloom_filter bf_index q) as [bf| |]; [|done|done]. simpl.
      rewrite Hidx. simpl.
      destruct (eval_bf c bf); simpl; apply IH; try done;
        intros q' Hq'; apply Hok; by right.
Qed.

(** X8: the pages [get_row_ranges_by_bloom_filter] covers are visited in
    increasing order, and the call returns the error of the first covered
    page whose bloom filter cannot be read. *)
Theorem bloom_filter_read_error (r : ColumnReader.t) (c : CondColumn W)
    bf_index idx row_ranges page_ids pid e :
  _ensure_index_loaded r = Status_OK ->
  _bloom_filter_index r = Some bf_index ->
  new_iterator_status bf_index = Status_OK ->
  _ordinal_index r = Some idx ->
  cover_ranges r row_ranges 0 (RowRanges.range_size row_ranges) [] = Ok page_ids ->
  pid ∈ page_ids ->
  read_bloom_filter bf_index pid = Error e ->
  (forall q, q ∈ page_ids -> (q < pid)%nat ->
     is_ok (read_bloom_filter bf_index q) = true) ->
  StronglySorted lt page_ids /\
  get_row_ranges_by_bloom_filter r (Some c) row_ranges = Error e.
Proof.
  intros Hload Hbf Hnew Hidx Hcover Hin Hread Hok.
  assert (StronglySorted lt page_ids) as Hs.
  { eapply cover_ranges_sorted; [|exact Hcover]. constructor. }
  split; [done|].
  unfold get_row_ranges_by_bloom_filter.
  rewrite Hload, Hbf. simpl. rewrite Hnew. simpl. rewrite Hcover. simpl.
  by rewrite (bloom_loop_first_error r idx bf_index c pid e Hidx Hread page_ids).
Qed.

End CoveredPages.

Lemma bloom_filter_read_error_witness :
  StronglySorted lt [0; 1; 2]%nat /\
  ColumnReader.get_row_ranges_by_bloom_filter Samples.unreadable_bloom_reader
    (Some Samples.above_ten) [(0, 300)] = Error IOError.
Proof.
  apply (bloom_filter_read_error Samples.unreadable_bloom_reader Samples.above_ten
           _ _ [(0, 300)] [0; 1; 2]%nat 1%nat IOError eq_refl eq_refl eq_refl eq_refl
           eq_refl).
  - apply list_elem_of_further, list_elem_of_here.
  - reflexivity.
  - intros q _ Hq. destruct q as [|q]; [reflexivity|lia].
Defined.

(** ** Seeks to any ordinal *)

Section BatchSequences.
Import Column IteratorState FileColumnIterator.
Context (r : ColumnReader.t) (idx : OrdinalIndex.t) (pages : list ColumnReader.DataPage).
Hypothesis Hwf : wf_column r idx pages.

Lemma length_all_rows :
  Z.of_nat (length (all_rows pages)) = total_rows pages.
Proof.
  destruct Hwf as (_ & _ & _ & _ & Hpages & _).
  clear Hwf. revert Hpages. generalize 0. generalize idx.
  induction pages as [|dp rest IH]; intros idx0 start Hp.
  - done.
  - destruct idx0 as [|e idx']; [done|]. simpl in Hp.
    destruct Hp as (_ & _ & _ & Hwfp & Hrest).
    unfold all_rows in *. simpl. rewrite length_app.
    pose proof (length_page_rows dp Hwfp). specialize (IH _ _ Hrest).
    unfold total_rows in *. simpl. lia.
Qed.

(** A positioned iterator is at an ordinal of the column or at its end, and
    the rows to come are those from that ordinal on. *)
Lemma positioned_position it :
  positioned r pages it ->
  _current_ordinal it = position it /\
  0 <= position it <= total_rows pages /\
  Z.of_nat (length (rest_rows pages it)) = total_rows pages - position it.
Proof.
  intros Hpos. pose proof (positioned_rest_rows r idx pages Hwf it Hpos) as Hrest.
  destruct Hpos as (Hr & p & dp & j & Hp & Hl & Hinv & Hcur & Hj & Hiter).
  destruct (wf_column_page r idx pages Hwf _ dp Hl) as (Hwfp & Hfirst & Hnn & Hle & Hnum & _).
  destruct Hinv as (Hpf & Hrows & _ & _ & _ & _ & Hrange & _).
  assert (position it = ParsedPage.first_ordinal p + ParsedPage.offset_in_page p) as Hposn
    by (unfold position; by rewrite Hp).
  split; [congruence|]. split; [lia|].
  rewrite Hrest, length_drop. pose proof length_all_rows. lia.
Qed.

End BatchSequences.

Section SeekAnywhere.
Import Column.

(** [seek_at_or_before] past the last ordinal finds the last page. *)
Lemma last_at_or_before_total pages : forall start idx i ord,
  wf_pages start idx pages ->
  pages <> [] ->
  start <= ord ->
  exists j dp,
    OrdinalIndex.last_at_or_before ord i idx = Some (i + j)%nat /\
    pages !! j = Some dp /\
    ColumnReader.dp_first_ordinal dp <= ord /\
    (ord < ColumnReader.dp_first_ordinal dp + ColumnReader.dp_num_values dp \/
     (S j = length pages /\ start + total_rows pages <= ord)).
Proof.
  induction pages as [|dp pages IH]; intros start [|e idx] i ord Hwf Hne Hord;
    simpl in *; try done.
  destruct Hwf as (Hf & Hlast & Hdf & Hwfp & Hwf).
  destruct (Z.lt_ge_cases ord (start + ColumnReader.dp_num_values dp)) as [Hin|Hout].
  - rewrite last_at_or_before_none.
    + destruct (Z.leb_spec (OrdinalIndex.first_ordinal e) ord); [|lia].
      exists 0%nat, dp. rewrite Nat.add_0_r. split; [done|]. split; [done|].
      split; [lia|]. left. lia.
    + eapply Forall_impl; [by eapply wf_pages_firsts|]. simpl. intros. lia.
  - destruct pages as [|dp1 pages'].
    + destruct idx; [|done]. simpl.
      destruct (Z.leb_spec (OrdinalIndex.first_ordinal e) ord); [|destruct Hwfp; lia].
      exists 0%nat, dp. rewrite Nat.add_0_r. split; [done|]. split; [done|].
      split; [lia|]. right. simpl. split; [done|]. lia.
    + destruct (IH _ _ (S i) ord Hwf) as (j & dp' & Hseek & Hl & Hfirst & Hr);
        [done|lia|].
      exists (S j), dp'. rewrite Hseek. split; [f_equal; lia|]. split; [done|].
      split; [done|].
      destruct Hr as [Hr|[Hr Ht]]; [by left|right]. split; [simpl in *; lia|].
      change (total_rows (dp :: dp1 :: pages'))
        with (ColumnReader.dp_num_values dp + total_rows (dp1 :: pages')). lia.
Qed.

End SeekAnywhere.

Lemma reader_seek_any (r : ColumnReader.t) (idx : OrdinalIndex.t)
    (pages : list ColumnReader.DataPage) (k : Z) :
  Column.wf_column r idx pages ->
  0 <= k ->
  (pages = [] ->
   ColumnReader.seek_at_or_before r k = Error NotFound /\
   ColumnReader.seek_to_first r = Error NotFound) /\
  (pages <> [] ->
   ColumnReader.seek_to_first r = Ok 0%nat /\
   exists j dp,
     ColumnReader.seek_at_or_before r k = Ok j /\
     pages !! j = Some dp /\
     ColumnReader.dp_first_ordinal dp <= k /\
     (k < ColumnReader.dp_first_ordinal dp + ColumnReader.dp_num_values dp \/
      (S j = length pages /\ Column.total_rows pages <= k))).
Proof.
  intros (Hload & Hidx & _ & _ & Hpages & _) Hk.
  pose proof (wf_pages_length _ _ _ Hpages) as Hlen.
  unfold ColumnReader.seek_at_or_before, ColumnReader.seek_to_first.
  rewrite Hload, Hidx. simpl. split.
  - intros ->. by destruct idx.
  - intros Hne. split.
    + unfold OrdinalIndex.valid, OrdinalIndex.begin, OrdinalIndex.num_pages.
      rewrite bool_decide_eq_true_2; [done|]. destruct pages; [done|]. simpl in *. lia.
    + destruct (last_at_or_before_total pages 0 idx 0 k Hpages Hne Hk)
        as (j & dp & Hseek & Hl & Hfirst & Hlast).
      exists j, dp. unfold OrdinalIndex.seek_at_or_before. rewrite Hseek. simpl.
      unfold OrdinalIndex.valid, OrdinalIndex.num_pages. rewrite Hlen.
      rewrite bool_decide_eq_true_2 by (by eapply lookup_lt_Some).
      split; [done|]. split; [done|]. split; [done|].
      destruct Hlast as [?|[? ?]]; [by left|right]. split; [done|lia].
Qed.

(** X9: on a column without pages both seeks of the reader return
    [NotFound].  Otherwise [seek_to_first] gives page 0, and
    [seek_at_or_before] gives a page that starts at or before the ordinal:
    the page that holds it, or the last page when the ordinal is past the end
    of the column. *)
Theorem reader_seek_finds_page_or_last (r : ColumnReader.t) (idx : OrdinalIndex.t)
    (pages : list ColumnReader.DataPage) (k : Z) :
  Column.wf_column r idx pages ->
  0 <= k ->
  (pages = [] ->
   ColumnReader.seek_at_or_before r k = Error NotFound /\
   ColumnReader.seek_to_first r = Error NotFound) /\
  (pages <> [] ->
   ColumnReader.seek_to_first r = Ok 0%nat /\
   exists j dp,
     ColumnReader.seek_at_or_before r k = Ok j /\
     pages !! j = Some dp /\
     ColumnReader.dp_first_ordinal dp <= k /\
     (k < ColumnReader.dp_first_ordinal dp + ColumnReader.dp_num_values dp \/
      (S j = length pages /\ Column.total_rows pages <= k))).
Proof. apply reader_seek_any. Qed.

(** X10: [seek_to_ordinal] to the number of rows of the column, the ordinal
    after its last row, fails with [NotFound] on a column without pages;
    otherwise it returns OK, leaves [_current_ordinal] at that ordinal and
    the last page exhausted, its offset the number of rows of the page, and
    every [next_batch] after it returns OK with no row, the block
    untouched. *)
Theorem seek_to_end_reads_nothing (r : ColumnReader.t) (idx : OrdinalIndex.t)
    (pages : list ColumnReader.DataPage) (it : FileColumnIterator.t) :
  Column.wf_column r idx pages ->
  IteratorState.consistent r pages it ->
  let k := Column.total_rows pages in
  (pages = [] -> FileColumnIterator.seek_to_ordinal it k = Error NotFound) /\
  (pages <> [] ->
   exists it' p,
     FileColumnIterator.seek_to_ordinal it k = Ok it' /\
     FileColumnIterator._current_ordinal it' = k /\
     FileColumnIterator._page it' = Some p /\
     S (ParsedPage.page_index p) = length pages /\
     ParsedPage.offset_in_page p = ParsedPage.num_rows p /\
     ParsedPage.has_remaining p = false /\
     forall fuel n dst, (0 < fuel)%nat -> 0 <= n < two64 ->
       exists b,
         FileColumnIterator.next_batch fuel it' n dst = Some (Ok b) /\
         FileColumnIterator.n b = 0 /\
         FileColumnIterator.block b = dst /\
         FileColumnIterator.batch_has_null b = false).
Proof.
  intros Hwf [Hr Hcons] k.
  pose proof Hwf as (Hload & Hidx & Hdata & Hdict & Hpages & Htotal).
  pose proof (wf_pages_length _ _ _ Hpages) as Hlen.
  pose proof (total_rows_nonneg _ _ _ Hpages) as Hnn.
  assert (k = Column.total_rows pages) as Hkeq by done.
  assert (Column.total_rows pages <= k < two64) as Hk by lia.
  clearbody k.
  assert (FileColumnIterator.must_seek it k = Ok true) as Hmust.
  { unfold FileColumnIterator.must_seek. destruct Hcons as [->|Hpos]; [done|].
    destruct Hpos as (_ & p & dp & j & Hp & Hl & Hinv & _).
    rewrite Hp.
    destruct (wf_column_page r idx pages Hwf _ dp Hl) as (Hwfp & _ & Hfn & Hle & _).
    destruct (ParsedPage.contains p k) eqn:Hc; [|done].
    apply (contains_spec dp p k Hwfp Hinv Hfn) in Hc; lia. }
  unfold FileColumnIterator.seek_to_ordinal. rewrite Hmust. simpl.
  split.
  - intros ->. destruct idx; [|done].
    unfold ColumnReader.seek_at_or_before. by rewrite Hr, Hload, Hidx.
  - intros Hne.
    destruct (reader_seek_any r idx pages k Hwf ltac:(lia))
      as [_ Hseek].
    destruct (Hseek Hne) as (_ & j & dp & Hrs & Hl & Hfirst & Hlast).
    destruct (wf_column_page r idx pages Hwf _ dp Hl)
      as (Hwfp & Hf & Hfn & Hle & Hnum & _).
    destruct Hlast as [?|[Hlast _]]; [lia|].
    assert (ColumnReader.dp_first_ordinal dp + ColumnReader.dp_num_values dp =
            Column.total_rows pages) as Hend.
    { rewrite Hf.
      assert (pages = take j pages ++ [dp]) as Hsplit.
      { rewrite <- (take_drop_middle pages j dp Hl) at 1.
        by rewrite (drop_ge pages (S j)) by lia. }
      rewrite Hsplit at 2. rewrite total_rows_app. simpl. lia. }
    rewrite Hr, Hrs. simpl.
    destruct (read_data_page_spec r idx pages Hwf (FileColumnIterator.set_page_iter it j)
                j dp Hr Hl) as (it1 & Hread & Hr1 & Hp1 & Hj1 & Hc1 & _).
    rewrite Hread. simpl. rewrite Hp1. simpl.
    destruct (seek_pos_fields (ParsedPage.create dp j)
                (u64_sub k (ParsedPage.first_ordinal (ParsedPage.create dp j))))
      as (Hoff & Hfirst' & Hrows').
    set (p' := FileColumnIterator._seek_to_pos_in_page _ _) in *.
    assert (ParsedPage.page_index p' = j) as Hidx'.
    { subst p'. unfold FileColumnIterator._seek_to_pos_in_page.
      destruct (_ =? _); [done|]. by destruct (if ParsedPage.has_null _ then _ else _). }
    assert (ParsedPage.offset_in_page p' = ParsedPage.num_rows p') as Hexh.
    { rewrite Hoff, Hrows'. simpl. rewrite u64_sub_small by lia. lia. }
    assert (ParsedPage.has_remaining p' = false) as Hrem.
    { unfold ParsedPage.has_remaining. rewrite Hexh. apply Z.ltb_irrefl. }
    eexists _, p'. split; [done|]. simpl. split; [done|]. split; [done|].
    split; [by rewrite Hidx'|]. split; [done|]. split; [done|].
    intros fuel n dst Hfuel Hn.
    unfold FileColumnIterator.next_batch.
    destruct fuel as [|fuel]; [lia|]. rewrite batch_loop_unfold.
    destruct (Z.gtb_spec n 0) as [Hgt|Hle0].
    + cbv zeta. simpl. rewrite Hrem.
      unfold FileColumnIterator._load_next_page. simpl. rewrite Hj1. simpl.
      rewrite (page_iter_valid_spec r idx pages Hwf _ (OrdinalIndex.next j)) by done.
      simpl. rewrite bool_decide_eq_false_2 by (unfold OrdinalIndex.next; lia).
      simpl. eexists. split; [done|]. simpl.
      split; [|done]. unfold u64_sub, wrap64. by rewrite Z.sub_diag.
    + eexists. split; [done|]. simpl. assert (n = 0) as -> by lia. done.
Qed.

Lemma reader_seek_finds_page_or_last_witness :
  (Samples.scan_pages = [] ->
   ColumnReader.seek_at_or_before Samples.scan_reader 20 = Error NotFound /\
   ColumnReader.seek_to_first Samples.scan_reader = Error NotFound) /\
  (Samples.scan_pages <> [] ->
   ColumnReader.seek_to_first Samples.scan_reader = Ok 0%nat /\
   exists j dp,
     ColumnReader.seek_at_or_before Samples.scan_reader 20 = Ok j /\
     Samples.scan_pages !! j = Some dp /\
     ColumnReader.dp_first_ordinal dp <= 20 /\
     (20 < ColumnReader.dp_first_ordinal dp + ColumnReader.dp_num_values dp \/
      (S j = length Samples.scan_pages /\ Column.total_rows Samples.scan_pages <= 20))).
Proof.
  apply (reader_seek_finds_page_or_last Samples.scan_reader Samples.scan_index
           Samples.scan_pages 20 scan_column_wf). lia.
Defined.

Lemma seek_to_end_reads_nothing_witness :
  exists it' b,
    FileColumnIterator.seek_to_ordinal
      (FileColumnIterator.new_iterator Samples.scan_reader) 10 = Ok it' /\
    FileColumnIterator._current_ordinal it' = 10 /\
    FileColumnIterator.next_batch 1 it' 4 Samples.nullable_block = Some (Ok b) /\
    FileColumnIterator.n b = 0.
Proof.
  destruct (seek_to_end_reads_nothing Samples.scan_reader Samples.scan_index
              Samples.scan_pages (FileColumnIterator.new_iterator Samples.scan_reader)
              scan_column_wf) as [_ Hseek].
  { split; [reflexivity|left; reflexivity]. }
  destruct Hseek as (it' & p & Hs & Hcur & _ & _ & _ & _ & Hnext).
  { intros Heq. discriminate Heq. }
  destruct (Hnext 1%nat 4 Samples.nullable_block) as (b & Hb & Hn & _).
  { lia. }
  { unfold two64. lia. }
  exists it', b. split; [exact Hs|]. split; [exact Hcur|]. split; [exact Hb|exact Hn].
Defined.

Section PageStart.
Import Column IteratorState FileColumnIterator.
Context (r : ColumnReader.t) (idx : OrdinalIndex.t) (pages : list ColumnReader.DataPage).
Hypothesis Hwf : wf_column r idx pages.

(** The pages of a well-formed column share no ordinal. *)
Lemma page_of_ordinal_unique j j' dp dp' k :
  pages !! j = Some dp -> pages !! j' = Some dp' ->
  ColumnReader.dp_first_ordinal dp <= k
    < ColumnReader.dp_first_ordinal dp + ColumnReader.dp_num_values dp ->
  ColumnReader.dp_first_ordinal dp' <= k
    < ColumnReader.dp_first_ordinal dp' + ColumnReader.dp_num_values dp' ->
  j = j'.
Proof.
  assert (forall a b dpa dpb, (a < b)%nat ->
            pages !! a = Some dpa -> pages !! b = Some dpb ->
            ColumnReader.dp_first_ordinal dpa + ColumnReader.dp_num_values dpa <=
            ColumnReader.dp_first_ordinal dpb) as Hmono.
  { intros a b dpa dpb Hab Ha Hb.
    destruct (wf_column_page r idx pages Hwf _ _ Ha) as (_ & Hfa & _).
    destruct (wf_column_page r idx pages Hwf _ _ Hb) as (_ & Hfb & _).
    rewrite Hfa, Hfb.
    replace b with (S a + (b - S a))%nat by lia.
    rewrite <- take_take_drop, total_rows_app, (take_S_r _ _ _ Ha), total_rows_app.
    simpl.
    assert (forall l, Forall wf_page l -> 0 <= total_rows l) as Hnn.
    { induction l as [|x l IH]; intros Hall; [done|].
      apply Forall_cons in Hall as [[Hx _] Hall]. simpl. specialize (IH Hall). lia. }
    assert (Forall wf_page pages) as Hall.
    { apply Forall_lookup. intros i x Hx.
      by destruct (wf_column_page r idx pages Hwf _ _ Hx). }
    pose proof (Hnn _ (Forall_take _ (b - S a) _ (Forall_drop _ (S a) _ Hall))). lia. }
  intros Hl Hl' Hk Hk'.
  destruct (Nat.lt_trichotomy j j') as [Hlt|[->|Hgt]]; [|done|].
  - pose proof (Hmono _ _ _ _ Hlt Hl Hl'). lia.
  - pose proof (Hmono _ _ _ _ Hgt Hl' Hl). lia.
Qed.

End PageStart.

(** X11: [seek_to_page_start] on a positioned iterator returns OK, stays
    on the loaded page at offset 0 with [_current_ordinal] the first ordinal
    of the page, reads no page when the page is reused, and the next batch
    reads the column from the first row of that page. *)
Theorem seek_to_page_start_rewinds (r : ColumnReader.t) (idx : OrdinalIndex.t)
    (pages : list ColumnReader.DataPage) (it : FileColumnIterator.t)
    (m : Z) (fuel : nat) (dst : ColumnBlockView) :
  Column.wf_column r idx pages ->
  IteratorState.positioned r pages it ->
  0 <= m < two64 ->
  (Z.to_nat m < fuel)%nat ->
  exists p it' p' b cs,
    FileColumnIterator._page it = Some p /\
    FileColumnIterator.seek_to_page_start it = Ok it' /\
    FileColumnIterator._page it' = Some p' /\
    ParsedPage.page_index p' = ParsedPage.page_index p /\
    ParsedPage.offset_in_page p' = 0 /\
    FileColumnIterator._current_ordinal it' = ParsedPage.first_ordinal p /\
    (IteratorState.reuses idx it (ParsedPage.first_ordinal p) ->
     FileColumnIterator.page_reads it' = FileColumnIterator.page_reads it) /\
    FileColumnIterator.next_batch fuel it' m dst = Some (Ok b) /\
    FileColumnIterator.block b = block_write dst cs /\
    map cell_value cs =
      take (Z.to_nat m)
        (drop (Z.to_nat (ParsedPage.first_ordinal p)) (Column.all_rows pages)).
Proof.
  intros Hwf Hpos Hm Hfuel.
  pose proof Hpos as (Hr & p & dp & j & Hp & Hl & Hinv & Hcur & Hj & Hiter).
  destruct (wf_column_page r idx pages Hwf _ dp Hl)
    as (Hwfp & Hfirst & Hnn & Hle & Hnum & _).
  pose proof Hwfp as [Hpos0 _].
  pose proof Hinv as (Hpf & Hrows & _).
  destruct (seek_to_ordinal_spec r idx pages Hwf it (ParsedPage.first_ordinal p))
    as (it' & p' & Hseek & Hpos' & Hp' & Hc & Hoff & Hcur' & Hreuse & _).
  { split; [done|]. by right. }
  { lia. }
  destruct (next_batch_spec r idx pages Hwf fuel m it' dst Hpos' Hm Hfuel)
    as (b & cs & Hnext & _ & Hblock & Hcs & _).
  pose proof Hpos' as (_ & p'' & dp' & j' & Hp'' & Hl' & Hinv' & _).
  rewrite Hp' in Hp''. inversion Hp''; subst p''. clear Hp''.
  destruct (wf_column_page r idx pages Hwf _ dp' Hl')
    as (Hwfp' & Hfirst' & Hnn' & Hle' & Hnum' & _).
  pose proof Hwf as (_ & _ & _ & _ & _ & Htotal).
  apply (contains_spec dp' p' _ Hwfp' Hinv' Hnn' ltac:(lia)) in Hc.
  assert (ParsedPage.page_index p' = ParsedPage.page_index p) as Hsame.
  { apply (page_of_ordinal_unique r idx pages Hwf _ _ dp' dp (ParsedPage.first_ordinal p));
      [done|done|lia|lia]. }
  assert (dp' = dp) as -> by (rewrite Hsame in Hl'; congruence).
  destruct Hinv' as (Hpf' & _).
  exists p, it', p', b, cs. split; [done|].
  split; [unfold FileColumnIterator.seek_to_page_start; by rewrite Hp|].
  split; [done|]. split; [done|]. split; [lia|]. split; [done|]. split; [done|].
  split; [done|]. split; [done|].
  rewrite Hcs, (positioned_rest_rows r idx pages Hwf it' Hpos').
  unfold IteratorState.position. rewrite Hp', Hoff.
  f_equal. f_equal. f_equal. lia.
Qed.

Lemma seek_to_page_start_rewinds_witness :
  exists p it' p',
    FileColumnIterator._page Samples.iterator_at_first = Some p /\
    FileColumnIterator.seek_to_page_start Samples.iterator_at_first = Ok it' /\
    FileColumnIterator._page it' = Some p' /\
    ParsedPage.offset_in_page p' = 0 /\
    FileColumnIterator._current_ordinal it' = ParsedPage.first_ordinal p.
Proof.
  destruct (seek_to_page_start_rewinds Samples.scan_reader Samples.scan_index
              Samples.scan_pages Samples.iterator_at_first 3 8 Samples.nullable_block
              scan_column_wf iterator_at_first_positioned)
    as (p & it' & p' & b & cs & Hp & Hseek & Hp' & _ & Hoff & Hcur & _).
  { unfold two64. lia. }
  { simpl. lia. }
  exists p, it', p'. split; [exact Hp|]. split; [exact Hseek|]. split; [exact Hp'|].
  split; [exact Hoff|exact Hcur].
Defined.

(** ** Sequences of batches *)

Section Counters.
Import FileColumnIterator.

Lemma read_data_page_bytes_read it j it' :
  _read_data_page it j = Ok it' -> bytes_read it' = bytes_read it.
Proof.
  unfold _read_data_page.
  destruct (ColumnReader.read_page _ _) as [dp| |]; [|done|done]. simpl.
  destruct (_ && _ && _).
  - destruct (ColumnReader.dict_page _); [|done|done]. simpl.
    intros Heq. by inversion Heq.
  - intros Heq. by inversion Heq.
Qed.

Lemma load_next_page_bytes_read it it' eos :
  _load_next_page it = Ok (it', eos) -> bytes_read it' = bytes_read it.
Proof.
  unfold _load_next_page.
  destruct (_page_iter it) as [j|]; [|done]. simpl.
  destruct (page_iter_valid _) as [v| |]; [|done|done]. simpl.
  destruct v; simpl.
  - destruct (_read_data_page _ _) as [it2| |] eqn:Hread; [|done|done]. simpl.
    destruct (_page it2); [|done]. simpl. intros Heq. inversion Heq; subst. simpl.
    by rewrite (read_data_page_bytes_read _ _ _ Hread).
  - intros Heq. by inversion Heq.
Qed.

Lemma batch_loop_bytes_read fuel : forall it n0 dst0 hn b,
  batch_loop fuel it n0 dst0 hn = Some (Ok b) ->
  bytes_read (iter b) = bytes_read it.
Proof.
  induction fuel as [|fuel IH]; intros it n0 dst0 hn b; rewrite batch_loop_unfold.
  - destruct (n0 >? 0); [done|]. intros Heq. by inversion Heq.
  - destruct (n0 >? 0); [|intros Heq; by inversion Heq].
    cbv zeta.
    destruct (if from_option ParsedPage.has_remaining false (_page it)
              then Ok (it, false) else _load_next_page it)
      as [[it1 eos]| |] eqn:Hload; [|done|done].
    assert (bytes_read it1 = bytes_read it) as Hb.
    { destruct (from_option _ _ _).
      - by inversion Hload.
      - by apply load_next_page_bytes_read in Hload. }
    destruct eos; [intros Heq; by inversion Heq|].
    destruct (_page it1) as [p|]; [|done].
    destruct (if ParsedPage.has_null p then _ else _) as [st'|]; [|done].
    intros Hloop. apply IH in Hloop. by rewrite Hloop.
Qed.

End Counters.

Section RunSteps.
Import Column IteratorState FileColumnIterator.

(** One iteration of the loop over the runs of the null bitmap. *)
Lemma read_runs_step dp fuel nrows st :
  wf_page dp -> ColumnReader.dp_has_null dp = true ->
  ColumnReader.dp_num_values dp < two64 ->
  page_inv dp (page st) ->
  0 < nrows ->
  ParsedPage.offset_in_page (page st) + nrows <= ColumnReader.dp_num_values dp ->
  0 <= current_ordinal st -> current_ordinal st + nrows < two64 ->
  exists run b vals st1,
    (1 <= run <= Z.to_nat nrows)%nat /\
    read_runs (S fuel) nrows st = read_runs fuel (nrows - Z.of_nat run) st1 /\
    page_inv dp (page st1) /\
    ParsedPage.page_index (page st1) = ParsedPage.page_index (page st) /\
    ParsedPage.offset_in_page (page st1) =
      ParsedPage.offset_in_page (page st) + Z.of_nat run /\
    current_ordinal st1 = current_ordinal st + Z.of_nat run /\
    dst st1 = block_write (dst st) (run_cells (Some b) (Z.of_nat run) vals) /\
    has_null st1 = has_null st || b /\
    map cell_value (run_cells (Some b) (Z.of_nat run) vals) =
      (if b then replicate run None else map Some vals) /\
    length vals = (if b then 0 else run)%nat.
Proof.
  intros Hwf Hnull Hnum Hinv Hgt Hoff Hcur Hcur'.
  pose proof Hwf as [Hpos Hlen]. rewrite Hnull in Hlen.
  destruct Hlen as [Hbits Hvals].
  rewrite read_runs_unfold.
  destruct (Z.gtb_spec nrows 0) as [_|Hle]; [|lia].
  destruct Hinv as (Hfirst & Hrows & Hhas & Hbitmap & Hdvals & Hdbits & Hrange & Hdec).
  rewrite Hhas, Hnull in Hdec. destruct Hdec as [Hdpos Hdcur].
  destruct (GetNextRun_spec (ParsedPage.null_decoder (page st)) nrows)
    as (run & b & tail & Hrun & Hdrop & Hrunle); [lia| |].
  { rewrite Hdbits, Hdpos. lia. }
  rewrite Hrun. rewrite Hdbits, Hdpos in Hdrop.
  set (off := Z.to_nat (ParsedPage.offset_in_page (page st))) in *.
  assert (length (drop (PageDecoder.cur (ParsedPage.data_decoder (page st)))
                    (ColumnReader.dp_values dp)) =
          count_unset (drop off (ColumnReader.dp_null_bitmap dp))) as Hrest.
  { rewrite length_drop, Hdcur, Hvals.
    rewrite <- (take_drop off (ColumnReader.dp_null_bitmap dp)) at 1.
    rewrite count_unset_app. lia. }
  rewrite Hdrop, count_unset_app, count_unset_replicate in Hrest.
  set (vals := if negb b
               then take run (drop (PageDecoder.cur (ParsedPage.data_decoder (page st)))
                                (PageDecoder.values (ParsedPage.data_decoder (page st))))
               else []).
  assert (length vals = (if b then 0 else run)%nat) as Hlenvals.
  { subst vals. destruct b; simpl negb; cbv iota; [done|].
    rewrite Hdvals, length_take. lia. }
  assert (map cell_value (run_cells (Some b) (Z.of_nat run) vals) =
          (if b then replicate run None else map Some vals)) as Hcells.
  { destruct b.
    - apply run_cells_nulls.
    - rewrite <- Hlenvals at 1. by apply run_cells_values. }
  assert (u64_sub nrows (Z.of_nat run) = nrows - Z.of_nat run) as Hsub
    by (apply u64_sub_small; lia).
  assert (u64_add (ParsedPage.offset_in_page (page st)) (Z.of_nat run) =
          ParsedPage.offset_in_page (page st) + Z.of_nat run) as Hadd1
    by (apply u64_add_small; lia).
  assert (u64_add (current_ordinal st) (Z.of_nat run) =
          current_ordinal st + Z.of_nat run) as Hadd2
    by (apply u64_add_small; lia).
  assert ((if negb b
           then PageDecoder.next_batch (ParsedPage.data_decoder (page st))
                  (Z.of_nat run)
           else ([], ParsedPage.data_decoder (page st))) =
          (vals, {| PageDecoder.values := ColumnReader.dp_values dp;
                    PageDecoder.cur :=
                      (PageDecoder.cur (ParsedPage.data_decoder (page st)) +
                       length vals)%nat |})) as ->.
  { subst vals. unfold PageDecoder.next_batch. rewrite Nat2Z.id.
    destruct b; simpl negb; cbv iota.
    - destruct (ParsedPage.data_decoder (page st)) as [vs c]. simpl in *.
      by rewrite Hdvals, Nat.add_0_r.
    - by rewrite Hdvals. }
  rewrite Hsub, Hadd1, Hadd2.
  eexists run, b, vals, _. split; [done|]. split; [done|]. simpl.
  split.
  { unfold page_inv. simpl. rewrite Hhas, Hnull.
    repeat (split; [done || lia|]).
    rewrite Z2Nat.inj_add, Nat2Z.id by lia. fold off.
    rewrite <- take_take_drop, count_unset_app, Hdrop.
    rewrite take_app_length' by (by rewrite length_replicate).
    rewrite count_unset_replicate, Hlenvals, Hdcur. done. }
  by repeat (split; [done|]).
Qed.

(** The cells of a run are stamped null, or hold the values of the run. *)
Lemma run_cells_written bit run (vals : list Value) :
  bit = Some true \/ (Z.to_nat run <= length vals)%nat ->
  Forall (fun c => null_bit c = Some true \/ is_Some (data c)) (run_cells bit run vals).
Proof.
  intros Hrun. unfold run_cells. apply Forall_fmap, Forall_forall.
  intros j Hj. simpl. destruct Hrun as [->|Hlen]; [by left|right].
  apply elem_of_seq in Hj. apply lookup_lt_is_Some_2. lia.
Qed.

(** [*has_null] after the runs of a page: it was set, or a row of the runs
    is NULL. *)
Lemma read_runs_has_null dp :
  wf_page dp -> ColumnReader.dp_has_null dp = true ->
  ColumnReader.dp_num_values dp < two64 ->
  forall fuel nrows st st',
  page_inv dp (page st) ->
  0 <= nrows ->
  ParsedPage.offset_in_page (page st) + nrows <= ColumnReader.dp_num_values dp ->
  0 <= current_ordinal st -> current_ordinal st + nrows < two64 ->
  read_runs fuel nrows st = Some st' ->
  exists cs,
    dst st' = block_write (dst st) cs /\
    has_null st' = has_null st || bool_decide (None ∈ map cell_value cs) /\
    Forall (fun c => null_bit c = Some true \/ is_Some (data c)) cs.
Proof.
  intros Hwf Hnull Hnum.
  induction fuel as [|fuel IH]; intros nrows st st' Hinv Hn Hoff Hcur Hcur' Hread.
  - rewrite read_runs_unfold in Hread.
    destruct (Z.gtb_spec nrows 0); [done|]. inversion Hread; subst st'.
    exists []. rewrite block_write_nil. split; [done|]. split; [|done].
    rewrite bool_decide_eq_false_2, orb_false_r; [done|]. by intros ?%elem_of_nil.
  - destruct (Z.gtb_spec nrows 0) as [Hgt|Hle].
    2:{ rewrite read_runs_unfold in Hread.
        destruct (Z.gtb_spec nrows 0); [lia|]. inversion Hread; subst st'.
        exists []. rewrite block_write_nil. split; [done|]. split; [|done].
        rewrite bool_decide_eq_false_2, orb_false_r; [done|]. by intros ?%elem_of_nil. }
    destruct (read_runs_step dp fuel nrows st Hwf Hnull Hnum Hinv Hgt Hoff Hcur Hcur')
      as (run & b & vals & st1 & Hrun & Hstep & Hinv1 & Hidx1 & Hoff1 & Hcur1 & Hdst1
          & Hhn1 & Hcells & Hlen).
    rewrite Hstep in Hread.
    destruct (IH (nrows - Z.of_nat run) st1 st' Hinv1) as (cs & Hdst & Hhn & Hall);
      [lia|lia|lia|lia|done|].
    exists (run_cells (Some b) (Z.of_nat run) vals ++ cs).
    split; [by rewrite Hdst, Hdst1, block_write_app|].
    split.
    2:{ apply Forall_app. split; [|done]. apply run_cells_written.
        destruct b; [by left|right]. lia. }
    rewrite Hhn, Hhn1, map_app, Hcells, <- orb_assoc. f_equal.
    destruct b; simpl.
    + rewrite bool_decide_eq_true_2; [done|].
      apply elem_of_app. left. destruct run as [|run]; [lia|]. simpl. by left.
    + destruct (bool_decide (None ∈ map cell_value cs)) eqn:Hd.
      * apply bool_decide_eq_true in Hd. rewrite bool_decide_eq_true_2; [done|].
        apply elem_of_app. by right.
      * apply bool_decide_eq_false in Hd. rewrite bool_decide_eq_false_2; [done|].
        intros [Hin|Hin]%elem_of_app; [|done].
        apply list_elem_of_fmap in Hin as (v & Hv & _). done.
Qed.

End RunSteps.

Section BatchSteps.
Import Column IteratorState FileColumnIterator.
Context (r : ColumnReader.t) (idx : OrdinalIndex.t) (pages : list ColumnReader.DataPage).
Hypothesis Hwf : wf_column r idx pages.

Lemma read_plain_has_null nrows st :
  has_null (read_plain nrows st) = has_null st.
Proof. unfold read_plain. by destruct (PageDecoder.next_batch _ _). Qed.

Lemma read_plain_dst nrows st :
  exists vals,
    dst (read_plain nrows st) =
      block_write (dst st)
        (run_cells (if is_nullable (dst st) then Some false else None)
           (Z.of_nat (length vals)) vals).
Proof.
  unfold read_plain. destruct (PageDecoder.next_batch _ _) as [vals dd].
  by exists vals.
Qed.

(** One iteration of the loop of [next_batch]: the column is at its end, or
    rows of one page are read and the loop goes on from the iterator they
    leave. *)
Lemma batch_loop_step fuel it n0 dst0 hn :
  positioned r pages it ->
  0 < n0 < two64 ->
  (Z.to_nat n0 <= fuel)%nat ->
  let loaded :=
    if from_option ParsedPage.has_remaining false (_page it)
    then Ok (it, false)
    else _load_next_page it in
  (exists it1,
     loaded = Ok (it1, true) /\
     batch_loop (S fuel) it n0 dst0 hn =
       Some (Ok {| iter := it1; n := n0; block := dst0; batch_has_null := hn |}) /\
     positioned r pages it1 /\ rest_rows pages it = []) \/
  (exists it1 p dp st',
     loaded = Ok (it1, false) /\
     _page it1 = Some p /\ pages !! ParsedPage.page_index p = Some dp /\
     page_inv dp p /\
     _current_ordinal it1 = ParsedPage.first_ordinal p + ParsedPage.offset_in_page p /\
     let nrows := Z.min n0 (ParsedPage.num_rows p - ParsedPage.offset_in_page p) in
     let st := {| page := p; dst := dst0; current_ordinal := _current_ordinal it1;
                  has_null := hn |} in
     1 <= nrows /\
     (if ParsedPage.has_null p
      then read_runs (S fuel) nrows st
      else Some (read_plain nrows st)) = Some st' /\
     let it2 := set_current_ordinal (set_page it1 (page st')) (current_ordinal st') in
     batch_loop (S fuel) it n0 dst0 hn =
       batch_loop fuel it2 (n0 - nrows) (dst st') (has_null st') /\
     positioned r pages it2 /\
     _page_iter it2 = _page_iter it1 /\
     page_reads it2 = page_reads it1 /\
     ParsedPage.page_index (page st') = ParsedPage.page_index p).
Proof.
  intros Hpos Hn Hfuel loaded. subst loaded.
  rewrite batch_loop_unfold.
  destruct (Z.gtb_spec n0 0) as [Hgt|Hle]; [|lia].
  cbv zeta.
  destruct (ensure_page_spec r idx pages Hwf it Hpos)
    as [(it1 & Hload & Hpos1 & Hrest & Hrest1)
       |(it1 & p & dp & Hload & Hpos1 & Hp & Hl & Hinv & Hrem & Hrest)].
  - left. exists it1. rewrite Hload. by repeat (split; [done|]).
  - right. rewrite Hload, Hp.
    pose proof Hinv as (Hpf & Hrows & Hhas & _ & _ & _ & Hrange & _).
    destruct (wf_column_page r idx pages Hwf _ dp Hl)
      as (Hwfp & Hfirst & Hnn & Hle & Hnum & _).
    assert (ParsedPage.remaining p =
            ParsedPage.num_rows p - ParsedPage.offset_in_page p) as Hremaining
      by (unfold ParsedPage.remaining; apply u64_sub_small; lia).
    rewrite Hremaining.
    set (nrows := Z.min n0 (ParsedPage.num_rows p - ParsedPage.offset_in_page p)).
    assert (1 <= nrows <= n0) as Hnrows by (subst nrows; lia).
    assert (_current_ordinal it1 =
            ParsedPage.first_ordinal p + ParsedPage.offset_in_page p) as Hcur.
    { destruct Hpos1 as (_ & p' & dp' & j' & Hp' & _ & _ & Hc & _).
      rewrite Hp in Hp'. by inversion Hp'; subst p'. }
    destruct (read_page_rows_spec r idx pages Hwf (S fuel) p dp nrows dst0
                (_current_ordinal it1) hn)
      as (st' & cs1 & Hread & Hinv' & Hidx' & Hoff' & Hcur' & Hdst & Hcs1);
      try done; try lia.
    exists it1, p, dp, st'. rewrite Hread, u64_sub_small by lia.
    repeat (split; [done || lia|]).
    split; [|done].
    destruct Hpos1 as (Hr1 & p' & dp' & j' & Hp' & Hl' & _ & _ & Hj' & Hiter').
    rewrite Hp in Hp'. inversion Hp'; subst p'.
    split; [done|]. exists (page st'), dp, j'. simpl.
    rewrite Hidx'. by repeat (split; [done|]).
Qed.

(** [*has_null] after the loop: it was set, or a row the loop wrote is
    NULL. *)
Lemma batch_loop_has_null : forall fuel n0 it dst0 hn b,
  positioned r pages it ->
  0 <= n0 < two64 ->
  (Z.to_nat n0 < fuel)%nat ->
  batch_loop fuel it n0 dst0 hn = Some (Ok b) ->
  exists cs,
    block b = block_write dst0 cs /\
    batch_has_null b = hn || bool_decide (None ∈ map cell_value cs) /\
    Forall (fun c => null_bit c = Some true \/ is_Some (data c)) cs.
Proof.
  assert (forall hn, hn = hn || bool_decide (None ∈ map cell_value [])) as Hnil.
  { intros hn. rewrite bool_decide_eq_false_2, orb_false_r; [done|].
    by intros ?%elem_of_nil. }
  induction fuel as [|fuel IH]; intros n0 it dst0 hn b Hpos Hn Hfuel Hloop; [lia|].
  destruct (Z.gtb_spec n0 0) as [Hgt|Hle].
  2:{ rewrite batch_loop_unfold in Hloop.
      destruct (Z.gtb_spec n0 0); [lia|]. inversion Hloop; subst b. simpl.
      exists []. by rewrite block_write_nil. }
  destruct (batch_loop_step fuel it n0 dst0 hn Hpos)
    as [(it1 & _ & Hstep & _)
       |(it1 & p & dp & st' & _ & Hp & Hl & Hinv & Hcur & Hnrows & Hread & Hstep
         & Hpos2 & _)]; [lia|lia| |].
  - rewrite Hstep in Hloop. inversion Hloop; subst b. simpl.
    exists []. by rewrite block_write_nil.
  - cbv zeta in Hstep. rewrite Hstep in Hloop.
    set (nrows := Z.min n0 (ParsedPage.num_rows p - ParsedPage.offset_in_page p)) in *.
    assert (nrows <= n0) as Hle0 by (subst nrows; lia).
    destruct (IH (n0 - nrows) _ (dst st') (has_null st') b Hpos2)
      as (cs2 & Hblock & Hflag & Hall2); [lia|lia|exact Hloop|].
    pose proof Hinv as (Hpf & Hrows & Hhas & _ & _ & _ & Hrange & _).
    destruct (wf_column_page r idx pages Hwf _ dp Hl)
      as (Hwfp & Hfirst & Hnn & Hle & Hnum & _).
    destruct Hwf as (_ & _ & _ & _ & _ & Htotal).
    assert (exists cs1, dst st' = block_write dst0 cs1 /\
              has_null st' = hn || bool_decide (None ∈ map cell_value cs1) /\
              Forall (fun c => null_bit c = Some true \/ is_Some (data c)) cs1)
      as (cs1 & Hdst1 & Hflag1 & Hall1).
    { destruct (ParsedPage.has_null p) eqn:Hnull.
      - apply (read_runs_has_null dp Hwfp ltac:(congruence) Hnum (S fuel) nrows
                 {| page := p; dst := dst0; current_ordinal := _current_ordinal it1;
                    has_null := hn |} st'); simpl; try done; lia.
      - inversion Hread; subst st'.
        destruct (read_plain_spec dp nrows
                    {| page := p; dst := dst0; current_ordinal := _current_ordinal it1;
                       has_null := hn |} Hwfp ltac:(congruence) Hnum)
          as (cs1 & _ & _ & _ & _ & Hdst1 & Hcs1); simpl; try done; try lia.
        exists cs1. split; [done|]. split.
        2:{ destruct (read_plain_dst nrows
                        {| page := p; dst := dst0;
                           current_ordinal := _current_ordinal it1;
                           has_null := hn |}) as [vals Hvals].
            rewrite Hvals in Hdst1. unfold block_write in Hdst1.
            inversion Hdst1 as [Happ]. apply app_inv_head in Happ. subst cs1.
            apply run_cells_written. right. lia. }
        rewrite bool_decide_eq_false_2, orb_false_r; [done|].
        rewrite Hcs1. unfold page_rows.
        replace (ColumnReader.dp_has_null dp) with false by congruence.
        intros Hin.
        assert (Forall (fun o : option Value => o <> None)
                  (map Some (ColumnReader.dp_values dp))) as Hall.
        { apply Forall_fmap, Forall_forall. by intros v _. }
        apply (Forall_drop _ (Z.to_nat (ParsedPage.offset_in_page p))) in Hall.
        apply (Forall_take _ (Z.to_nat nrows)) in Hall.
        by apply (proj1 (Forall_forall _ _) Hall None Hin). }
    exists (cs1 ++ cs2). split; [by rewrite Hblock, Hdst1, block_write_app|].
    split; [|by apply Forall_app].
    rewrite Hflag, Hflag1, map_app, <- orb_assoc. f_equal.
    apply eq_true_iff_eq. rewrite orb_true_iff, !bool_decide_eq_true, elem_of_app.
    done.
Qed.

End BatchSteps.

(** X12: [next_batch] on a positioned iterator returns OK having read
    [min(n, rows left)] rows; [_current_ordinal] moves by that number, the
    block grows by that many cells, and [bytes_read] grows by that many values
    of the block's type and the size of a bitmap of that many bits. *)
Theorem next_batch_accounting (r : ColumnReader.t) (idx : OrdinalIndex.t)
    (pages : list ColumnReader.DataPage) (it : FileColumnIterator.t)
    (n0 : Z) (fuel : nat) (dst : ColumnBlockView) :
  Column.wf_column r idx pages ->
  IteratorState.positioned r pages it ->
  0 <= n0 < two64 ->
  (Z.to_nat n0 < fuel)%nat ->
  exists b,
    FileColumnIterator.next_batch fuel it n0 dst = Some (Ok b) /\
    FileColumnIterator.n b =
      Z.min n0 (Column.total_rows pages - FileColumnIterator._current_ordinal it) /\
    FileColumnIterator._current_ordinal (FileColumnIterator.iter b) =
      FileColumnIterator._current_ordinal it + FileColumnIterator.n b /\
    FileColumnIterator.bytes_read (FileColumnIterator.iter b) =
      FileColumnIterator.bytes_read it +
      (FileColumnIterator.n b * type_size dst + BitmapSize (FileColumnIterator.n b)) /\
    length (cells (FileColumnIterator.block b)) =
      (length (cells dst) + Z.to_nat (FileColumnIterator.n b))%nat.
Proof.
  intros Hwf Hpos Hn Hfuel.
  destruct (batch_loop_spec r idx pages Hwf fuel n0 it dst false Hpos Hn Hfuel)
    as (b & cs & Hloop & Hposb & Hblock & Hcs & Hnb & Hrest).
  pose proof (batch_loop_bytes_read _ _ _ _ _ _ Hloop) as Hbytes.
  destruct (positioned_position r idx pages Hwf it Hpos) as (Hcur & Hrange & Hlen).
  destruct (positioned_position r idx pages Hwf _ Hposb) as (Hcur' & Hrange' & Hlen').
  assert (Z.of_nat (length cs) =
          Z.min n0 (Column.total_rows pages - FileColumnIterator._current_ordinal it))
    as Hlcs.
  { rewrite <- (length_map cell_value), Hcs, length_take. lia. }
  rewrite Hrest, length_drop in Hlen'.
  unfold FileColumnIterator.next_batch. rewrite Hloop.
  eexists. split; [done|]. simpl.
  rewrite Hnb, u64_sub_small by lia.
  replace (n0 - (n0 - Z.of_nat (length cs))) with (Z.of_nat (length cs)) by lia.
  split; [done|]. split; [lia|]. split; [by rewrite Hbytes|].
  rewrite Hblock. simpl. rewrite length_app. lia.
Qed.

(** X13: a batch of [a] rows followed by a batch of [b] rows into the same
    block reads the same rows, the same number of rows, and ends at the same
    ordinal as one batch of [a + b] rows. *)
Theorem next_batch_compose (r : ColumnReader.t) (idx : OrdinalIndex.t)
    (pages : list ColumnReader.DataPage) (it : FileColumnIterator.t)
    (a b : Z) (fuel : nat) (dst : ColumnBlockView) :
  Column.wf_column r idx pages ->
  IteratorState.positioned r pages it ->
  0 <= a -> 0 <= b -> a + b < two64 ->
  (Z.to_nat (a + b) < fuel)%nat ->
  exists b1 b2 b12,
    FileColumnIterator.next_batch fuel it a dst = Some (Ok b1) /\
    FileColumnIterator.next_batch fuel (FileColumnIterator.iter b1) b
      (FileColumnIterator.block b1) = Some (Ok b2) /\
    FileColumnIterator.next_batch fuel it (a + b) dst = Some (Ok b12) /\
    map cell_value (cells (FileColumnIterator.block b2)) =
      map cell_value (cells (FileColumnIterator.block b12)) /\
    FileColumnIterator.n b1 + FileColumnIterator.n b2 = FileColumnIterator.n b12 /\
    FileColumnIterator._current_ordinal (FileColumnIterator.iter b2) =
      FileColumnIterator._current_ordinal (FileColumnIterator.iter b12).
Proof.
  intros Hwf Hpos Ha Hb Hab Hfuel.
  destruct (next_batch_spec r idx pages Hwf fuel a it dst Hpos)
    as (b1 & cs1 & Hn1 & Hpos1 & Hblock1 & Hcs1 & Hlen1 & Hrest1); [lia|lia|].
  destruct (next_batch_spec r idx pages Hwf fuel b (FileColumnIterator.iter b1)
              (FileColumnIterator.block b1) Hpos1)
    as (b2 & cs2 & Hn2 & Hpos2 & Hblock2 & Hcs2 & Hlen2 & Hrest2); [lia|lia|].
  destruct (next_batch_spec r idx pages Hwf fuel (a + b) it dst Hpos)
    as (b12 & cs & Hn12 & Hpos12 & Hblock12 & Hcs & Hlen & Hrest); [lia|lia|].
  exists b1, b2, b12. repeat (split; [done|]).
  assert (map cell_value (cs1 ++ cs2) = map cell_value cs) as Hrows.
  { rewrite map_app, Hcs1, Hcs2, Hrest1, Hcs.
    by rewrite Z2Nat.inj_add, take_take_drop by lia. }
  split.
  { rewrite Hblock2, Hblock1, Hblock12. simpl.
    rewrite <- app_assoc, !map_app. rewrite map_app in Hrows. by rewrite Hrows. }
  split.
  { rewrite Hlen1, Hlen2, Hlen, <- Nat2Z.inj_add, <- length_app.
    by rewrite <- (length_map cell_value (cs1 ++ cs2)), Hrows, length_map. }
  destruct (positioned_position r idx pages Hwf _ Hpos2) as (-> & Hr2 & Hl2).
  destruct (positioned_position r idx pages Hwf _ Hpos12) as (-> & Hr12 & Hl12).
  rewrite Hrest2, Hrest1, drop_drop in Hl2. rewrite Hrest in Hl12.
  rewrite Z2Nat.inj_add in Hl12 by lia. lia.
Qed.

(** X14: a [next_batch] that returns fewer rows than asked has reached
    the end of the column, and every later [next_batch] returns OK with no
    row, leaves the block untouched and stays at the end. *)
Theorem next_batch_after_short_read (r : ColumnReader.t) (idx : OrdinalIndex.t)
    (pages : list ColumnReader.DataPage) (it : FileColumnIterator.t)
    (n0 : Z) (fuel : nat) (dst : ColumnBlockView) (b : FileColumnIterator.Batch) :
  Column.wf_column r idx pages ->
  IteratorState.positioned r pages it ->
  0 <= n0 < two64 ->
  (Z.to_nat n0 < fuel)%nat ->
  FileColumnIterator.next_batch fuel it n0 dst = Some (Ok b) ->
  FileColumnIterator.n b < n0 ->
  FileColumnIterator._current_ordinal (FileColumnIterator.iter b) =
    Column.total_rows pages /\
  forall m fuel' dst', 0 <= m < two64 -> (Z.to_nat m < fuel')%nat ->
    exists b',
      FileColumnIterator.next_batch fuel' (FileColumnIterator.iter b) m dst' =
        Some (Ok b') /\
      FileColumnIterator.n b' = 0 /\
      FileColumnIterator.block b' = dst' /\
      FileColumnIterator.batch_has_null b' = false /\
      FileColumnIterator._current_ordinal (FileColumnIterator.iter b') =
        Column.total_rows pages.
Proof.
  intros Hwf Hpos Hn Hfuel Hnext Hshort.
  destruct (next_batch_spec r idx pages Hwf fuel n0 it dst Hpos Hn Hfuel)
    as (b0 & cs & Hn0 & Hposb & Hblock & Hcs & Hlen & Hrest).
  rewrite Hnext in Hn0. inversion Hn0; subst b0. clear Hn0.
  assert (IteratorState.rest_rows pages (FileColumnIterator.iter b) = []) as Hend.
  { rewrite Hrest. apply drop_ge.
    assert (length cs = length (take (Z.to_nat n0) (IteratorState.rest_rows pages it)))
      as Hl by (by rewrite <- Hcs, length_map).
    rewrite length_take in Hl. lia. }
  destruct (positioned_position r idx pages Hwf _ Hposb) as (Hcur & Hrange & Hl).
  rewrite Hend in Hl. simpl in Hl.
  split; [lia|].
  intros m fuel' dst' Hm Hfuel'.
  destruct (batch_loop_spec r idx pages Hwf fuel' m _ dst' false Hposb Hm Hfuel')
    as (b' & cs' & Hloop & Hposb' & Hblock' & Hcs' & Hnb' & Hrest').
  rewrite Hend, take_nil in Hcs'. apply fmap_nil_inv in Hcs'. subst cs'.
  rewrite Hend, drop_nil in Hrest'.
  destruct (positioned_position r idx pages Hwf _ Hposb') as (Hcur' & Hrange' & Hl').
  rewrite Hrest' in Hl'. simpl in Hl', Hnb'.
  assert (FileColumnIterator.batch_has_null b' = false) as Hhn.
  { destruct (batch_loop_has_null r idx pages Hwf fuel' m _ dst' false b' Hposb Hm
                Hfuel' Hloop) as (cs' & Hb' & -> & _).
    rewrite Hblock' in Hb'. unfold block_write in Hb'. inversion Hb' as [Happ].
    apply app_inv_head in Happ. by subst cs'. }
  unfold FileColumnIterator.next_batch. rewrite Hloop.
  eexists. split; [done|]. simpl.
  rewrite Hnb', Z.sub_0_r, u64_sub_small by lia.
  split; [lia|]. split; [by rewrite Hblock', block_write_nil|]. split; [done|]. lia.
Qed.

Lemma next_batch_accounting_witness :
  exists b,
    FileColumnIterator.next_batch 8 Samples.iterator_at_first 6 Samples.nullable_block
      = Some (Ok b) /\
    FileColumnIterator.n b =
      Z.min 6 (Column.total_rows Samples.scan_pages -
               FileColumnIterator._current_ordinal Samples.iterator_at_first) /\
    FileColumnIterator._current_ordinal (FileColumnIterator.iter b) =
      FileColumnIterator._current_ordinal Samples.iterator_at_first +
      FileColumnIterator.n b /\
    FileColumnIterator.bytes_read (FileColumnIterator.iter b) =
      FileColumnIterator.bytes_read Samples.iterator_at_first +
      (FileColumnIterator.n b * type_size Samples.nullable_block +
       BitmapSize (FileColumnIterator.n b)) /\
    length (cells (FileColumnIterator.block b)) =
      (length (cells Samples.nullable_block) + Z.to_nat (FileColumnIterator.n b))%nat.
Proof.
  apply (next_batch_accounting Samples.scan_reader Samples.scan_index Samples.scan_pages
           Samples.iterator_at_first 6 8 Samples.nullable_block scan_column_wf
           iterator_at_first_positioned).
  - unfold two64. lia.
  - simpl. lia.
Defined.

Lemma next_batch_compose_witness :
  exists b1 b2 b12,
    FileColumnIterator.next_batch 16 Samples.iterator_at_first 3 Samples.nullable_block
      = Some (Ok b1) /\
    FileColumnIterator.next_batch 16 (FileColumnIterator.iter b1) 4
      (FileColumnIterator.block b1) = Some (Ok b2) /\
    FileColumnIterator.next_batch 16 Samples.iterator_at_first (3 + 4)
      Samples.nullable_block = Some (Ok b12) /\
    map cell_value (cells (FileColumnIterator.block b2)) =
      map cell_value (cells (FileColumnIterator.block b12)) /\
    FileColumnIterator.n b1 + FileColumnIterator.n b2 = FileColumnIterator.n b12 /\
    FileColumnIterator._current_ordinal (FileColumnIterator.iter b2) =
      FileColumnIterator._current_ordinal (FileColumnIterator.iter b12).
Proof.
  apply (next_batch_compose Samples.scan_reader Samples.scan_index Samples.scan_pages
           Samples.iterator_at_first 3 4 16 Samples.nullable_block scan_column_wf
           iterator_at_first_positioned).
  - lia.
  - lia.
  - unfold two64. lia.
  - simpl. lia.
Defined.

Lemma next_batch_after_short_read_witness :
  FileColumnIterator._current_ordinal (FileColumnIterator.iter Samples.batch_to_end) =
    Column.total_rows Samples.scan_pages /\
  exists b',
    FileColumnIterator.next_batch 8 (FileColumnIterator.iter Samples.batch_to_end) 5
      Samples.nullable_block = Some (Ok b') /\
    FileColumnIterator.n b' = 0.
Proof.
  destruct (next_batch_after_short_read Samples.scan_reader Samples.scan_index
              Samples.scan_pages Samples.iterator_at_first 20 32 Samples.nullable_block
              Samples.batch_to_end scan_column_wf iterator_at_first_positioned)
    as [Hend Hlater].
  { unfold two64. lia. }
  { simpl. lia. }
  { vm_compute. reflexivity. }
  { vm_compute. reflexivity. }
  split; [exact Hend|].
  destruct (Hlater 5 8%nat Samples.nullable_block) as (b' & Hb' & Hn & _).
  { unfold two64. lia. }
  { simpl. lia. }
  exists b'. split; [exact Hb'|exact Hn].
Defined.

(** X15: [next_batch] reports [has_null] exactly when one of the rows it
    has written in the block is null. *)
Theorem next_batch_has_null_iff_null_row (r : ColumnReader.t) (idx : OrdinalIndex.t)
    (pages : list ColumnReader.DataPage) (it : FileColumnIterator.t)
    (n0 : Z) (fuel : nat) (dst : ColumnBlockView) :
  Column.wf_column r idx pages ->
  IteratorState.positioned r pages it ->
  0 <= n0 < two64 ->
  (Z.to_nat n0 < fuel)%nat ->
  exists b cs,
    FileColumnIterator.next_batch fuel it n0 dst = Some (Ok b) /\
    FileColumnIterator.block b = block_write dst cs /\
    map cell_value cs = take (Z.to_nat n0) (IteratorState.rest_rows pages it) /\
    (FileColumnIterator.batch_has_null b = true <-> None ∈ map cell_value cs).
Proof.
  intros Hwf Hpos Hn Hfuel.
  destruct (batch_loop_spec r idx pages Hwf fuel n0 it dst false Hpos Hn Hfuel)
    as (b & cs & Hloop & _ & Hblock & Hcs & _).
  destruct (batch_loop_has_null r idx pages Hwf fuel n0 it dst false b Hpos Hn Hfuel Hloop)
    as (cs' & Hblock' & Hflag & _).
  assert (cs' = cs) as ->.
  { rewrite Hblock in Hblock'. unfold block_write in Hblock'.
    inversion Hblock' as [Happ]. by apply app_inv_head in Happ. }
  unfold FileColumnIterator.next_batch. rewrite Hloop.
  eexists _, cs. split; [done|]. simpl. split; [done|]. split; [done|].
  rewrite Hflag. simpl. by rewrite bool_decide_eq_true.
Qed.

Lemma next_batch_has_null_iff_null_row_witness :
  exists b cs,
    FileColumnIterator.next_batch 8 Samples.iterator_at_first 3 Samples.nullable_block
      = Some (Ok b) /\
    FileColumnIterator.block b = block_write Samples.nullable_block cs /\
    map cell_value cs =
      take (Z.to_nat 3)
        (IteratorState.rest_rows Samples.scan_pages Samples.iterator_at_first) /\
    (FileColumnIterator.batch_has_null b = true <-> None ∈ map cell_value cs).
Proof.
  apply (next_batch_has_null_iff_null_row Samples.scan_reader Samples.scan_index
           Samples.scan_pages Samples.iterator_at_first 3 8 Samples.nullable_block
           scan_column_wf iterator_at_first_positioned).
  - unfold two64. lia.
  - simpl. lia.
Defined.

(** ** Reads of pages *)

Section DictionaryPage.
Import FileColumnIterator PageReads.
Context (r : ColumnReader.t).

Lemma dict_page_reads_app l1 l2 :
  dict_page_reads (l1 ++ l2) = (dict_page_reads l1 + dict_page_reads l2)%nat.
Proof. unfold dict_page_reads. by rewrite filter_app, length_app. Qed.

Lemma dict_page_reads_data j : dict_page_reads [DataPageRead j] = 0%nat.
Proof. reflexivity. Qed.

Lemma dict_page_reads_dict : dict_page_reads [DictPageRead] = 1%nat.
Proof. reflexivity. Qed.

Lemma read_data_page_dict it j it' :
  dict_read_once r it -> _read_data_page it j = Ok it' -> dict_read_once r it'.
Proof.
  intros (Hr & Hcount & Henc). unfold _read_data_page.
  destruct (ColumnReader.read_page _ _) as [dp| |]; [|done|done]. simpl.
  destruct (bool_decide (_ = _) && _ && _) eqn:Hcond.
  - apply andb_true_iff in Hcond as [[Hdict _]%andb_true_iff Hdec].
    apply bool_decide_eq_true in Hdict. apply negb_true_iff in Hdec.
    destruct (ColumnReader.dict_page _); [|done|done]. simpl.
    intros Heq. inversion Heq; subst it'. split; [done|]. split; simpl.
    + rewrite !dict_page_reads_app, Hcount, Hdec.
      by rewrite dict_page_reads_data, dict_page_reads_dict.
    + intros _. by rewrite <- Hr.
  - intros Heq. inversion Heq; subst it'. split; [done|]. split; simpl; [|done].
    rewrite dict_page_reads_app, Hcount, dict_page_reads_data. lia.
Qed.

Lemma set_page_dict it p : dict_read_once r it -> dict_read_once r (set_page it p).
Proof. done. Qed.

Lemma set_page_iter_dict it j : dict_read_once r it -> dict_read_once r (set_page_iter it j).
Proof. done. Qed.

Lemma set_current_ordinal_dict it k :
  dict_read_once r it -> dict_read_once r (set_current_ordinal it k).
Proof. done. Qed.

Lemma seek_to_first_dict it it' :
  dict_read_once r it -> seek_to_first it = Ok it' -> dict_read_once r it'.
Proof.
  intros Hd. unfold seek_to_first.
  destruct (ColumnReader.seek_to_first _) as [j| |]; [|done|done]. simpl.
  destruct (_read_data_page _ _) as [it1| |] eqn:Hread; [|done|done]. simpl.
  apply read_data_page_dict in Hread; [|done].
  destruct (_page it1); [|done]. simpl. intros Heq. by inversion Heq; subst it'.
Qed.

Lemma seek_to_ordinal_dict it k it' :
  dict_read_once r it -> seek_to_ordinal it k = Ok it' -> dict_read_once r it'.
Proof.
  intros Hd. unfold seek_to_ordinal.
  destruct (must_seek it k) as [seek| |]; [|done|done]. simpl.
  destruct seek.
  - destruct (ColumnReader.seek_at_or_before _ _) as [j| |]; [|done|done]. simpl.
    destruct (_read_data_page _ _) as [it1| |] eqn:Hread; [|done|done]. simpl.
    apply read_data_page_dict in Hread; [|done].
    destruct (_page it1); [|done]. simpl. intros Heq. by inversion Heq; subst it'.
  - simpl. destruct (_page it); [|done]. simpl. intros Heq. by inversion Heq; subst it'.
Qed.

Lemma load_next_page_dict it it' eos :
  dict_read_once r it -> _load_next_page it = Ok (it', eos) -> dict_read_once r it'.
Proof.
  intros Hd. unfold _load_next_page.
  destruct (_page_iter it) as [j|]; [|done]. simpl.
  destruct (page_iter_valid _) as [v| |]; [|done|done]. simpl.
  destruct v; simpl.
  - destruct (_read_data_page _ _) as [it2| |] eqn:Hread; [|done|done]. simpl.
    apply read_data_page_dict in Hread; [|done].
    destruct (_page it2); [|done]. simpl. intros Heq. by inversion Heq; subst.
  - intros Heq. by inversion Heq; subst.
Qed.

Lemma batch_loop_dict fuel : forall it n0 dst0 hn b,
  dict_read_once r it ->
  batch_loop fuel it n0 dst0 hn = Some (Ok b) -> dict_read_once r (iter b).
Proof.
  induction fuel as [|fuel IH]; intros it n0 dst0 hn b Hd; rewrite batch_loop_unfold.
  - destruct (n0 >? 0); [done|]. intros Heq. by inversion Heq.
  - destruct (n0 >? 0); [|intros Heq; by inversion Heq].
    cbv zeta.
    destruct (if from_option ParsedPage.has_remaining false (_page it)
              then Ok (it, false) else _load_next_page it)
      as [[it1 eos]| |] eqn:Hload; [|done|done].
    assert (dict_read_once r it1) as Hd1.
    { destruct (from_option _ _ _).
      - by inversion Hload; subst.
      - by apply load_next_page_dict in Hload. }
    destruct eos; [intros Heq; by inversion Heq|].
    destruct (_page it1) as [p|]; [|done].
    destruct (if ParsedPage.has_null p then _ else _) as [st'|]; [|done].
    intros Hloop. by apply IH in Hloop.
Qed.

Lemma next_batch_dict fuel it n0 dst0 b :
  dict_read_once r it ->
  next_batch fuel it n0 dst0 = Some (Ok b) -> dict_read_once r (iter b).
Proof.
  intros Hd. unfold next_batch.
  destruct (batch_loop fuel it n0 dst0 false) as [[b0| |]|] eqn:Hloop; try done.
  apply batch_loop_dict in Hloop; [|done].
  intros Heq. inversion Heq; subst b. exact Hloop.
Qed.

Lemma run_dict fuel dst ops : forall it it',
  dict_read_once r it ->
  IteratorState.run fuel ops it dst = Some (Ok it') -> dict_read_once r it'.
Proof.
  induction ops as [|op ops IH]; intros it it' Hd; simpl.
  - intros Heq. by inversion Heq; subst.
  - destruct op as [|k|n0].
    + destruct (seek_to_first it) as [it1| |] eqn:Hs; [|done|done].
      apply IH. by apply (seek_to_first_dict it).
    + destruct (seek_to_ordinal it k) as [it1| |] eqn:Hs; [|done|done].
      apply IH. by apply (seek_to_ordinal_dict it k).
    + destruct (next_batch fuel it n0 dst) as [[b| |]|] eqn:Hn; try done.
      apply IH. by apply (next_batch_dict fuel it n0 dst).
Qed.

End DictionaryPage.

(** X16: over any sequence of seeks and batches from a new iterator, the
    dictionary page is read at most once: once exactly when the iterator has
    come to hold a dictionary decoder, and never for a column whose encoding
    is not the dictionary encoding. *)
Theorem dict_page_read_at_most_once (r : ColumnReader.t) (fuel : nat)
    (ops : list IteratorState.Op) (dst : ColumnBlockView) (it' : FileColumnIterator.t) :
  IteratorState.run fuel ops (FileColumnIterator.new_iterator r) dst = Some (Ok it') ->
  (PageReads.dict_page_reads (FileColumnIterator.page_reads it') <= 1)%nat /\
  (PageReads.dict_page_reads (FileColumnIterator.page_reads it') = 1%nat <->
   FileColumnIterator._dict_decoder it' = true) /\
  (ColumnReader._encoding r <> ColumnReader.DICT_ENCODING ->
   PageReads.dict_page_reads (FileColumnIterator.page_reads it') = 0%nat).
Proof.
  intros Hrun.
  destruct (run_dict r fuel dst ops (FileColumnIterator.new_iterator r) it')
    as (Hr & Hc & He); [done|done|].
  rewrite Hc. destruct (FileColumnIterator._dict_decoder it').
  - split; [lia|]. split; [done|]. intros Hne. by destruct Hne; apply He.
  - split; [lia|]. split; [|done]. split; [lia|done].
Qed.

Lemma dict_page_read_at_most_once_witness :
  (PageReads.dict_page_reads (FileColumnIterator.page_reads Samples.dict_iterator) <= 1)%nat /\
  (PageReads.dict_page_reads (FileColumnIterator.page_reads Samples.dict_iterator) = 1%nat <->
   FileColumnIterator._dict_decoder Samples.dict_iterator = true) /\
  (ColumnReader._encoding Samples.dict_reader <> ColumnReader.DICT_ENCODING ->
   PageReads.dict_page_reads (FileColumnIterator.page_reads Samples.dict_iterator) = 0%nat).
Proof.
  apply (dict_page_read_at_most_once Samples.dict_reader 16 Samples.dict_scan
           Samples.nullable_block Samples.dict_iterator).
  vm_compute. reflexivity.
Defined.

Section ReadsOfPages.
Import Column IteratorState FileColumnIterator PageReads.
Context (r : ColumnReader.t) (idx : OrdinalIndex.t) (pages : list ColumnReader.DataPage).
Hypothesis Hwf : wf_column r idx pages.

Lemma data_page_reads_app l1 l2 :
  data_page_reads (l1 ++ l2) = data_page_reads l1 ++ data_page_reads l2.
Proof. apply omap_app. Qed.

(** A read of a data page is one more data page read. *)
Lemma read_data_page_reads it j it' :
  _read_data_page it j = Ok it' ->
  data_page_reads (page_reads it') = data_page_reads (page_reads it) ++ [j].
Proof.
  unfold _read_data_page, OrdinalIndex.page_index.
  destruct (ColumnReader.read_page _ _) as [dp| |]; [|done|done]. simpl.
  destruct (_ && _ && _).
  - destruct (ColumnReader.dict_page _); [|done|done]. simpl.
    intros Heq. inversion Heq; subst it'. simpl.
    rewrite !data_page_reads_app. simpl. by rewrite app_nil_r.
  - intros Heq. inversion Heq; subst it'. simpl.
    by rewrite data_page_reads_app.
Qed.

(** The page test at the head of the loop of [next_batch] reads the page
    after the loaded one, or no page. *)
Lemma ensure_page_reads it it1 eos p :
  positioned r pages it ->
  _page it = Some p ->
  (if from_option ParsedPage.has_remaining false (_page it)
   then Ok (it, false)
   else _load_next_page it) = Ok (it1, eos) ->
  exists p1,
    _page it1 = Some p1 /\
    (ParsedPage.page_index p <= ParsedPage.page_index p1)%nat /\
    data_page_reads (page_reads it1) =
      data_page_reads (page_reads it) ++
      seq (S (ParsedPage.page_index p))
          (ParsedPage.page_index p1 - ParsedPage.page_index p).
Proof.
  intros Hpos Hp. pose proof Hpos as (Hr & p' & dp & j & Hp' & Hl & Hinv & Hcur & Hj & Hiter).
  rewrite Hp in Hp'. inversion Hp'; subst p'. clear Hp'.
  rewrite Hp. simpl.
  destruct (ParsedPage.has_remaining p).
  { intros Heq. inversion Heq; subst it1 eos. exists p. split; [done|]. split; [done|].
    by rewrite Nat.sub_diag, app_nil_r. }
  unfold _load_next_page. rewrite Hj. simpl.
  rewrite (page_iter_valid_spec r idx pages Hwf _ (OrdinalIndex.next j)) by done.
  simpl. unfold OrdinalIndex.next. case_bool_decide as Hvalid; simpl.
  - destruct Hiter as [->|[Hge _]]; [|lia].
    destruct (lookup_lt_is_Some_2 pages (S (ParsedPage.page_index p)) Hvalid)
      as [dp' Hl'].
    destruct (read_data_page_spec r idx pages Hwf
                (set_page_iter it (S (ParsedPage.page_index p))) _ dp' Hr Hl')
      as (it2 & Hread & Hr2 & Hp2 & Hj2 & Hc2 & _).
    rewrite Hread. simpl. rewrite Hp2. simpl.
    intros Heq. inversion Heq; subst it1 eos. simpl.
    pose proof (seek_pos_fields (ParsedPage.create dp' (S (ParsedPage.page_index p))) 0)
      as (_ & _ & _).
    destruct (wf_column_page r idx pages Hwf _ dp' Hl') as (Hwfp' & _ & _ & _ & Hnum' & _).
    destruct (seek_to_pos_in_page_spec dp' (ParsedPage.create dp' (S (ParsedPage.page_index p)))
                0 Hwfp' Hnum' (page_inv_create r idx pages Hwf _ dp' Hl'))
      as (_ & _ & Hidx' & _); [destruct Hwfp'; lia|].
    eexists. split; [done|]. rewrite Hidx'. simpl. split; [lia|].
    rewrite (read_data_page_reads _ _ _ Hread). simpl.
    replace (S (ParsedPage.page_index p) - ParsedPage.page_index p)%nat with 1%nat by lia.
    done.
  - intros Heq. inversion Heq; subst it1 eos. simpl.
    exists p. split; [done|]. split; [done|].
    by rewrite Nat.sub_diag, app_nil_r.
Qed.

Lemma batch_loop_reads : forall fuel n0 it dst0 hn b p,
  positioned r pages it ->
  _page it = Some p ->
  0 <= n0 < two64 ->
  (Z.to_nat n0 < fuel)%nat ->
  batch_loop fuel it n0 dst0 hn = Some (Ok b) ->
  exists p',
    _page (iter b) = Some p' /\
    (ParsedPage.page_index p <= ParsedPage.page_index p')%nat /\
    data_page_reads (page_reads (iter b)) =
      data_page_reads (page_reads it) ++
      seq (S (ParsedPage.page_index p))
          (ParsedPage.page_index p' - ParsedPage.page_index p).
Proof.
  induction fuel as [|fuel IH]; intros n0 it dst0 hn b p Hpos Hp Hn Hfuel Hloop; [lia|].
  destruct (Z.gtb_spec n0 0) as [Hgt|Hle].
  2:{ rewrite batch_loop_unfold in Hloop.
      destruct (Z.gtb_spec n0 0); [lia|]. inversion Hloop; subst b. simpl.
      exists p. split; [done|]. split; [done|]. by rewrite Nat.sub_diag, app_nil_r. }
  destruct (batch_loop_step r idx pages Hwf fuel it n0 dst0 hn Hpos)
    as [(it1 & Hload & Hstep & _)
       |(it1 & p1 & dp & st' & Hload & Hp1 & Hl & Hinv & Hcur & Hnrows & Hread & Hstep
         & Hpos2 & _ & Hreads2 & Hidx')]; [lia|lia| |].
  - rewrite Hstep in Hloop. inversion Hloop; subst b. simpl.
    by apply (ensure_page_reads it it1 true p).
  - cbv zeta in Hstep. rewrite Hstep in Hloop.
    destruct (ensure_page_reads it it1 false p Hpos Hp Hload) as (p1' & Hp1' & Hle1 & Hreads1).
    rewrite Hp1 in Hp1'. inversion Hp1'; subst p1'. clear Hp1'.
    set (nrows := Z.min n0 (ParsedPage.num_rows p1 - ParsedPage.offset_in_page p1)) in *.
    assert (nrows <= n0) as Hle0 by (subst nrows; lia).
    destruct (IH (n0 - nrows) _ (dst st') (has_null st') b (page st') Hpos2)
      as (p' & Hpb & Hle2 & Hreads); [done|lia|lia|exact Hloop|].
    exists p'. split; [done|]. rewrite Hidx' in *. split; [lia|].
    rewrite Hreads, Hreads2, Hreads1, <- app_assoc. f_equal.
    replace (ParsedPage.page_index p' - ParsedPage.page_index p)%nat
      with ((ParsedPage.page_index p1 - ParsedPage.page_index p) +
            (ParsedPage.page_index p' - ParsedPage.page_index p1))%nat by lia.
    rewrite seq_app. f_equal. f_equal. lia.
Qed.

End ReadsOfPages.

Section FirstPage.
Import Column IteratorState FileColumnIterator PageReads.
Context (r : ColumnReader.t) (idx : OrdinalIndex.t) (pages : list ColumnReader.DataPage).
Hypothesis Hwf : wf_column r idx pages.

(** [seek_to_first] reads the first page and leaves the iterator at its
    first row. *)
Lemma seek_to_first_reads it dp0 :
  _reader it = r -> pages !! 0%nat = Some dp0 ->
  exists it' p,
    seek_to_first it = Ok it' /\ positioned r pages it' /\
    _page it' = Some p /\ ParsedPage.page_index p = 0%nat /\
    ParsedPage.offset_in_page p = 0 /\ _current_ordinal it' = 0 /\
    data_page_reads (page_reads it') = data_page_reads (page_reads it) ++ [0%nat].
Proof.
  intros Hr Hl0.
  pose proof Hwf as (Hload & Hidx & Hdata & Hdict & Hpages & Htotal).
  pose proof (wf_pages_length _ _ _ Hpages) as Hlen.
  pose proof (lookup_lt_Some _ _ _ Hl0) as Hlt.
  unfold seek_to_first, ColumnReader.seek_to_first.
  rewrite Hr, Hload, Hidx. simpl.
  unfold OrdinalIndex.valid, OrdinalIndex.begin, OrdinalIndex.num_pages.
  rewrite bool_decide_eq_true_2 by lia. simpl.
  destruct (read_data_page_spec r idx pages Hwf (set_page_iter it 0%nat) _ dp0 Hr Hl0)
    as (it1 & Hread & Hr1 & Hp1 & Hj1 & Hc1 & _).
  pose proof (read_data_page_reads _ _ _ Hread) as Hreads.
  rewrite Hread. simpl. rewrite Hp1. simpl.
  destruct (wf_column_page r idx pages Hwf _ dp0 Hl0)
    as (Hwfp & Hfirst & Hnn & Hle & Hnum & _).
  pose proof Hwfp as [Hpos _].
  pose proof (page_inv_create r idx pages Hwf _ dp0 Hl0) as Hinv.
  destruct (seek_to_pos_in_page_spec dp0 (ParsedPage.create dp0 0) 0 Hwfp Hnum Hinv)
    as (Hinv' & Hoff' & Hidx' & Hfirst'); [lia|].
  eexists _, _. split; [done|]. split.
  { split; [done|].
    eexists _, dp0, 0%nat. simpl. split; [done|]. rewrite Hidx'. simpl.
    split; [done|]. split; [done|].
    split; [simpl in Hfirst; lia|]. split; [done|]. by left. }
  simpl. split; [done|]. split; [done|]. split; [done|]. split; [done|].
  exact Hreads.
Qed.

(** An iterator with no row to come is in the last page. *)
Lemma rest_rows_nil_last it p :
  positioned r pages it -> _page it = Some p -> rest_rows pages it = [] ->
  S (ParsedPage.page_index p) = length pages.
Proof.
  intros (Hr & p' & dp & j & Hp' & Hl & _) Hp Hrest.
  rewrite Hp in Hp'. inversion Hp'; subst p'. clear Hp'.
  unfold rest_rows in Hrest. rewrite Hp, Hl in Hrest.
  apply app_eq_nil in Hrest as [_ Hafter].
  pose proof (lookup_lt_Some _ _ _ Hl) as Hlt.
  destruct (decide (S (ParsedPage.page_index p) = length pages)) as [|Hne]; [done|].
  destruct (lookup_lt_is_Some_2 pages (S (ParsedPage.page_index p))) as [dp' Hl']; [lia|].
  rewrite (drop_S _ _ _ Hl') in Hafter. unfold all_rows in Hafter. simpl in Hafter.
  apply app_eq_nil in Hafter as [Hrows _].
  destruct (wf_column_page r idx pages Hwf _ dp' Hl') as (Hwfp & _).
  pose proof (length_page_rows dp' Hwfp) as Hlp. destruct Hwfp as [Hpos _].
  rewrite Hrows in Hlp. simpl in Hlp. lia.
Qed.

End FirstPage.

(** X17: [next_batch] reads the data pages that follow the loaded one up
    to the page it ends on, each once and in order; it reads no page before
    the loaded one and does not read the loaded one again. *)
Theorem next_batch_reads_following_pages (r : ColumnReader.t) (idx : OrdinalIndex.t)
    (pages : list ColumnReader.DataPage) (it : FileColumnIterator.t)
    (n0 : Z) (fuel : nat) (dst : ColumnBlockView) :
  Column.wf_column r idx pages ->
  IteratorState.positioned r pages it ->
  0 <= n0 < two64 ->
  (Z.to_nat n0 < fuel)%nat ->
  exists b p p',
    FileColumnIterator.next_batch fuel it n0 dst = Some (Ok b) /\
    FileColumnIterator._page it = Some p /\
    FileColumnIterator._page (FileColumnIterator.iter b) = Some p' /\
    (ParsedPage.page_index p <= ParsedPage.page_index p' < length pages)%nat /\
    PageReads.data_page_reads
      (FileColumnIterator.page_reads (FileColumnIterator.iter b)) =
      PageReads.data_page_reads (FileColumnIterator.page_reads it) ++
      seq (S (ParsedPage.page_index p))
          (ParsedPage.page_index p' - ParsedPage.page_index p).
Proof.
  intros Hwf Hpos Hn Hfuel.
  destruct (batch_loop_spec r idx pages Hwf fuel n0 it dst false Hpos Hn Hfuel)
    as (b & cs & Hloop & Hposb & _).
  pose proof Hpos as (_ & p & _ & _ & Hp & _).
  destruct (batch_loop_reads r idx pages Hwf fuel n0 it dst false b p Hpos Hp Hn Hfuel Hloop)
    as (p' & Hp' & Hle & Hreads).
  unfold FileColumnIterator.next_batch. rewrite Hloop.
  eexists _, p, p'. split; [done|]. simpl. split; [done|]. split; [done|].
  split; [|done]. split; [done|].
  destruct Hposb as (_ & p'' & dp & _ & Hp'' & Hl & _).
  rewrite Hp' in Hp''. inversion Hp''; subst p''. by eapply lookup_lt_Some.
Qed.

(** X18: [seek_to_first] on a new iterator followed by a [next_batch] of
    at least as many rows as the column has returns all the rows of the
    column, in order, and has read every data page once, in order. *)
Theorem full_scan_reads_each_page_once (r : ColumnReader.t) (idx : OrdinalIndex.t)
    (pages : list ColumnReader.DataPage) (n0 : Z) (fuel : nat) (dst : ColumnBlockView) :
  Column.wf_column r idx pages ->
  pages <> [] ->
  Column.total_rows pages <= n0 < two64 ->
  (Z.to_nat n0 < fuel)%nat ->
  exists it0 b cs,
    FileColumnIterator.seek_to_first (FileColumnIterator.new_iterator r) = Ok it0 /\
    FileColumnIterator.next_batch fuel it0 n0 dst = Some (Ok b) /\
    FileColumnIterator.n b = Column.total_rows pages /\
    FileColumnIterator.block b = block_write dst cs /\
    map cell_value cs = Column.all_rows pages /\
    PageReads.data_page_reads
      (FileColumnIterator.page_reads (FileColumnIterator.iter b)) =
      seq 0 (length pages).
Proof.
  intros Hwf Hne Hn Hfuel.
  destruct pages as [|dp0 rest] eqn:Hpages; [done|]. rewrite <- Hpages in *.
  assert (pages !! 0%nat = Some dp0) as Hl0 by (by rewrite Hpages).
  destruct (seek_to_first_reads r idx pages Hwf (FileColumnIterator.new_iterator r) dp0
              eq_refl Hl0)
    as (it0 & p & Hseek & Hpos & Hp & Hidx0 & Hoff & Hcur & Hreads0).
  pose proof (total_rows_nonneg pages 0 idx ltac:(by destruct Hwf as (_&_&_&_&?&_))) as Hnn.
  destruct (batch_loop_spec r idx pages Hwf fuel n0 it0 dst false Hpos ltac:(lia) Hfuel)
    as (b & cs & Hloop & Hposb & Hblock & Hcs & Hnb & Hrest).
  destruct (batch_loop_reads r idx pages Hwf fuel n0 it0 dst false b p Hpos Hp
              ltac:(lia) Hfuel Hloop) as (p' & Hp' & Hle & Hreads).
  pose proof (positioned_rest_rows r idx pages Hwf it0 Hpos) as Hrest0.
  unfold IteratorState.position in Hrest0. rewrite Hp, Hoff in Hrest0.
  assert (ParsedPage.first_ordinal p = 0) as Hfirst.
  { destruct Hpos as (_ & p0 & dp & j & Hp0 & _ & _ & Hc & _).
    rewrite Hp in Hp0. inversion Hp0; subst p0. lia. }
  rewrite Hfirst in Hrest0. simpl in Hrest0. rewrite drop_0 in Hrest0.
  pose proof (length_all_rows r idx pages Hwf) as Hlen.
  assert (IteratorState.rest_rows pages (FileColumnIterator.iter b) = []) as Hend.
  { rewrite Hrest, Hrest0. apply drop_ge. lia. }
  pose proof (rest_rows_nil_last r idx pages Hwf _ p' Hposb Hp' Hend) as Hlast.
  rewrite Hrest0, take_ge in Hcs by lia.
  assert (Z.of_nat (length cs) = Column.total_rows pages) as Hlcs.
  { by rewrite <- (length_map cell_value), Hcs. }
  eexists it0, _, cs. split; [done|].
  unfold FileColumnIterator.next_batch. rewrite Hloop.
  split; [done|]. simpl.
  split; [rewrite Hnb, u64_sub_small by lia; lia|].
  split; [done|]. split; [done|].
  rewrite Hreads, Hreads0, Hidx0. simpl.
  replace (ParsedPage.page_index p' - 0)%nat with (length pages - 1)%nat by lia.
  rewrite <- Hlast. simpl. by rewrite Nat.sub_0_r.
Qed.

(** X19: [seek_to_first] fails with [NotFound] on a column without pages;
    otherwise it reads page 0, leaves the iterator at ordinal 0 at the start
    of that page, whatever the iterator's state was, and the next batch reads
    the first rows of the column. *)
Theorem seek_to_first_then_read (r : ColumnReader.t) (idx : OrdinalIndex.t)
    (pages : list ColumnReader.DataPage) (it : FileColumnIterator.t)
    (m : Z) (fuel : nat) (dst : ColumnBlockView) :
  Column.wf_column r idx pages ->
  FileColumnIterator._reader it = r ->
  0 <= m < two64 ->
  (Z.to_nat m < fuel)%nat ->
  (pages = [] -> FileColumnIterator.seek_to_first it = Error NotFound) /\
  (pages <> [] ->
   exists it' p b cs,
     FileColumnIterator.seek_to_first it = Ok it' /\
     FileColumnIterator._page it' = Some p /\
     ParsedPage.page_index p = 0%nat /\
     ParsedPage.offset_in_page p = 0 /\
     FileColumnIterator._current_ordinal it' = 0 /\
     PageReads.data_page_reads (FileColumnIterator.page_reads it') =
       PageReads.data_page_reads (FileColumnIterator.page_reads it) ++ [0%nat] /\
     FileColumnIterator.next_batch fuel it' m dst = Some (Ok b) /\
     FileColumnIterator.block b = block_write dst cs /\
     FileColumnIterator.n b = Z.of_nat (length cs) /\
     map cell_value cs = take (Z.to_nat m) (Column.all_rows pages)).
Proof.
  intros Hwf Hr Hm Hfuel. split.
  - intros ->. destruct Hwf as (Hload & Hidx & _ & _ & Hpages & _).
    destruct idx; [|done].
    unfold FileColumnIterator.seek_to_first, ColumnReader.seek_to_first.
    by rewrite Hr, Hload, Hidx.
  - intros Hne. destruct pages as [|dp0 rest] eqn:Hpages; [done|]. rewrite <- Hpages in *.
    assert (pages !! 0%nat = Some dp0) as Hl0 by (by rewrite Hpages).
    destruct (seek_to_first_reads r idx pages Hwf it dp0 Hr Hl0)
      as (it' & p & Hseek & Hpos & Hp & Hidx0 & Hoff & Hcur & Hreads0).
    destruct (next_batch_spec r idx pages Hwf fuel m it' dst Hpos Hm Hfuel)
      as (b & cs & Hnext & _ & Hblock & Hcs & Hn & _).
    exists it', p, b, cs. repeat (split; [done|]).
    rewrite Hcs, (positioned_rest_rows r idx pages Hwf it' Hpos).
    destruct (positioned_position r idx pages Hwf it' Hpos) as (Hc & _).
    by rewrite <- Hc, Hcur.
Qed.

Lemma next_batch_reads_following_pages_witness :
  exists b p p',
    FileColumnIterator.next_batch 8 Samples.iterator_at_first 6 Samples.nullable_block
      = Some (Ok b) /\
    FileColumnIterator._page Samples.iterator_at_first = Some p /\
    FileColumnIterator._page (FileColumnIterator.iter b) = Some p' /\
    (ParsedPage.page_index p <= ParsedPage.page_index p' < length Samples.scan_pages)%nat /\
    PageReads.data_page_reads
      (FileColumnIterator.page_reads (FileColumnIterator.iter b)) =
      PageReads.data_page_reads (FileColumnIterator.page_reads Samples.iterator_at_first) ++
      seq (S (ParsedPage.page_index p))
          (ParsedPage.page_index p' - ParsedPage.page_index p).
Proof.
  apply (next_batch_reads_following_pages Samples.scan_reader Samples.scan_index
           Samples.scan_pages Samples.iterator_at_first 6 8 Samples.nullable_block
           scan_column_wf iterator_at_first_positioned).
  - unfold two64. lia.
  - simpl. lia.
Defined.

Lemma full_scan_reads_each_page_once_witness :
  exists it0 b cs,
    FileColumnIterator.seek_to_first
      (FileColumnIterator.new_iterator Samples.scan_reader) = Ok it0 /\
    FileColumnIterator.next_batch 32 it0 20 Samples.nullable_block = Some (Ok b) /\
    FileColumnIterator.n b = Column.total_rows Samples.scan_pages /\
    FileColumnIterator.block b = block_write Samples.nullable_block cs /\
    map cell_value cs = Column.all_rows Samples.scan_pages /\
    PageReads.data_page_reads
      (FileColumnIterator.page_reads (FileColumnIterator.iter b)) =
      seq 0 (length Samples.scan_pages).
Proof.
  apply (full_scan_reads_each_page_once Samples.scan_reader Samples.scan_index
           Samples.scan_pages 20 32 Samples.nullable_block scan_column_wf).
  - intros Heq. discriminate Heq.
  - unfold two64. simpl. lia.
  - simpl. lia.
Defined.

Lemma seek_to_first_then_read_witness :
  exists it' b cs,
    FileColumnIterator.seek_to_first
      (FileColumnIterator.new_iterator Samples.scan_reader) = Ok it' /\
    FileColumnIterator.next_batch 8 it' 5 Samples.nullable_block = Some (Ok b) /\
    FileColumnIterator.block b = block_write Samples.nullable_block cs /\
    map cell_value cs = take (Z.to_nat 5) (Column.all_rows Samples.scan_pages).
Proof.
  destruct (seek_to_first_then_read Samples.scan_reader Samples.scan_index
              Samples.scan_pages (FileColumnIterator.new_iterator Samples.scan_reader)
              5 8 Samples.nullable_block scan_column_wf eq_refl) as [_ Hread].
  { unfold two64. lia. }
  { simpl. lia. }
  destruct Hread as (it' & p & b & cs & Hseek & _ & _ & _ & _ & _ & Hnext & Hblock & _ & Hcs).
  { intros Heq. discriminate Heq. }
  exists it', b, cs. split; [exact Hseek|]. split; [exact Hnext|].
  split; [exact Hblock|exact Hcs].
Defined.

(** ** Batches into a vectorized column *)

Section Vectorized.
Import VectorizedBatch.
Context {C : Type} `{MutableColumn C}.

Lemma insert_rows_app rows1 rows2 (col : C) :
  insert_rows (rows1 ++ rows2) col = insert_rows rows2 (insert_rows rows1 col).
Proof. unfold insert_rows. by rewrite foldl_app. Qed.

Lemma insert_values_rows vals (col : C) :
  insert_values vals col = insert_rows (map Some vals) col.
Proof.
  unfold insert_values, insert_rows. revert col.
  induction vals as [|v vals IH]; intros col; simpl; [done|]. by rewrite IH.
Qed.

Lemma insert_nulls_rows run (col : C) :
  insert_nulls run col = insert_rows (replicate (Z.to_nat run) None) col.
Proof.
  unfold insert_nulls, insert_rows. generalize (Z.to_nat run). intros k. revert col.
  induction k as [|k IH]; intros col; [done|].
  rewrite Nat.iter_succ_r. simpl. by rewrite IH.
Qed.

Lemma column_rows_nulls k (vals : list Value) :
  flat_map column_rows
    (map (fun j => {| null_bit := Some true; data := vals !! j |}) (seq 0 k)) =
  replicate k None.
Proof.
  generalize 0%nat. induction k as [|k IH]; intros s; simpl; [done|].
  by rewrite IH.
Qed.

Lemma column_rows_values bit (vals : list Value) : forall k,
  bit <> Some true -> (length vals <= k)%nat ->
  flat_map column_rows
    (map (fun j => {| null_bit := bit; data := vals !! j |}) (seq 0 k)) =
  map Some vals.
Proof.
  induction vals as [|v vals IH]; intros k Hbit Hlen.
  - generalize 0%nat. induction k as [|k IHk]; intros s; simpl; [done|].
    unfold column_rows at 1. simpl. rewrite bool_decide_eq_false_2 by done.
    simpl. apply IHk. simpl. lia.
  - destruct k as [|k]; [simpl in Hlen; lia|].
    change (seq 0 (S k)) with (0%nat :: seq 1 k).
    rewrite <- fmap_S_seq. simpl.
    unfold column_rows at 1. simpl. rewrite bool_decide_eq_false_2 by done.
    simpl. f_equal. rewrite <- list_fmap_compose.
    rewrite <- (IH k Hbit ltac:(simpl in Hlen; lia)). done.
Qed.

Lemma column_rows_run_cells (b : bool) run (vals : list Value) :
  (if b then True else (length vals <= Z.to_nat run)%nat) ->
  flat_map column_rows (run_cells (Some b) run vals) =
  if b then replicate (Z.to_nat run) None else map Some vals.
Proof.
  intros Hlen. unfold run_cells. destruct b.
  - apply column_rows_nulls.
  - by apply column_rows_values.
Qed.

(** The loop over the runs writes in a column what it writes in a block. *)
Lemma read_runs_sim : forall fuel nrows p cur hn (blk : ColumnBlockView) (col : C),
  match FileColumnIterator.read_runs fuel nrows
          {| FileColumnIterator.page := p; FileColumnIterator.dst := blk;
             FileColumnIterator.current_ordinal := cur;
             FileColumnIterator.has_null := hn |},
        read_runs fuel nrows
          {| page := p; dst := col; current_ordinal := cur; has_null := hn |} with
  | Some st, Some vst =>
      page vst = FileColumnIterator.page st /\
      current_ordinal vst = FileColumnIterator.current_ordinal st /\
      has_null vst = FileColumnIterator.has_null st /\
      exists cs,
        FileColumnIterator.dst st = block_write blk cs /\
        dst vst = insert_rows (flat_map column_rows cs) col
  | None, None => True
  | _, _ => False
  end.
Proof.
  induction fuel as [|fuel IH]; intros nrows p cur hn blk col; simpl.
  - destruct (nrows >? 0); [done|]. simpl. repeat (split; [done|]).
    exists []. by rewrite block_write_nil.
  - destruct (nrows >? 0).
    2:{ simpl. repeat (split; [done|]). exists []. by rewrite block_write_nil. }
    destruct (RleDecoder.GetNextRun (ParsedPage.null_decoder p) nrows)
      as [[this_run is_null] null_decoder].
    destruct is_null; simpl.
    + match goal with
      | |- context [FileColumnIterator.read_runs fuel ?n
                      {| FileColumnIterator.page := ?p';
                         FileColumnIterator.dst := ?blk';
                         FileColumnIterator.current_ordinal := ?cur';
                         FileColumnIterator.has_null := ?hn' |}] =>
          specialize (IH n p' cur' hn' blk' (insert_nulls this_run col))
      end.
      destruct (FileColumnIterator.read_runs _ _ _) as [st|],
               (read_runs _ _ _) as [vst|]; try done.
      destruct IH as (Hp & Hc & Hh & cs & Hblk & Hcol).
      repeat (split; [done|]).
      exists (run_cells (Some true) this_run [] ++ cs).
      split; [by rewrite Hblk, block_write_app|].
      rewrite flat_map_app, insert_rows_app, Hcol, insert_nulls_rows.
      by rewrite (column_rows_run_cells true).
    + unfold PageDecoder.next_batch. simpl.
      set (vals := take (Z.to_nat this_run)
                     (drop (PageDecoder.cur (ParsedPage.data_decoder p))
                        (PageDecoder.values (ParsedPage.data_decoder p)))).
      match goal with
      | |- context [FileColumnIterator.read_runs fuel ?n
                      {| FileColumnIterator.page := ?p';
                         FileColumnIterator.dst := ?blk';
                         FileColumnIterator.current_ordinal := ?cur';
                         FileColumnIterator.has_null := ?hn' |}] =>
          specialize (IH n p' cur' hn' blk' (insert_values vals col))
      end.
      destruct (FileColumnIterator.read_runs _ _ _) as [st|],
               (read_runs _ _ _) as [vst|]; try done.
      destruct IH as (Hp & Hc & Hh & cs & Hblk & Hcol).
      repeat (split; [done|]).
      exists (run_cells (Some false) this_run vals ++ cs).
      split; [by rewrite Hblk, block_write_app|].
      rewrite flat_map_app, insert_rows_app, Hcol, insert_values_rows.
      rewrite (column_rows_run_cells false); [done|].
      subst vals. rewrite length_take. lia.
Qed.

Lemma read_plain_sim nrows p cur hn (blk : ColumnBlockView) (col : C) :
  let st := FileColumnIterator.read_plain nrows
              {| FileColumnIterator.page := p; FileColumnIterator.dst := blk;
                 FileColumnIterator.current_ordinal := cur;
                 FileColumnIterator.has_null := hn |} in
  let vst := read_plain nrows
               {| page := p; dst := col; current_ordinal := cur; has_null := hn |} in
  page vst = FileColumnIterator.page st /\
  current_ordinal vst = FileColumnIterator.current_ordinal st /\
  has_null vst = FileColumnIterator.has_null st /\
  exists cs,
    FileColumnIterator.dst st = block_write blk cs /\
    dst vst = insert_rows (flat_map column_rows cs) col.
Proof.
  unfold FileColumnIterator.read_plain, read_plain, PageDecoder.next_batch. simpl.
  repeat (split; [done|]). eexists. split; [done|].
  rewrite insert_values_rows. unfold run_cells.
  rewrite column_rows_values; [done|by destruct (is_nullable blk)|lia].
Qed.

Lemma vec_batch_loop_unfold fuel it remaining (col : C) hn :
  batch_loop fuel it remaining col hn =
  if remaining >? 0 then
    match fuel with
    | O => None
    | S fuel' =>
        let loaded :=
          if from_option ParsedPage.has_remaining false (FileColumnIterator._page it)
          then Ok (it, false)
          else FileColumnIterator._load_next_page it in
        match loaded with
        | Error c => Some (Error c)
        | Fault f => Some (Fault f)
        | Ok (it1, true) =>
            Some (Ok {| iter := it1; n := remaining; column := col;
                        batch_has_null := hn |})
        | Ok (it1, false) =>
            match FileColumnIterator._page it1 with
            | None => Some (Fault NullDereference)
            | Some page =>
                let nrows_in_page := Z.min remaining (ParsedPage.remaining page) in
                let st := {| page := page; dst := col;
                             current_ordinal := FileColumnIterator._current_ordinal it1;
                             has_null := hn |} in
                match (if ParsedPage.has_null page
                       then read_runs fuel nrows_in_page st
                       else Some (read_plain nrows_in_page st)) with
                | None => None
                | Some st' =>
                    batch_loop fuel'
                      (FileColumnIterator.set_current_ordinal
                         (FileColumnIterator.set_page it1 (VectorizedBatch.page st'))
                         (current_ordinal st'))
                      (u64_sub remaining nrows_in_page)
                      (VectorizedBatch.dst st') (VectorizedBatch.has_null st')
                end
            end
        end
    end
  else Some (Ok {| iter := it; n := remaining; column := col;
                   batch_has_null := hn |}).
Proof. by destruct fuel. Qed.

(** The loop of the vectorized [next_batch] leaves the iterator the loop on
    a block leaves, and inserts in the column the rows written in the
    block. *)
Lemma batch_loop_sim : forall fuel it n0 (blk : ColumnBlockView) (col : C) hn,
  match FileColumnIterator.batch_loop fuel it n0 blk hn,
        batch_loop fuel it n0 col hn with
  | Some (Ok b), Some (Ok v) =>
      iter v = FileColumnIterator.iter b /\
      n v = FileColumnIterator.n b /\
      batch_has_null v = FileColumnIterator.batch_has_null b /\
      exists cs,
        FileColumnIterator.block b = block_write blk cs /\
        column v = insert_rows (flat_map column_rows cs) col
  | Some (Error c), Some (Error c') => c = c'
  | Some (Fault f), Some (Fault f') => f = f'
  | None, None => True
  | _, _ => False
  end.
Proof.
  induction fuel as [|fuel IH]; intros it n0 blk col hn;
    rewrite batch_loop_unfold, vec_batch_loop_unfold; cbv zeta.
  - destruct (n0 >? 0); [done|]. repeat (split; [done|]).
    exists []. by rewrite block_write_nil.
  - destruct (n0 >? 0).
    2:{ repeat (split; [done|]). exists []. by rewrite block_write_nil. }
    destruct (if from_option ParsedPage.has_remaining false (FileColumnIterator._page it)
              then Ok (it, false) else FileColumnIterator._load_next_page it)
      as [[it1 eos]| |]; [|done|done].
    destruct eos.
    { repeat (split; [done|]). exists []. by rewrite block_write_nil. }
    destruct (FileColumnIterator._page it1) as [p|]; [|done].
    set (nrows := Z.min n0 (ParsedPage.remaining p)).
    assert (match (if ParsedPage.has_null p
                   then FileColumnIterator.read_runs (S fuel) nrows
                          {| FileColumnIterator.page := p;
                             FileColumnIterator.dst := blk;
                             FileColumnIterator.current_ordinal :=
                               FileColumnIterator._current_ordinal it1;
                             FileColumnIterator.has_null := hn |}
                   else Some (FileColumnIterator.read_plain nrows
                          {| FileColumnIterator.page := p;
                             FileColumnIterator.dst := blk;
                             FileColumnIterator.current_ordinal :=
                               FileColumnIterator._current_ordinal it1;
                             FileColumnIterator.has_null := hn |})),
                  (if ParsedPage.has_null p
                   then read_runs (S fuel) nrows
                          {| page := p; dst := col;
                             current_ordinal := FileColumnIterator._current_ordinal it1;
                             has_null := hn |}
                   else Some (read_plain nrows
                          {| page := p; dst := col;
                             current_ordinal := FileColumnIterator._current_ordinal it1;
                             has_null := hn |})) with
            | Some st, Some vst =>
                page vst = FileColumnIterator.page st /\
                current_ordinal vst = FileColumnIterator.current_ordinal st /\
                has_null vst = FileColumnIterator.has_null st /\
                exists cs,
                  FileColumnIterator.dst st = block_write blk cs /\
                  dst vst = insert_rows (flat_map column_rows cs) col
            | None, None => True
            | _, _ => False
            end) as Hpage.
    { destruct (ParsedPage.has_null p).
      - apply read_runs_sim.
      - apply read_plain_sim. }
    destruct (if ParsedPage.has_null p then FileColumnIterator.read_runs _ _ _ else _)
      as [st|],
      (if ParsedPage.has_null p then read_runs _ _ _ else _) as [vst|]; try done.
    destruct Hpage as (Hp & Hc & Hh & cs1 & Hblk1 & Hcol1).
    rewrite Hp, Hc, Hh.
    specialize (IH (FileColumnIterator.set_current_ordinal
                      (FileColumnIterator.set_page it1 (FileColumnIterator.page st))
                      (FileColumnIterator.current_ordinal st))
                   (u64_sub n0 nrows) (FileColumnIterator.dst st) (dst vst)
                   (FileColumnIterator.has_null st)).
    destruct (FileColumnIterator.batch_loop _ _ _ _ _) as [[b| |]|],
             (batch_loop _ _ _ _ _) as [[v| |]|]; try done.
    destruct IH as (Hi & Hn & Hhn & cs2 & Hblk2 & Hcol2).
    repeat (split; [done|]). exists (cs1 ++ cs2).
    split; [by rewrite Hblk2, Hblk1, block_write_app|].
    by rewrite flat_map_app, insert_rows_app, Hcol2, Hcol1.
Qed.

End Vectorized.

Lemma column_rows_written (cs : list Cell) :
  Forall (fun c => null_bit c = Some true \/ is_Some (data c)) cs ->
  flat_map VectorizedBatch.column_rows cs = map cell_value cs.
Proof.
  induction cs as [|c cs IH]; intros Hall; [done|].
  apply Forall_cons in Hall as [Hc Hall]. simpl. rewrite IH by done.
  f_equal. unfold VectorizedBatch.column_rows, cell_value.
  case_bool_decide as Hnull; [done|].
  destruct Hc as [?|[v Hv]]; [done|]. by rewrite Hv.
Qed.

(** X20: the vectorized [next_batch] inserts in the column the rows the
    block [next_batch] writes from the same iterator: the same number of
    rows, the same [has_null], the same page, ordinal and page reads
    afterwards.  Its [bytes_read] grows by the growth of the column's
    [byte_size] and the size of the bitmap. *)
Theorem vectorized_next_batch_agrees {C : Type} `{VectorizedBatch.MutableColumn C}
    (r : ColumnReader.t) (idx : OrdinalIndex.t) (pages : list ColumnReader.DataPage)
    (it : FileColumnIterator.t) (n0 : Z) (fuel : nat) (blk : ColumnBlockView)
    (col : C) :
  Column.wf_column r idx pages ->
  IteratorState.positioned r pages it ->
  0 <= n0 < two64 ->
  (Z.to_nat n0 < fuel)%nat ->
  exists b v,
    FileColumnIterator.next_batch fuel it n0 blk = Some (Ok b) /\
    VectorizedBatch.next_batch fuel it n0 col = Some (Ok v) /\
    VectorizedBatch.n v = FileColumnIterator.n b /\
    VectorizedBatch.batch_has_null v = FileColumnIterator.batch_has_null b /\
    VectorizedBatch.column v =
      VectorizedBatch.insert_rows
        (take (Z.to_nat n0) (IteratorState.rest_rows pages it)) col /\
    FileColumnIterator._page (VectorizedBatch.iter v) =
      FileColumnIterator._page (FileColumnIterator.iter b) /\
    FileColumnIterator._page_iter (VectorizedBatch.iter v) =
      FileColumnIterator._page_iter (FileColumnIterator.iter b) /\
    FileColumnIterator._current_ordinal (VectorizedBatch.iter v) =
      FileColumnIterator._current_ordinal (FileColumnIterator.iter b) /\
    FileColumnIterator.page_reads (VectorizedBatch.iter v) =
      FileColumnIterator.page_reads (FileColumnIterator.iter b) /\
    FileColumnIterator.bytes_read (VectorizedBatch.iter v) =
      FileColumnIterator.bytes_read it +
      (u64_sub (VectorizedBatch.byte_size (VectorizedBatch.column v))
               (VectorizedBatch.byte_size col) +
       BitmapSize (VectorizedBatch.n v)).
Proof.
  intros Hwf Hpos Hn Hfuel.
  destruct (batch_loop_spec r idx pages Hwf fuel n0 it blk false Hpos Hn Hfuel)
    as (b & cs & Hloop & _ & Hblock & Hcs & _).
  destruct (batch_loop_has_null r idx pages Hwf fuel n0 it blk false b Hpos Hn Hfuel Hloop)
    as (cs' & Hblock' & _ & Hall).
  assert (cs' = cs) as ->.
  { rewrite Hblock in Hblock'. unfold block_write in Hblock'.
    inversion Hblock' as [Happ]. by apply app_inv_head in Happ. }
  pose proof (batch_loop_bytes_read _ _ _ _ _ _ Hloop) as Hbytes.
  pose proof (batch_loop_sim fuel it n0 blk col false) as Hsim.
  rewrite Hloop in Hsim.
  destruct (VectorizedBatch.batch_loop fuel it n0 col false) as [[v| |]|] eqn:Hvloop;
    try done.
  destruct Hsim as (Hiter & Hnv & Hhn & cs'' & Hblock'' & Hcol).
  assert (cs'' = cs) as ->.
  { rewrite Hblock in Hblock''. unfold block_write in Hblock''.
    inversion Hblock'' as [Happ]. by apply app_inv_head in Happ. }
  rewrite (column_rows_written cs Hall), Hcs in Hcol.
  unfold FileColumnIterator.next_batch, VectorizedBatch.next_batch.
  rewrite Hloop, Hvloop. eexists _, _. split; [done|]. split; [done|]. simpl.
  rewrite Hiter, Hnv, Hbytes. by repeat (split; [done|]).
Qed.

Lemma vectorized_next_batch_agrees_witness :
  exists b v,
    FileColumnIterator.next_batch 8 Samples.iterator_at_first 6 Samples.nullable_block
      = Some (Ok b) /\
    VectorizedBatch.next_batch 8 Samples.iterator_at_first 6 ([] : Samples.RowColumn)
      = Some (Ok v) /\
    VectorizedBatch.n v = FileColumnIterator.n b /\
    VectorizedBatch.batch_has_null v = FileColumnIterator.batch_has_null b /\
    VectorizedBatch.column v =
      VectorizedBatch.insert_rows
        (take (Z.to_nat 6)
           (IteratorState.rest_rows Samples.scan_pages Samples.iterator_at_first))
        ([] : Samples.RowColumn).
Proof.
  destruct (vectorized_next_batch_agrees Samples.scan_reader Samples.scan_index
              Samples.scan_pages Samples.iterator_at_first 6 8 Samples.nullable_block
              ([] : Samples.RowColumn) scan_column_wf iterator_at_first_positioned)
    as (b & v & Hb & Hv & Hn & Hhn & Hcol & _).
  { unfold two64. lia. }
  { simpl. lia. }
  exists b, v. split; [exact Hb|]. split; [exact Hv|]. split; [exact Hn|].
  split; [exact Hhn|exact Hcol].
Defined.

(** ** Offsets of an array batch *)

Section Offsets.
Import ArrayFileColumnIterator ArrayOffsets.





End Offsets.

Section ArrayBatches.
Import ArrayFileColumnIterator ArrayOffsets.
Context {L I N : Type} `{ColumnIterator L} `{ColumnIterator I} `{ColumnIterator N}.



End ArrayBatches.

Section ArrayTheorem.
Import ArrayFileColumnIterator ArrayOffsets.
Context {L I N : Type} `{ColumnIterator L} `{ColumnIterator I} `{ColumnIterator N}.


End ArrayTheorem.


(** ** Default values *)

Section DefaultValues.
Import DefaultValueColumnIterator.

Lemma length_zero_padding k : String.length (zero_padding k) = k.
Proof. induction k as [|k IH]; simpl; [done|]. by rewrite IH. Qed.

Lemma get_zero_padding k i :
  (i < k)%nat -> String.get i (zero_padding k) = Some Ascii.zero.
Proof.
  revert i. induction k as [|k IH]; intros i Hi; [lia|].
  destruct i as [|i]; simpl; [done|]. apply IH. lia.
Qed.

Lemma length_string_app s1 s2 :
  String.length (s1 +:+ s2) = (String.length s1 + String.length s2)%nat.
Proof.
  induction s1 as [|a s1 IH]; [done|].
  change (String a s1 +:+ s2) with (String a (s1 +:+ s2)). simpl. by rewrite IH.
Qed.

Lemma prefix_string_app s1 s2 : String.prefix s1 (s1 +:+ s2) = true.
Proof.
  induction s1 as [|a s1 IH]; [by destruct s2|].
  change (String a s1 +:+ s2) with (String a (s1 +:+ s2)). simpl.
  by destruct (Ascii.ascii_dec a a).
Qed.

Lemma to_int32_small z : - two31 <= z < two31 -> to_int32 z = z.
Proof.
  intros Hz. unfold to_int32. rewrite Z.mod_small; unfold two31 in *; lia.
Qed.

Lemma substring_all s : String.substring 0 (String.length s) s = s.
Proof. induction s as [|a s IH]; simpl; [done|]. by rewrite IH. Qed.

End DefaultValues.

(** X22: after [DefaultValueColumnIterator::init] every [next_batch] of
    fewer than 2^31 rows (the loop counts them with an [int]) fills the
    block with [n] copies of one value, null exactly when the column has no
    default value or its default is the string NULL, and returns [has_null]
    accordingly; the null bits are written only in a nullable block.  For a
    [VARCHAR], [HLL], [OBJECT] or [STRING] column with a default shorter
    than 2^31 bytes that is not NULL, the value is the default. *)
Theorem default_value_batches (debug_build has_default_value : bool)
    (default_value : string) (is_nullable_column : bool)
    (type_info : DefaultValueColumnIterator.TypeInfo) (schema_length : Z)
    (it' : DefaultValueColumnIterator.t) :
  DefaultValueColumnIterator.init debug_build
    (DefaultValueColumnIterator.create has_default_value default_value
       is_nullable_column type_info schema_length) = Ok it' ->
  exists v : option Value,
    (v = None <-> has_default_value = false \/ default_value = "NULL"%string) /\
    (v = None <-> DefaultValueColumnIterator._is_default_value_null it' = true) /\
    (has_default_value = true -> default_value <> "NULL"%string ->
     DefaultValueColumnIterator.type type_info ∈
       [OLAP_FIELD_TYPE_VARCHAR; OLAP_FIELD_TYPE_HLL; OLAP_FIELD_TYPE_OBJECT;
        OLAP_FIELD_TYPE_STRING] ->
     Z.of_nat (String.length default_value) < two31 ->
     v = Some (SliceValue default_value)) /\
    forall n dst, 0 <= n < two31 ->
      exists cs,
        DefaultValueColumnIterator.next_batch it' n dst =
          (block_write dst cs, DefaultValueColumnIterator._is_default_value_null it') /\
        map cell_value cs = replicate (Z.to_nat n) v /\
        Forall (fun c => null_bit c =
                  if is_nullable dst
                  then Some (DefaultValueColumnIterator._is_default_value_null it')
                  else None) cs.
Proof.
  intros Hinit.
  set (strings := [OLAP_FIELD_TYPE_VARCHAR; OLAP_FIELD_TYPE_HLL; OLAP_FIELD_TYPE_OBJECT;
                   OLAP_FIELD_TYPE_STRING]).
  assert (exists v : option Value,
            (v = None <-> has_default_value = false \/ default_value = "NULL"%string) /\
            (v = None <-> DefaultValueColumnIterator._is_default_value_null it' = true) /\
            (has_default_value = true -> default_value <> "NULL"%string ->
             DefaultValueColumnIterator.type type_info ∈ strings ->
             Z.of_nat (String.length default_value) < two31 ->
             v = Some (SliceValue default_value)) /\
            DefaultValueColumnIterator._mem_value it' = v)
    as (v & Hv1 & Hv2 & Hv3 & Hmem).
  { unfold DefaultValueColumnIterator.init, DefaultValueColumnIterator.create in Hinit.
    simpl in Hinit. destruct has_default_value.
    - destruct (String.eqb_spec default_value "NULL") as [->|Hne].
      + destruct (debug_build && negb is_nullable_column); [done|].
        inversion Hinit; subst it'. exists None. simpl. split; [by split; [right|]|].
        split; [done|]. split; [|done]. by intros _ Hne.
      + assert (forall val it0,
                  Ok (DefaultValueColumnIterator.set_mem_value it0 val) = Ok it' ->
                  DefaultValueColumnIterator._is_default_value_null it0 = false ->
                  (DefaultValueColumnIterator.type type_info ∈ strings ->
                   Z.of_nat (String.length default_value) < two31 ->
                   val = SliceValue default_value) ->
                  exists v : option Value,
                    (v = None <-> true = false \/ default_value = "NULL"%string) /\
                    (v = None <->
                     DefaultValueColumnIterator._is_default_value_null it' = true) /\
                    (true = true -> default_value <> "NULL"%string ->
                     DefaultValueColumnIterator.type type_info ∈ strings ->
                     Z.of_nat (String.length default_value) < two31 ->
                     v = Some (SliceValue default_value)) /\
                    DefaultValueColumnIterator._mem_value it' = v) as Hset.
        { intros val it0 Heq Hflag Hval. inversion Heq; subst it'.
          exists (Some val). simpl. rewrite Hflag. split; [by split; [|intros [|]]|].
          split; [done|]. split; [|done]. intros _ _ Hty Hlen. f_equal.
          by apply Hval. }
        assert (Z.of_nat (String.length default_value) < two31 ->
                SliceValue
                  (String.substring 0
                     (Z.to_nat (to_int32 (Z.of_nat (String.length default_value))))
                     default_value) = SliceValue default_value) as Hwhole.
        { intros Hlen. rewrite to_int32_small by (unfold two31 in *; lia).
          by rewrite Nat2Z.id, substring_all. }
        destruct (DefaultValueColumnIterator.type type_info) eqn:Hty;
          cbv beta iota zeta in Hinit;
          repeat (match type of Hinit with
                  | context [if ?c then _ else _] => destruct c; [done|]
                  end);
          try (destruct (DefaultValueColumnIterator.type_from_string type_info
                           default_value) as [val| |]; [|done|done]; simpl in Hinit);
          try done;
          (eapply Hset; [exact Hinit|done|]);
          first [ by intros _ | intros Hin; exfalso; revert Hin; subst strings;
                  rewrite !elem_of_cons, elem_of_nil; by intros [|[|[|[|]]]] ].
    - destruct is_nullable_column; [|done]. inversion Hinit; subst it'.
      exists None. simpl. split; [by split; [left|]|]. split; [done|].
      split; [|done]. by intros Ht. }
  exists v. split; [done|]. split; [done|]. split; [done|].
  intros n dst Hn. unfold DefaultValueColumnIterator.next_batch. rewrite Hmem.
  destruct (DefaultValueColumnIterator._is_default_value_null it') eqn:Hflag.
  - assert (v = None) as -> by (by apply Hv2).
    eexists. split; [done|]. split.
    + rewrite fmap_replicate. f_equal. by destruct (is_nullable dst).
    + apply Forall_replicate. done.
  - destruct v as [val|]; [|by pose proof (proj1 Hv2 eq_refl)].
    eexists. split; [done|]. split.
    + rewrite fmap_replicate. f_equal. unfold cell_value. simpl.
      destruct (is_nullable dst); by rewrite bool_decide_eq_false_2.
    + apply Forall_replicate. done.
Qed.

(** X23: for a [CHAR] column with a default value other than NULL, [init]
    takes the schema length as an [int32_t].  It writes past its buffer when
    that length is negative or shorter than the default; otherwise the value
    is a slice of that length that starts with the default and is padded
    with zero bytes. *)
Theorem default_char_value_is_padded (debug_build : bool)
    (it : DefaultValueColumnIterator.t) :
  DefaultValueColumnIterator._has_default_value it = true ->
  DefaultValueColumnIterator._default_value it <> "NULL"%string ->
  DefaultValueColumnIterator.type (DefaultValueColumnIterator._type_info it) =
    OLAP_FIELD_TYPE_CHAR ->
  let default := DefaultValueColumnIterator._default_value it in
  let len := String.length default in
  let length := to_int32 (DefaultValueColumnIterator._schema_length it) in
  (length < Z.of_nat len ->
   DefaultValueColumnIterator.init debug_build it = Fault BufferOverflow) /\
  (Z.of_nat len <= length ->
   exists s,
     DefaultValueColumnIterator.init debug_build it =
       Ok (DefaultValueColumnIterator.set_mem_value it (SliceValue s)) /\
     Z.of_nat (String.length s) = length /\
     String.prefix default s = true /\
     forall i, (len <= i)%nat -> Z.of_nat i < length ->
       String.get i s = Some Ascii.zero) /\
  (0 <= DefaultValueColumnIterator._schema_length it < two31 ->
   length = DefaultValueColumnIterator._schema_length it).
Proof.
  intros Hdef Hne Hty default len length.
  unfold DefaultValueColumnIterator.init. rewrite Hdef, Hty.
  destruct (String.eqb_spec (DefaultValueColumnIterator._default_value it) "NULL");
    [done|].
  cbv beta iota zeta. fold default. fold len. fold length. split; [|split].
  - intros Hlt. destruct (Z.ltb_spec length 0); [done|].
    by rewrite (proj2 (Z.ltb_lt _ _) Hlt).
  - intros Hle. rewrite (proj2 (Z.ltb_ge length 0)) by lia.
    rewrite (proj2 (Z.ltb_ge _ _) Hle).
    eexists. split; [done|].
    split; [|split].
    + rewrite length_string_app, length_zero_padding. lia.
    + apply prefix_string_app.
    + intros i Hi Hlt.
      replace i with ((i - len) + String.length default)%nat by (fold len; lia).
      rewrite <- String.append_correct2. apply get_zero_padding. lia.
  - intros Hs. apply to_int32_small. unfold two31 in *. lia.
Qed.

Lemma default_value_batches_witness :
  exists v : option Value,
    v = Some (SliceValue "abc") /\
    exists cs,
      DefaultValueColumnIterator.next_batch
        (DefaultValueColumnIterator.set_mem_value Samples.varchar_default
           (SliceValue "abc")) 3 Samples.nullable_block =
        (block_write Samples.nullable_block cs, false) /\
      map cell_value cs = replicate (Z.to_nat 3) v.
Proof.
  destruct (default_value_batches false true "abc" false Samples.varchar_type_info 0
              (DefaultValueColumnIterator.set_mem_value Samples.varchar_default
                 (SliceValue "abc")) eq_refl) as (v & _ & _ & Hv & Hbatch).
  exists v. split.
  - apply Hv.
    + reflexivity.
    + intros Heq. discriminate Heq.
    + apply list_elem_of_here.
    + by vm_compute.
  - destruct (Hbatch 3 Samples.nullable_block) as (cs & Hcs & Hrows & _).
    { unfold two31. lia. }
    exists cs. split; [exact Hcs|exact Hrows].
Defined.

Lemma default_char_value_is_padded_witness :
  exists s,
    DefaultValueColumnIterator.init false Samples.char_default =
      Ok (DefaultValueColumnIterator.set_mem_value Samples.char_default (SliceValue s)) /\
    Z.of_nat (String.length s) = 4 /\
    String.prefix "ab" s = true.
Proof.
  destruct (default_char_value_is_padded false Samples.char_default eq_refl)
    as (_ & Hfits & _).
  { intros Heq. discriminate Heq. }
  { reflexivity. }
  destruct Hfits as (s & Hinit & Hlen & Hprefix & _).
  { by vm_compute. }
  exists s. split; [exact Hinit|]. split; [exact Hlen|exact Hprefix].
Defined.
